(* ===== verification/_CoqProject ===== *)
-Q . S2P
Prelude.v
Utils.v
StdMap.v
Http.v
Config.v
Request.v
FileSystem.v
Handlers.v
Pipeline.v
Response.v
Date.v
Exception.v
Adaptor.v
InitSocket.v
PollState.v
HandleIO.v
Loop.v
LoopInvariant.v
Serve.v
Connection.v
Console.v
