(* ===== verification/Prelude.v ===== *)
(** * A verification development for webserv (Tapey-ui/webserv)

    webserv is a single-threaded HTTP/1.1 server in C++98.  Its parts:
    - the connection multiplexer, [WebServer] ([src/src/WebServer.cpp]):
      [initSockets] opens one listening socket per configured port;
      [loop] polls all descriptors and scans them in order, calling
      [acceptConnection] on a listening socket and [handleIO] on a
      connection.  [handleIO] reads ([recv] into a per-descriptor buffer
      until [parseHeader] and the [Content-Length] say the message is
      complete), hands the message to the adaptor, and then writes the
      answer back ([send]), closing the connection once the buffer is
      drained;
    - the adaptor interface [IOAdaptor] ([src/src/IOAdaptor.cpp]) with
      [receiveMessage] and [getMessageToSend]; the base class echoes, and
      [MethodIO] ([src/src/MethodIO.cpp]) serves HTTP;
    - in [MethodIO]: [tokenize] (the request parser), [getServerBlock]
      (virtual-host routing), the body-size limit, the dispatch table of
      [GET], [HEAD], [POST], [DELETE] and their handlers over [readFile]
      and [writeFile], the [catch] that renders error pages, and
      [generateResponse];
    - the configuration objects ([src/includes/ServerBlock.hpp]) with the
      longest-prefix location lookup.

    ** Files, in dependency order
    - [Prelude] (this file): byte strings, a state-and-exception monad
      for C++ control flow ([Ret], [Throw] for a caught exception, [Abort]
      for undefined behaviour or an uncaught [std::] exception), machine
      integers ([to_int]: 32-bit wrap; [to_size_t]: modulo 2^64), a
      weakest-precondition calculus for the monad ([wp], [wp_run],
      [wp_apply]), hint databases and tactics.
    - [Utils]: the [std::string] operations and the [utils::] helpers
      ([split], [splitPair], [stoi], [to_string], [find]); [split] is a
      [Fixpoint] with fuel [S (length s)], proved enough
      ([split_fuel_enough]); [to_string] has fuel [S (N.size_nat n)].
      [stoi (to_string n) = n] for every [int] ([stoi_to_string]), and
      [split] undoes joining by the delimiter ([split_join_with],
      [split_char_join_with]).
    - [StdMap]: [std::map] as a sorted association list ([find],
      [operator[]] read as [subscript], [insert], [erase]); iteration
      order matters because responses print headers in key order.  It
      refines stdpp's [gmap] ([StdMapAbstract]).
    - [Http]: [rInfo], the status and content-type tables, [getType],
      [generateResponse]; a response splits back into its body
      ([generateResponse_body]).
    - [Config]: [ServerBlock] and its location lookup
      ([getLocationBlockPair_longest]).
    - [Request]: [WebServer::parseHeader] and [MethodIO::tokenize], which
      agree ([tokenize_parseHeader]); the body is the part after the
      first CRLFCRLF also for POST ([tokenize_body]); a printed request
      parses back into its request line, headers (first value per key,
      as stdpp's [list_to_map]) and body ([parseHeader_print]).
    - [FileSystem]: the disk as a [gmap] from canonical paths to entries,
      with [access], [ifstream], [ofstream] and [remove] (which needs
      write permission on the directory holding the entry).
    - [Handlers]: [readFile], [writeFile] and the four handlers over the
      state [PState] (request, response, disk, chosen block); which
      operations keep the disk ([keeps_disk]); GET of a file
      ([getMethod_static]); DELETE, which truncates the file before
      [remove] and loses it when [remove] fails ([delMethod_file]), and
      never removes a directory ([delMethod_dir_refused]); GET of a CGI script ([getMethod_cgi]);
      HEAD of a redirection or a listing reads [tokens[-1]]
      ([headMethod_no_path_aborts]); a GET of ["/../x"] is answered with
      the file [x] outside the root ([getMethod_escapes_root]).
    - [Pipeline]: [getServerBlock], [dispatch], [serve] (the [try]),
      [on_error] (the [catch]) and [getMessageToSend]; only DELETE writes
      ([getMessageToSend_keeps_disk]); unknown hosts get a bare 404
      ([getMessageToSend_no_server]); the limit is checked before any
      handler ([serve_payload_too_large]) and its [(int)] cast wraps
      ([too_large_wraps]); error pages ([on_error_page]); a version
      other than HTTP/1.1 gets a bare 400 ([getMessageToSend_bad_version]);
      a two-word request line and a [?x] target kill the server
      ([getMessageToSend_short_line], [getMessageToSend_empty_path]);
      and, composing the parser, the router, the dispatch table, [getMethod]
      and [generateResponse], a printed GET of a file is answered with the
      file ([getMessageToSend_get_file]).
    - [Response]: every answer of [getMessageToSend] is a response
      built by [generateResponse] or the output of a CGI script passed
      through verbatim ([getMessageToSend_typed]), proved with [wp] over
      the whole pipeline.
    - [Date]: [MethodIO::getDate()], [strftime] with the source's format
      into [char date[100]] over the [struct tm] of [localtime]; the
      length of the date and when it fits ([getDate_bounds]); the date is
      an HTTP-date exactly when the zone is GMT ([getDate_http_date]).
    - [Exception]: [CustomException] and [what()] read as a C string
      ([what_roundtrip]).
    - [Adaptor]: the [IOAdaptor] type class, with the echo adaptor and
      [MethodIO] as instances; the event loop is proved for every
      instance.  The default and copy constructors and the assignments
      of both classes:
      a copied [MethodIO] has lost its request ([MethodIO_copy_forgets]);
      [operator<<] as the text it writes.
    - [InitSocket]: [initSocket(port)] over the kernel's answers
      ([SockEnv]) and an allocator of fresh descriptors, with the open
      descriptors as state; [initSocket_spec] computes it.
    - [PollState]: the [WebServer] state [WS] (members of
      [WebServer.hpp], the [buffMap] of [loop()], and the open
      descriptors), and [addPfd], [addPfds], [removePfd], [set_events],
      and [store_revents] (what [poll] writes).
    - [HandleIO]: [handleIO] with its read path ([wants_more], the
      completion test [framed], dispatch through the adaptor) and write
      path.  The completion test against the spec's framing rule
      ([framed_head_complete], [framed_split_head]), the hang after a
      mis-framed message ([handle_read_idle]), and the request with a
      [Content-Length] that [stoi] reads as negative, read forever and
      never answered ([handle_read_bad_length]).
    - [Loop]: [acceptConnection], [initSockets], the constructor
      [WebServer_new], destructor [WebServer_delete], copy constructor
      [WebServer_copy] (a copy polls nothing: [WebServer_copy_stuck]) and
      assignment [WebServer_assign], and [loop] as a
      one-action [step] with [valid_answer] (what the kernel may answer:
      [poll] results within the requested events, fresh descriptors from
      [accept], [recv] results within [BUFFSIZE], [send] results within
      the buffer) and the step relation [lstep].  Dispatch through the
      adaptor interface ([step_dispatch]), partial and failed writes
      ([step_partial_send], [step_send_error_crash]), close
      ([step_drained_close]), peer close and its leak past the
      destructor ([step_peer_close]), a failed [recv]
      ([step_recv_error_crash]), the descriptor skipped after a close
      ([step_close_skips]), the uninitialised [revents] of an accepted
      connection ([accept_garbage_close]), and the socket leaked when
      [listen] fails ([initSocket_listen_leak]).
    - [LoopInvariant]: the invariant [wf] (polled descriptors distinct
      and open, the keys of the three maps open, the maps sorted), kept by
      every step ([reachable_wf]) and established by the constructor
      ([WebServer_new_ok]); the scan of one [poll] round ends within
      twice as many steps as there are polled descriptors
      ([scan_terminates]).
    - [Serve]: whole rounds of the loop when [poll] reports one
      descriptor; a connection whose request arrives in one read is
      answered with [getMessageToSend]'s bytes and closed within three
      rounds ([serve_connection]).
    - [Connection]: the spec's connection life cycle as a transition
      system [conn_step] and the refinement theorem [conn_refines], a
      stuttering simulation: in every run, each step of the loop moves
      each connection by one [conn_step] or not at all.
    - [Console]: every write to [std::cout] and [std::cerr], as the
      lines an operation writes (stream and text), a function of its
      inputs: the constructor, [initSocket], [initSockets], [addPfds],
      [loop]'s [poll error], [acceptConnection] (with [get_in_addr]),
      both branches of [handleIO], [readFile]'s pointer and path lines,
      [postMethod]'s header lines, the [catch] of [getMessageToSend],
      and [printServerBlocksInfo]; the log of [initSocket] ends on
      [std::cerr] exactly when it throws ([initSocket_log_reports]).

    ** Bounds
    Integers are [Z] with their C++ width applied where the code casts:
    [(int)body.size()] in the limit test and in the completion test,
    [(size_t)stoi(...)] in the read guard.  The framing theorems assume a
    buffer shorter than 2^31 bytes, where the cast is the identity; the
    wrap above it is a theorem of its own.  Every [Fixpoint] is structural
    or has fuel proved sufficient, so all definitions compute: each
    theorem with hypotheses has a witness that evaluates the model on a
    concrete request, server or disk.

    The scan measure of [scan_terminates] counts the pollfds ahead of
    the scan index plus the listening sockets among them: an [accept]
    appends one pollfd but passes one listening socket.  The date
    theorems cover every [struct tm] with a four-digit year; the digit
    fields are checked on their whole ranges by evaluation (100 and 9000
    values).  A failed [send] is [-1], which [substr] reads as [npos];
    the crash theorem assumes a buffer shorter than [npos].

    ** Not modelled
    The configuration file parser and [AutoIndex] and [Cgi] are not in
    the sources ([AutoIndex] and [Cgi] are parameters of the handlers:
    the listing and the CGI run are opaque functions); the clock and the
    time zone are the environment ([getDate] takes the [struct tm] of
    [localtime], and the pipeline takes the date as a parameter); the
    console is write-only, so its lines are computed beside the state
    ([Console]), with the colour escapes of [colors.h], [inet_ntop] and
    [ServerBlock]'s [operator<<] (not in the sources) as parameters;
    the kernel's descriptor table is the list [open_fds], and the
    system calls are answers of the environment; [getServers] returns
    [_serverBlocks], which the model passes as the parameter [servers];
    [WebServer]'s copy constructor copies only the adaptor reference
    ([WebServer_copy]), and the sharing of that adaptor between two
    servers has no counterpart in a state passed by value (no code
    copies a server); the destructors of the adaptors and of
    [CustomException] are empty. *)

From stdpp Require Export base list strings gmap.
From Stdlib Require Export Ascii ZArith Lia.

(** ** Byte strings

    A C++ [std::string] is a buffer of bytes; it is modelled as a list of
    [ascii] characters, so that stdpp's list library (take, drop, app,
    prefix) applies.  Literals are written [lit "..."]. *)

Declare Scope ws_scope.
Delimit Scope ws_scope with ws.

Abbreviation str := (list ascii).

Definition lit (s : string) : str := String.list_ascii_of_string s.

Definition CR : ascii := "013"%char.
Definition LF : ascii := "010"%char.
Definition SP : ascii := " "%char.

(** ["\r\n"] and ["\r\n\r\n"] *)
Definition crlf : str := [CR; LF].
Definition crlf2 : str := crlf ++ crlf.

(** ** C++ control flow: a state monad with exceptions and aborts

    The handlers of [MethodIO.cpp] mutate objects passed by reference
    ([rInfo &rqi], [rInfo &rsi]) and the file system, and report errors
    by [throw RequestException(...)].  A C++ exception does not roll back
    the mutations made before it: the state is returned on every path.
    [Abort] stands for what ends the process instead of reaching the
    [catch]: undefined behaviour (a [vector::operator[]] out of range)
    and standard exceptions nobody catches ([std::out_of_range] from
    [string::at] or [string::substr]). *)

Inductive outcome (E A : Type) : Type :=
  | Ret (a : A)
  | Throw (e : E)
  | Abort (why : string).
Arguments Ret {E A} a.
Arguments Throw {E A} e.
Arguments Abort {E A} why.

Definition ST (S E A : Type) : Type := S -> outcome E A * S.

Section Monad.
Context {S E : Type}.

Definition st_ret {A} (a : A) : ST S E A := fun s => (Ret a, s).
Definition st_bind {A B} (m : ST S E A) (k : A -> ST S E B) : ST S E B :=
  fun s => match m s with
           | (Ret a, s') => k a s'
           | (Throw e, s') => (Throw e, s')
           | (Abort w, s') => (Abort w, s')
           end.
Definition st_throw {A} (e : E) : ST S E A := fun s => (Throw e, s).
Definition st_abort {A} (w : string) : ST S E A := fun s => (Abort w, s).
Definition st_get : ST S E S := fun s => (Ret s, s).
Definition st_put (s : S) : ST S E unit := fun _ => (Ret tt, s).
Definition st_modify (f : S -> S) : ST S E unit := fun s => (Ret tt, f s).
Definition st_gets {A} (f : S -> A) : ST S E A := fun s => (Ret (f s), s).

(** [try { m } catch (E &e) { h(e) }]: only [Throw] is caught. *)
Definition st_catch {A} (m : ST S E A) (h : E -> ST S E A) : ST S E A :=
  fun s => match m s with
           | (Throw e, s') => h e s'
           | r => r
           end.

(** An [option] that is [None] when C++ has undefined behaviour. *)
Definition st_lift {A} (why : string) (o : option A) : ST S E A :=
  match o with Some a => st_ret a | None => st_abort why end.
End Monad.

Notation "x <- m ;; k" := (st_bind m (fun x => k))
  (at level 100, m at next level, right associativity) : ws_scope.
Notation "m ;; k" := (st_bind m (fun _ => k))
  (at level 100, right associativity) : ws_scope.

Open Scope ws_scope.

Create HintDb webserv.
Create Rewrite HintDb st_simpl.

Section MonadLaws.
Context {S E : Type}.

Lemma st_bind_ret {A B} (a : A) (k : A -> ST S E B) s :
  st_bind (st_ret a) k s = k a s.
Proof. reflexivity. Qed.

Lemma st_bind_throw {A B} (e : E) (k : A -> ST S E B) s :
  st_bind (st_throw e) k s = (Throw e, s).
Proof. reflexivity. Qed.

Lemma st_bind_abort {A B} w (k : A -> ST S E B) s :
  st_bind (st_abort w) k s = (Abort w, s).
Proof. reflexivity. Qed.

Lemma st_bind_assoc {A B C} (m : ST S E A) (k : A -> ST S E B)
      (k' : B -> ST S E C) s :
  st_bind (st_bind m k) k' s = st_bind m (fun a => st_bind (k a) k') s.
Proof. unfold st_bind. destruct (m s) as [[] ?]; reflexivity. Qed.

Lemma st_bind_modify {B} f (k : unit -> ST S E B) s :
  st_bind (st_modify f) k s = k tt (f s).
Proof. reflexivity. Qed.

Lemma st_bind_gets {A B} (f : S -> A) (k : A -> ST S E B) s :
  st_bind (st_gets f) k s = k (f s) s.
Proof. reflexivity. Qed.
End MonadLaws.

#[export] Hint Rewrite @st_bind_ret @st_bind_throw @st_bind_abort
  @st_bind_assoc @st_bind_modify @st_bind_gets : st_simpl.

(** ** Weakest preconditions for the monad

    [wp m Q R s]: run from [s], [m] returns [a] in a state satisfying
    [Q a], or throws [e] in one satisfying [R e]; an abort satisfies
    every postcondition (the process is gone, nothing more is sent).  The
    laws below compute [wp] through the combinators, so a property of a
    handler is proved by [wp_run] and the specifications of its callees. *)
Section Wp.
Context {S E : Type}.

Definition wp {A} (m : ST S E A) (Q : A -> S -> Prop) (R : E -> S -> Prop) (s : S) : Prop :=
  match m s with
  | (Ret a, s') => Q a s'
  | (Throw e, s') => R e s'
  | (Abort _, _) => True
  end.

Lemma wp_ret {A} (a : A) Q R s : wp (st_ret a) Q R s = Q a s.
Proof. reflexivity. Qed.
Lemma wp_get Q R s : wp st_get Q R s = Q s s.
Proof. reflexivity. Qed.
Lemma wp_modify f Q R s : wp (st_modify f) Q R s = Q tt (f s).
Proof. reflexivity. Qed.
Lemma wp_throw {A} e Q R s : wp (A:=A) (st_throw e) Q R s = R e s.
Proof. reflexivity. Qed.
Lemma wp_abort {A} w Q R s : wp (A:=A) (st_abort w) Q R s = True.
Proof. reflexivity. Qed.
Lemma wp_lift {A} w (o : option A) Q R s :
  wp (st_lift w o) Q R s = match o with Some a => Q a s | None => True end.
Proof. by destruct o. Qed.

Lemma wp_bind {A B} (m : ST S E A) (k : A -> ST S E B) Q R s :
  wp (st_bind m k) Q R s = wp m (fun a s' => wp (k a) Q R s') R s.
Proof. unfold wp, st_bind. by destruct (m s) as [[] ?]. Qed.

Lemma wp_catch {A} (m : ST S E A) h Q R s :
  wp (st_catch m h) Q R s = wp m Q (fun e s' => wp (h e) Q R s') s.
Proof. unfold wp, st_catch. by destruct (m s) as [[] ?]. Qed.

Lemma wp_mono {A} (m : ST S E A) (Q Q' : A -> S -> Prop) (R R' : E -> S -> Prop) s :
  wp m Q R s ->
  (forall a s', Q a s' -> Q' a s') -> (forall e s', R e s' -> R' e s') -> wp m Q' R' s.
Proof. intros H HQ HR. unfold wp in *. destruct (m s) as [[] ?]; eauto. Qed.

Lemma wp_true {A} (m : ST S E A) s : wp m (fun _ _ => True) (fun _ _ => True) s.
Proof. unfold wp. by destruct (m s) as [[] ?]. Qed.

(** A returned result, read back from [wp]. *)
Lemma wp_ret_inv {A} (m : ST S E A) Q R s a s' :
  wp m Q R s -> m s = (Ret a, s') -> Q a s'.
Proof. unfold wp. intros H Hm. by rewrite Hm in H. Qed.
End Wp.

Create Rewrite HintDb wp_simpl.
#[export] Hint Rewrite @wp_ret @wp_get @wp_modify @wp_throw @wp_abort @wp_lift
  @wp_bind @wp_catch : wp_simpl.

(** Push [wp] through the combinators of the goal, splitting on the
    tests it meets. *)
Ltac wp_run :=
  repeat (autorewrite with wp_simpl; cbv beta; try (case_match; simplify_eq/=)).

(** Use the specification [H] of the callee at the head of the goal. *)
Ltac wp_apply H := repeat rewrite wp_bind; eapply wp_mono; [apply H| |]; cbv beta.

(** Compute a monadic hypothesis [H : m s = (o, s')] branch by branch:
    unfold the combinators, reduce, and case on the first stuck match. *)
Ltac st_unfold :=
  unfold st_bind, st_ret, st_get, st_put, st_modify, st_gets, st_throw,
    st_abort, st_lift, st_catch in *.

Ltac st_run := repeat (st_unfold; simpl in *; try case_match; simplify_eq/=).

(** Run the monadic plumbing of a goal away. *)
Ltac st_simp := repeat (autorewrite with st_simpl; cbn [st_lift st_ret st_get st_put]).

(** ** Machine integers

    [int] is 32-bit two's complement, [size_t] 64-bit unsigned; a cast
    between them wraps. *)

Local Open Scope Z_scope.

Definition wrap_signed (w : Z) (z : Z) : Z := (z + 2 ^ (w - 1)) mod 2 ^ w - 2 ^ (w - 1).
Definition to_int (z : Z) : Z := wrap_signed 32 z.
Definition to_size_t (z : Z) : Z := z mod 2 ^ 64.

Lemma to_int_small z : - 2 ^ 31 <= z < 2 ^ 31 -> to_int z = z.
Proof.
  intros H. unfold to_int, wrap_signed.
  rewrite Z.mod_small; [lia | cbn in *; lia].
Qed.

Lemma to_size_t_nonneg z : 0 <= z < 2 ^ 64 -> to_size_t z = z.
Proof. intros H. unfold to_size_t. apply Z.mod_small; lia. Qed.

Lemma to_size_t_neg z : - 2 ^ 64 <= z < 0 -> to_size_t z = z + 2 ^ 64.
Proof.
  intros H. unfold to_size_t.
  rewrite <- (Z.mod_small (z + 2 ^ 64) (2 ^ 64)) by lia.
  rewrite <- Z.add_mod_idemp_r by lia. rewrite Z.mod_same by lia.
  now rewrite Z.add_0_r.
Qed.

(** A size in [[2^31, 2^32)] becomes negative when cast to [int]. *)
Lemma to_int_wrap z : 2 ^ 31 <= z < 2 ^ 32 -> to_int z = z - 2 ^ 32.
Proof.
  intros H. unfold to_int, wrap_signed.
  rewrite <- (Z.mod_unique (z + 2 ^ (32 - 1)) (2 ^ 32) 1 (z + 2 ^ 31 - 2 ^ 32)); cbn in *; lia.
Qed.

#[export] Hint Resolve to_int_small to_size_t_nonneg : webserv.

Local Close Scope Z_scope.

(** ** Generic list lemmas shared by the components *)

Lemma take_app_length' {A} (l1 l2 : list A) n :
  n = length l1 -> take n (l1 ++ l2) = l1.
Proof. intros ->. apply take_app_length. Qed.

Lemma drop_app_length' {A} (l1 l2 : list A) n :
  n = length l1 -> drop n (l1 ++ l2) = l2.
Proof. intros ->. apply drop_app_length. Qed.

Lemma NoDup_delete' {A} (l : list A) i : NoDup l -> NoDup (delete i l).
Proof. intros Hn. apply (sublist_NoDup _ _ Hn), sublist_delete. Qed.

Lemma NoDup_delete_not_elem {A} (l : list A) i x :
  NoDup l -> l !! i = Some x -> x ∉ delete i l.
Proof.
  intros Hn Hx [j Hj]%list_elem_of_lookup. rewrite list_lookup_delete in Hj.
  case_decide; pose proof (NoDup_lookup _ _ _ _ Hn Hx Hj); lia.
Qed.

Lemma filter_Forall_id {A} (P : A -> Prop) `{!forall x, Decision (P x)} (l : list A) :
  Forall P l -> filter P l = l.
Proof. induction 1; [done|]. rewrite filter_cons_True by done. by f_equal. Qed.

(** A boolean test checked on every integer of a finite range by
    evaluation holds on the whole range. *)
Lemma forallb_seq_Z (p : Z -> bool) (lo : Z) (n : nat) :
  forallb (fun k => p (lo + Z.of_nat k)%Z) (seq 0 n) = true ->
  forall z, (lo <= z < lo + Z.of_nat n)%Z -> p z = true.
Proof.
  intros Hall z Hz. rewrite forallb_forall in Hall.
  specialize (Hall (Z.to_nat (z - lo))). rewrite Z2Nat.id in Hall by lia.
  replace (lo + (z - lo))%Z with z in Hall by lia. apply Hall, in_seq. lia.
Qed.

(** A list of a known length, taken apart. *)
Lemma length_2 {A} (l : list A) : length l = 2 -> exists a b, l = [a; b].
Proof. destruct l as [|a [|b [|]]]; naive_solver. Qed.
Lemma length_3 {A} (l : list A) : length l = 3 -> exists a b c, l = [a; b; c].
Proof. destruct l as [|a [|b [|c [|]]]]; naive_solver. Qed.
Lemma length_4 {A} (l : list A) : length l = 4 -> exists a b c d, l = [a; b; c; d].
Proof. destruct l as [|a [|b [|c [|d [|]]]]]; naive_solver. Qed.

Lemma list_find_ext {A} (P Q : A -> Prop) `{!forall x, Decision (P x)} `{!forall x, Decision (Q x)}
    (l : list A) :
  (forall x, P x <-> Q x) -> list_find P l = list_find Q l.
Proof.
  intros HPQ. induction l as [|x l IH]; simpl; [done|].
  destruct (decide (P x)) as [Hp|Hp], (decide (Q x)) as [Hq|Hq];
    [done|by apply HPQ in Hp|by apply HPQ in Hq|by rewrite IH].
Qed.
