(* ===== verification/Utils.v ===== *)
(** * Utils: the string utilities the core consumes

    [std::string] operations used by the sources ([find], [find_first_of],
    [find_last_of], [substr]) and the repository's [utils::] helpers
    ([split], [splitPair], [stoi], [to_string], [find]).  The helpers live
    in [utils.cpp], which is not part of [src/]: they are modelled from
    their contract in the spec (section 1, "low-level string utilities"),
    with the usual C++98 implementations of that contract (a [find]/[substr]
    loop for [split] by a string, a [getline] loop for [split] by a char,
    a stream extraction for [stoi]). *)

From S2P Require Import Prelude.

(** ** [std::string] operations *)

Section StringOps.

(** [s.find(d)]: the first position at which [d] occurs. *)
Fixpoint find_sub (d s : str) : option nat :=
  if decide (d `prefix_of` s) then Some 0
  else match s with
       | [] => None
       | _ :: s' => S <$> find_sub d s'
       end.

(** [s.find_first_of(c)] for a one-character set. *)
Fixpoint find_char (c : ascii) (s : str) : option nat :=
  match s with
  | [] => None
  | x :: s' => if decide (x = c) then Some 0 else S <$> find_char c s'
  end.

(** [s.find_last_of(c)] for a one-character set. *)
Fixpoint find_last_char (c : ascii) (s : str) : option nat :=
  match s with
  | [] => None
  | x :: s' =>
      match find_last_char c s' with
      | Some i => Some (S i)
      | None => if decide (x = c) then Some 0 else None
      end
  end.

(** [s.substr(pos)]: throws [std::out_of_range] when [pos > s.size()]. *)
Definition substr_from (pos : nat) (s : str) : option str :=
  if decide (pos <= length s) then Some (drop pos s) else None.

(** [s.substr(s.find_last_of(".") + 1)]: with no dot, [npos + 1]
    wraps to [0] and the whole string is returned. *)
Definition ext_of (s : str) : str :=
  match find_last_char "." s with
  | Some i => drop (S i) s
  | None => s
  end.

End StringOps.

(** ** [utils::splitPair], [utils::split], [utils::find] *)

(** [splitPair(s, d)]: the parts before and after the first [d]; the
    whole string and [""] when [d] does not occur. *)
Definition splitPair (s d : str) : str * str :=
  match find_sub d s with
  | Some i => (take i s, drop (i + length d) s)
  | None => (s, [])
  end.

(** [split(s, d)] by a string: the loop
    [while ((end = s.find(d, start)) != npos) { push(s.substr(start, end - start)); start = end + d.size(); }
     push(s.substr(start));]
    keeps empty pieces and always returns at least one.  [fuel] bounds
    the iterations; [split] gives one more than the length of [s], which
    is enough when [d] is not empty ([split_fuel_enough]). *)
Fixpoint split_fuel (fuel : nat) (s d : str) : list str :=
  match fuel with
  | 0 => [s]
  | S f =>
      match find_sub d s with
      | Some i => take i s :: split_fuel f (drop (i + length d) s) d
      | None => [s]
      end
  end.

Definition split (s d : str) : list str := split_fuel (S (length s)) s d.

(** [split(s, c)] by a character: the loop
    [while (std::getline(ss, item, c)) push(item);]
    an empty string gives no piece, and a trailing [c] gives no empty
    last piece. *)
Fixpoint split_char_go (c : ascii) (s : str) (cur : str) : list str :=
  match s with
  | [] => match cur with [] => [] | _ => [cur] end
  | x :: s' =>
      if decide (x = c) then cur :: split_char_go c s' []
      else split_char_go c s' (cur ++ [x])
  end.

Definition split_char (s : str) (c : ascii) : list str := split_char_go c s [].

(** The inverse of [split]: the pieces joined by the delimiter.  Not a
    function of the sources; it states what [split] undoes. *)
Fixpoint join_with (sep : str) (ls : list str) : str :=
  match ls with
  | [] => []
  | [l] => l
  | l :: ls' => l ++ sep ++ join_with sep ls'
  end.

(** [utils::find(v, x)]: [std::find(v.begin(), v.end(), x) != v.end()]. *)
Definition vfind (v : list str) (x : str) : bool := bool_decide (x ∈ v).

(** ** Numbers: [utils::to_string] and [utils::stoi] *)

Local Open Scope N_scope.

Definition digit_char (d : N) : ascii := ascii_of_N (48 + d).

Fixpoint print_N_fuel (fuel : nat) (n : N) : str :=
  match fuel with
  | O => []
  | S f =>
      if n <? 10 then [digit_char n]
      else print_N_fuel f (n / 10) ++ [digit_char (n mod 10)]
  end.

(** [to_string(n)] of a [size_t]: its decimal digits. *)
Definition to_string (n : N) : str := print_N_fuel (S (N.size_nat n)) n.

Local Close Scope N_scope.
Local Open Scope Z_scope.

(** [ss << i] of an [int]: a minus sign and the digits. *)
Definition int_to_str (z : Z) : str :=
  if z <? 0 then "-"%char :: to_string (Z.to_N (- z)) else to_string (Z.to_N z).

Definition is_digit (c : ascii) : bool :=
  (48 <=? Z.of_N (N_of_ascii c)) && (Z.of_N (N_of_ascii c) <=? 57).

Definition is_space (c : ascii) : bool :=
  bool_decide (c ∈ [" "; "009"; "010"; "011"; "012"; "013"]%char).

Definition digit_val (c : ascii) : Z := Z.of_N (N_of_ascii c) - 48.

Definition digits_value (ds : str) : Z :=
  fold_left (fun acc c => acc * 10 + digit_val c) ds 0.

Fixpoint take_while (p : ascii -> bool) (s : str) : str :=
  match s with
  | [] => []
  | x :: s' => if p x then x :: take_while p s' else []
  end.

Fixpoint drop_while (p : ascii -> bool) (s : str) : str :=
  match s with
  | [] => []
  | x :: s' => if p x then drop_while p s' else s
  end.

Definition int_min : Z := - 2 ^ 31.
Definition int_max : Z := 2 ^ 31 - 1.

(** [stoi(s, def)]: [std::stringstream ss(s); int n; ss >> n;] and [def]
    when the extraction fails (no digit, or out of the range of [int]). *)
Definition stoi (s : str) (def : Z) : Z :=
  let s1 := drop_while is_space s in
  let '(neg, s2) :=
    match s1 with
    | c :: r =>
        if decide (c = "-"%char) then (true, r)
        else if decide (c = "+"%char) then (false, r) else (false, s1)
    | [] => (false, [])
    end in
  match take_while is_digit s2 with
  | [] => def
  | ds =>
      let v := if neg then - digits_value ds else digits_value ds in
      if (int_min <=? v) && (v <=? int_max) then v else def
  end.

Local Close Scope Z_scope.

(** ** Properties of the string operations *)

Lemma prefix_app_short (d s t : str) :
  length d <= length s -> d `prefix_of` s ++ t -> d `prefix_of` s.
Proof.
  intros Hl [k Hk]. exists (drop (length d) s).
  assert (Hd : take (length d) (s ++ t) = d).
  { rewrite Hk, take_app_length. done. }
  rewrite take_app_le in Hd by lia. rewrite <- Hd at 1. by rewrite take_drop.
Qed.

Lemma find_sub_cons d x s :
  find_sub d (x :: s) = if decide (d `prefix_of` x :: s) then Some 0 else S <$> find_sub d s.
Proof. reflexivity. Qed.

Lemma find_sub_prefix d r : find_sub d (d ++ r) = Some 0.
Proof.
  destruct d as [|c d]; [by destruct r|]. simpl.
  rewrite decide_True; [done|]. by exists r.
Qed.

Lemma find_sub_Some_le d s i :
  find_sub d s = Some i -> i + length d <= length s.
Proof.
  revert i. induction s as [|x s IH]; intros i H; simpl in H.
  - case_decide as Hp; [|done]. injection H as <-.
    apply prefix_length in Hp. simpl in *. lia.
  - case_decide as Hp.
    + injection H as <-. apply prefix_length in Hp. simpl in *. lia.
    + destruct (find_sub d s) as [j|] eqn:E; [|done]. injection H as <-.
      specialize (IH j eq_refl). simpl. lia.
Qed.

(** Appending bytes after an occurrence of [d] does not move it: the
    lemma behind every re-parse of a growing receive buffer. *)
Lemma find_sub_app_l d s t i :
  find_sub d s = Some i -> find_sub d (s ++ t) = Some i.
Proof.
  revert i. induction s as [|x s IH]; intros i H.
  - simpl in H. case_decide as Hp; [|done]. injection H as <-.
    apply prefix_nil_inv in Hp as ->.
    by destruct t.
  - pose proof (find_sub_Some_le _ _ _ H) as Hle. simpl in H |- *.
    case_decide as Hp.
    + injection H as <-. rewrite decide_True; [done|].
      destruct Hp as [k Hk]. exists (k ++ t). by rewrite app_assoc, <- Hk.
    + destruct (find_sub d s) as [j|] eqn:E; [|done]. injection H as <-.
      rewrite decide_False.
      * by rewrite (IH j eq_refl).
      * intros Hp'. apply Hp. apply (prefix_app_short _ _ t); [|done].
        simpl in *. lia.
Qed.

Lemma splitPair_app_l s t d i :
  find_sub d s = Some i ->
  splitPair (s ++ t) d = (take i s, drop (i + length d) s ++ t).
Proof.
  intros H. pose proof (find_sub_Some_le _ _ _ H).
  unfold splitPair. rewrite (find_sub_app_l _ _ _ _ H).
  rewrite take_app_le by lia. rewrite drop_app_le by lia. done.
Qed.

(** The loop of [split] terminates: when [d] is not empty, every
    iteration consumes at least one byte, so more fuel than the length of
    the string changes nothing. *)
Lemma split_fuel_enough s d n :
  d <> [] -> length s < n -> split_fuel n s d = split s d.
Proof.
  intros Hd. unfold split.
  assert (Hgen : forall m k s', length s' < m -> length s' < k ->
            split_fuel m s' d = split_fuel k s' d).
  { induction m as [|m IH]; intros k s' Hm Hk; [lia|].
    destruct k as [|k]; [lia|]. simpl.
    destruct (find_sub d s') as [i|] eqn:E; [|done].
    pose proof (find_sub_Some_le _ _ _ E).
    destruct d as [|c d']; [done|].
    f_equal. apply IH; rewrite length_drop; simpl in *; lia. }
  intros Hn. apply Hgen; lia.
Qed.

(** A piece without the first character of the delimiter is skipped
    whole by [find]. *)
Lemma find_sub_skip c d l t :
  c ∉ l -> find_sub (c :: d) (l ++ t) = Nat.add (length l) <$> find_sub (c :: d) t.
Proof.
  induction l as [|x l IH]; intros Hl; simpl.
  - by destruct (find_sub (c :: d) t).
  - rewrite not_elem_of_cons in Hl. destruct Hl as [Hx Hl].
    rewrite decide_False by (intros [k Hk]; injection Hk; congruence).
    rewrite IH by done. by destruct (find_sub (c :: d) t).
Qed.

Lemma find_sub_none c d l : c ∉ l -> find_sub (c :: d) l = None.
Proof. intros Hl. rewrite <- (app_nil_r l), find_sub_skip by done. done. Qed.

Lemma join_with_cons sep l l' ls :
  join_with sep (l :: l' :: ls) = l ++ sep ++ join_with sep (l' :: ls).
Proof. done. Qed.

Lemma length_join_with sep ls :
  sep <> [] -> length ls <= S (length (join_with sep ls)).
Proof.
  intros Hs. induction ls as [|l [|l' ls] IH]; simpl; [lia | lia|].
  rewrite !length_app. destruct sep; [done|]. simpl in *. lia.
Qed.

(** [split] undoes [join_with] when no piece holds the first character
    of the delimiter. *)
Lemma split_join_with c d ls :
  ls <> [] -> Forall (fun l => c ∉ l) ls -> split (join_with (c :: d) ls) (c :: d) = ls.
Proof.
  intros Hne Hall. unfold split.
  assert (Hn := length_join_with (c :: d) ls ltac:(done)).
  revert Hn. generalize (S (length (join_with (c :: d) ls))) as n.
  induction Hall as [|l ls Hl Hall IH]; intros n Hn; [done|].
  destruct ls as [|l' ls].
  - destruct n; simpl; [done|]. by rewrite find_sub_none.
  - destruct n as [|n]; [simpl in Hn; lia|]. rewrite join_with_cons. cbn [split_fuel].
    rewrite find_sub_skip, find_sub_prefix by done. cbn [fmap option_fmap option_map].
    rewrite Nat.add_0_r, take_app_length, app_assoc, drop_app_length'
      by (rewrite length_app; simpl; lia).
    f_equal. apply IH; [done | simpl in *; lia].
Qed.

Lemma split_char_go_skip c w rest cur :
  c ∉ w -> split_char_go c (w ++ rest) cur = split_char_go c rest (cur ++ w).
Proof.
  revert cur. induction w as [|x w IH]; intros cur Hw; simpl; [by rewrite app_nil_r|].
  rewrite not_elem_of_cons in Hw. destruct Hw as [Hx Hw].
  rewrite decide_False by done. rewrite IH by done. by rewrite <- app_assoc.
Qed.

(** [split] by a character undoes [join_with] for non-empty words. *)
Lemma split_char_join_with c ws :
  ws <> [] -> Forall (fun w => w <> [] /\ c ∉ w) ws -> split_char (join_with [c] ws) c = ws.
Proof.
  intros Hne Hall. unfold split_char.
  enough (H : forall cur, split_char_go c (join_with [c] ws) cur =
                match ws with [] => [] | w :: ws' => (cur ++ w) :: ws' end) by
    (rewrite H; by destruct ws).
  induction Hall as [|w ws [Hw Hc] Hall IH]; intros cur; [done|].
  destruct ws as [|w' ws].
  - simpl. rewrite <- (app_nil_r w), split_char_go_skip by done. simpl.
    rewrite app_nil_r. by destruct (cur ++ w) eqn:E; [apply app_eq_nil in E as [_ ->]|].
  - rewrite join_with_cons, split_char_go_skip by done. simpl.
    rewrite decide_True by done. f_equal. by rewrite IH.
Qed.

(** ** [to_string] and [stoi] are inverse on the range of [int] *)

Section Decimal.

Lemma size_nat_le a b : (a <= b)%N -> N.size_nat a <= N.size_nat b.
Proof.
  intros H. destruct a as [|p]; [simpl; lia|]. destruct b as [|q]; [lia|].
  simpl. destruct (Pos.lt_total p q) as [Hl|[->|Hl]].
  - by apply Pos.size_nat_monotone.
  - lia.
  - lia.
Qed.

Lemma size_nat_div10 n : (10 <= n)%N -> N.size_nat (n / 10)%N < N.size_nat n.
Proof.
  intros H.
  assert (Hd : (n / 10 <= N.div2 n)%N).
  { rewrite N.div2_div. apply N.div_le_compat_l. lia. }
  apply size_nat_le in Hd. enough (N.size_nat (N.div2 n) < N.size_nat n)%nat by lia.
  destruct n as [|[p|p|]]; simpl; lia.
Qed.

Lemma digit_char_val d : (d < 10)%N ->
  is_digit (digit_char d) = true /\ digit_val (digit_char d) = Z.of_N d.
Proof.
  intros H. unfold is_digit, digit_val, digit_char.
  rewrite N_ascii_embedding by lia. split; [|lia].
  apply andb_true_intro; split; apply Z.leb_le; lia.
Qed.

Lemma digits_value_snoc ds c :
  digits_value (ds ++ [c]) = (digits_value ds * 10 + digit_val c)%Z.
Proof. unfold digits_value. by rewrite fold_left_app. Qed.

Lemma print_N_fuel_spec f n :
  N.size_nat n < f ->
  Forall (fun c => is_digit c = true) (print_N_fuel f n) /\
  print_N_fuel f n <> [] /\
  digits_value (print_N_fuel f n) = Z.of_N n.
Proof.
  revert n. induction f as [|f IH]; intros n Hf; [lia|]. simpl.
  destruct (N.ltb_spec n 10) as [Hn|Hn].
  - destruct (digit_char_val n Hn) as [Hd Hv].
    split; [by constructor|]. split; [done|].
    unfold digits_value. simpl. rewrite Hv. lia.
  - pose proof (size_nat_div10 n Hn) as Hs.
    destruct (IH (n / 10)%N) as (Hall & Hne & Hval); [lia|].
    assert (Hm : (n mod 10 < 10)%N) by (apply N.mod_lt; lia).
    destruct (digit_char_val _ Hm) as [Hd Hv].
    split; [apply Forall_app; split; [done | by constructor]|].
    split; [by destruct (print_N_fuel f (n / 10)%N)|].
    rewrite digits_value_snoc, Hval, Hv.
    pose proof (N.div_mod n 10). lia.
Qed.

Lemma digit_not_space c : is_digit c = true -> is_space c = false.
Proof.
  intros Hd. unfold is_space. apply bool_decide_eq_false. intros Hin.
  repeat (apply elem_of_cons in Hin as [->|Hin]; [done|]).
  by apply not_elem_of_nil in Hin.
Qed.

Lemma take_while_all p s : Forall (fun c => p c = true) s -> take_while p s = s.
Proof. induction 1 as [|x s Hx _ IH]; simpl; [done|]. by rewrite Hx, IH. Qed.
End Decimal.

#[export] Hint Resolve digit_not_space : webserv.

(** [utils::stoi] reads back what [utils::to_string] printed, for every
    value that fits in an [int]. *)
Lemma stoi_to_string n def :
  (Z.of_N n <= int_max)%Z -> stoi (to_string n) def = Z.of_N n.
Proof.
  intros Hmax. unfold to_string.
  destruct (print_N_fuel_spec (S (N.size_nat n)) n) as (Hall & Hne & Hval); [lia|].
  destruct (print_N_fuel (S (N.size_nat n)) n) as [|c r] eqn:E; [done|].
  pose proof (Forall_inv Hall) as Hc. cbn beta in Hc.
  unfold stoi. simpl. rewrite (digit_not_space c Hc).
  rewrite decide_False by (intros ->; discriminate).
  rewrite decide_False by (intros ->; discriminate).
  rewrite take_while_all by done. rewrite Hval. unfold int_min.
  replace ((- 2 ^ 31 <=? Z.of_N n)%Z && (Z.of_N n <=? int_max)%Z) with true.
  - done.
  - symmetry. apply andb_true_intro. split; apply Z.leb_le; lia.
Qed.

(** [stoi] returns its fallback or a value of [int]. *)
Lemma stoi_range s d : stoi s d = d \/ (int_min <= stoi s d <= int_max)%Z.
Proof.
  unfold stoi. repeat case_match; try (left; reflexivity).
  all: match goal with
       | H : (_ && _) = true |- _ => apply andb_prop in H as [Hlo Hhi];
           apply Z.leb_le in Hlo, Hhi; right; lia
       end.
Qed.

Lemma stoi_to_string_witness : stoi (to_string 4096%N) (-1) = 4096%Z.
Proof. apply (stoi_to_string 4096%N (-1)). unfold int_max. lia. Defined.

Lemma split_fuel_enough_witness :
  split_fuel 50 (lit "a" ++ crlf ++ lit "b") crlf = split (lit "a" ++ crlf ++ lit "b") crlf.
Proof. apply split_fuel_enough; [discriminate | simpl; lia]. Defined.
