(* ===== verification/StdMap.v ===== *)
(** * StdMap: [std::map<K, V>] as a strictly sorted association list

    The sources keep all their tables in [std::map]: the request and
    response headers ([std::map<std::string, std::string>]), the
    descriptor tables of [WebServer] ([std::map<int, std::string>]), the
    status-phrase table and the location blocks of a server.  Iteration
    visits the keys in increasing order, and [generateResponse] emits the
    headers in that order, so the model keeps the order: a map is a list
    of pairs whose keys strictly increase ([sorted]).  The operations are
    the member functions the code calls: [find], [operator[]] used as an
    assignment ([assign]) or as a read that inserts a default
    ([subscript]), [insert] (which keeps an existing value) and [erase].
    [to_gmap] is the abstract view as a stdpp finite map; the operations
    refine [lookup], [insert] and [delete] on it. *)

From S2P Require Import Prelude.

(** The strict order [std::less<K>] of the keys. *)
Class KeyLt (K : Type) := key_ltb : K -> K -> bool.

Class KeyLtLaws (K : Type) `{KeyLt K} : Prop := {
  key_ltb_irrefl : forall k, key_ltb k k = false;
  key_ltb_trans : forall a b c, key_ltb a b = true -> key_ltb b c = true -> key_ltb a c = true;
  key_ltb_total : forall a b, key_ltb a b = false -> key_ltb b a = false -> a = b
}.

Module StdMap.
Section Ops.
Context {K V : Type} `{EqDecision K} `{KeyLt K}.

Definition t := list (K * V).

Definition empty : t := [].

(** [m.find(k)] *)
Fixpoint find (m : t) (k : K) : option V :=
  match m with
  | [] => None
  | (k', v) :: m' => if decide (k = k') then Some v else find m' k
  end.

(** [m[k] = v] *)
Fixpoint assign (m : t) (k : K) (v : V) : t :=
  match m with
  | [] => [(k, v)]
  | (k', v') :: m' =>
      if key_ltb k k' then (k, v) :: m
      else if key_ltb k' k then (k', v') :: assign m' k v
      else (k, v) :: m'
  end.

(** [m.insert(std::make_pair(k, v))]: does nothing when [k] is a key. *)
Definition insert (m : t) (k : K) (v : V) : t :=
  match find m k with Some _ => m | None => assign m k v end.

(** [m[k]] read: inserts a value-initialised [d] when [k] is absent. *)
Definition subscript (d : V) (m : t) (k : K) : V * t :=
  match find m k with Some v => (v, m) | None => (d, assign m k d) end.

(** [m.erase(k)] *)
Fixpoint erase (m : t) (k : K) : t :=
  match m with
  | [] => []
  | (k', v') :: m' => if decide (k = k') then m' else (k', v') :: erase m' k
  end.

Definition keys (m : t) : list K := map fst m.

(** The invariant of a red-black tree seen through its iteration order. *)
Fixpoint sorted (m : t) : bool :=
  match m with
  | (k1, _) :: (((k2, _) :: _) as m') => key_ltb k1 k2 && sorted m'
  | _ => true
  end.
End Ops.
End StdMap.

(** ** Key orders of the code: [std::string] and [int] *)

(** [std::string::compare]: lexicographic on the bytes as [unsigned char]. *)
Fixpoint str_ltb (a b : str) : bool :=
  match a, b with
  | [], _ :: _ => true
  | x :: a', y :: b' =>
      if decide (x = y) then str_ltb a' b' else (N_of_ascii x <? N_of_ascii y)%N
  | _, _ => false
  end.

#[export] Instance str_KeyLt : KeyLt str := str_ltb.
#[export] Instance Z_KeyLt : KeyLt Z := Z.ltb.

#[export] Instance str_KeyLtLaws : KeyLtLaws str.
Proof.
  split; unfold key_ltb, str_KeyLt.
  - intros k. induction k as [|x k IH]; simpl; [done|]. by rewrite decide_True.
  - intros a. induction a as [|x a IH]; intros [|y b] [|z c]; simpl; try done.
    intros H1 H2. repeat case_decide; subst; rewrite ?N.ltb_lt in *; try lia; try done; eauto.
  - intros a. induction a as [|x a IH]; intros [|y b]; simpl; try done.
    case_decide as Hxy; [subst; rewrite decide_True by done; intros; f_equal; eauto|].
    rewrite decide_False by congruence. intros H1 H2.
    rewrite N.ltb_ge in H1, H2. destruct Hxy.
    rewrite <- (ascii_N_embedding x), <- (ascii_N_embedding y). f_equal. lia.
Qed.

#[export] Instance Z_KeyLtLaws : KeyLtLaws Z.
Proof.
  split; unfold key_ltb, Z_KeyLt; intros *; rewrite ?Z.ltb_lt, ?Z.ltb_ge; lia.
Qed.

(** ** Laws of the map operations *)

Module StdMapFacts.
Import StdMap.
Section Facts.
Context {K V : Type} `{EqDecision K} `{KeyLt K} `{!KeyLtLaws K}.
Implicit Types (m : StdMap.t (K:=K) (V:=V)) (k : K) (v : V).

(** Every key of [m] is above [k]. *)
Definition above k m : Prop := Forall (fun p => key_ltb k p.1 = true) m.

Lemma key_ltb_neq a b : key_ltb a b = true -> a <> b.
Proof. intros Hl ->. by rewrite key_ltb_irrefl in Hl. Qed.

Lemma key_ltb_asym a b : key_ltb a b = true -> key_ltb b a = false.
Proof.
  intros Hab. destruct (key_ltb b a) eqn:Hba; [|done].
  pose proof (key_ltb_trans _ _ _ Hab Hba). by rewrite key_ltb_irrefl in *.
Qed.

Lemma sorted_cons_iff k v m :
  sorted ((k, v) :: m) = true <-> sorted m = true /\ above k m.
Proof.
  revert k v. induction m as [|[k' v'] m IH]; intros k v; simpl.
  - split; [intros; split; [done|constructor] | done].
  - rewrite andb_true_iff, (IH k' v'). split.
    + intros (Hlt & Hs & Ha). split; [done|]. constructor; [done|].
      eapply Forall_impl; [exact Ha|]. intros p Hp. by eapply key_ltb_trans.
    + intros [[Hs Ha] Hka]. apply Forall_cons in Hka as [Hk _]. done.
Qed.

Lemma find_above k m : above k m -> find m k = None.
Proof.
  induction 1 as [|[k' v'] m Hk _ IH]; simpl; [done|].
  rewrite decide_False; [done|]. intros ->. by rewrite key_ltb_irrefl in Hk.
Qed.

Lemma above_assign k0 k v m :
  key_ltb k0 k = true -> above k0 m -> above k0 (assign m k v).
Proof.
  intros Hk. unfold above. induction 1 as [|[k' v'] m Hk' Ha IH]; simpl.
  - by constructor.
  - destruct (key_ltb k k'); [constructor; [done | by constructor]|].
    destruct (key_ltb k' k); by constructor.
Qed.

Lemma above_erase k0 k m : above k0 m -> above k0 (erase m k).
Proof.
  induction 1 as [|[k' v'] m Hk' Ha IH]; simpl; [constructor|].
  case_decide; [done|]. by constructor.
Qed.

(** [m[k] = v] keeps the keys sorted. *)
Lemma sorted_assign m k v : sorted m = true -> sorted (assign m k v) = true.
Proof.
  induction m as [|[k' v'] m IH]; intros Hs; simpl; [done|].
  apply sorted_cons_iff in Hs as [Hs Ha].
  destruct (key_ltb k k') eqn:Hlt.
  - apply sorted_cons_iff. split; [by apply sorted_cons_iff|].
    constructor; [done|]. eapply Forall_impl; [exact Ha|].
    intros p Hp. by eapply key_ltb_trans.
  - destruct (key_ltb k' k) eqn:Hgt.
    + apply sorted_cons_iff. split; [by apply IH|]. by apply above_assign.
    + rewrite (key_ltb_total _ _ Hlt Hgt). by apply sorted_cons_iff.
Qed.

Lemma sorted_erase m k : sorted m = true -> sorted (erase m k) = true.
Proof.
  induction m as [|[k' v'] m IH]; intros Hs; simpl; [done|].
  apply sorted_cons_iff in Hs as [Hs Ha]. case_decide; [done|].
  apply sorted_cons_iff. split; [by apply IH|]. by apply above_erase.
Qed.

Lemma sorted_insert m k v : sorted m = true -> sorted (insert m k v) = true.
Proof. unfold insert. destruct (find m k); [done|]. apply sorted_assign. Qed.

Lemma find_assign m k v k' :
  find (assign m k v) k' = if decide (k' = k) then Some v else find m k'.
Proof.
  induction m as [|[k0 v0] m IH]; simpl; [done|].
  destruct (key_ltb k k0) eqn:Hlt; simpl; [done|].
  destruct (key_ltb k0 k) eqn:Hgt; simpl.
  - rewrite IH. repeat case_decide; subst; try done.
    by rewrite key_ltb_irrefl in Hgt.
  - pose proof (key_ltb_total _ _ Hlt Hgt) as ->. by repeat case_decide.
Qed.

Lemma find_erase m k k' : sorted m = true ->
  find (erase m k) k' = if decide (k' = k) then None else find m k'.
Proof.
  induction m as [|[k0 v0] m IH]; intros Hs; simpl; [by case_decide|].
  apply sorted_cons_iff in Hs as [Hs Ha].
  destruct (decide (k = k0)) as [->|Hk].
  - destruct (decide (k' = k0)) as [->|Hk']; [by apply find_above|].
    done.
  - simpl. rewrite IH by done.
    destruct (decide (k' = k)), (decide (k' = k0)); subst; done.
Qed.

Lemma find_insert m k v k' :
  find (insert m k v) k' =
    if decide (k' = k) then Some (default v (find m k)) else find m k'.
Proof.
  unfold insert. destruct (find m k) as [x|] eqn:E; simpl.
  - case_decide; subst; done.
  - apply find_assign.
Qed.

(** Assigning a missing key adds one entry, at its place in the order. *)
Lemma assign_fresh_perm m k v :
  find m k = None -> assign m k v ≡ₚ (k, v) :: m.
Proof.
  induction m as [|[k0 v0] m IH]; simpl; [done|].
  case_decide as Hk; [done|]. intros Hf.
  destruct (key_ltb k k0) eqn:Hlt; [done|].
  destruct (key_ltb k0 k) eqn:Hgt.
  - rewrite IH by done. constructor.
  - by pose proof (key_ltb_total _ _ Hlt Hgt).
Qed.

Lemma find_elem_of m k v : find m k = Some v -> (k, v) ∈ m.
Proof.
  induction m as [|[k0 v0] m IH]; simpl; [done|].
  case_decide as Hk; [intros [= ->]; subst; left|]. intros Hf. right. by apply IH.
Qed.

(** [m[k] = v; m[k] = w] is [m[k] = w]. *)
Lemma assign_assign m k v w : assign (assign m k v) k w = assign m k w.
Proof.
  induction m as [|[k0 v0] m IH]; simpl.
  - by rewrite key_ltb_irrefl.
  - destruct (key_ltb k k0) eqn:Hlt; simpl; rewrite ?key_ltb_irrefl; [done|].
    destruct (key_ltb k0 k) eqn:Hgt; simpl; rewrite ?Hlt, ?Hgt, ?IH, ?key_ltb_irrefl; done.
Qed.

(** In a sorted map, [m[k] = m.find(k)->second] changes nothing. *)
Lemma assign_found m k v : sorted m = true -> find m k = Some v -> assign m k v = m.
Proof.
  induction m as [|[k0 v0] m IH]; intros Hs Hf; [done|].
  apply sorted_cons_iff in Hs as [Hs Ha]. simpl in Hf |- *.
  case_decide as Hk; [subst; injection Hf as ->; by rewrite key_ltb_irrefl|].
  assert (Hlt : key_ltb k0 k = true).
  { apply find_elem_of in Hf. by eapply Forall_forall in Ha; [|exact Hf]. }
  rewrite (key_ltb_asym _ _ Hlt), Hlt. f_equal. by apply IH.
Qed.

Lemma subscript_spec d m k :
  subscript d m k = (default d (find m k), insert m k d).
Proof. unfold subscript, insert. by destruct (find m k). Qed.
End Facts.
End StdMapFacts.

#[export] Hint Resolve StdMapFacts.sorted_assign StdMapFacts.sorted_erase
  StdMapFacts.sorted_insert : webserv.

(** ** The abstract view: a finite map

    What [std::map] promises its clients is a finite map; [to_gmap]
    forgets the order, and every operation refines the corresponding
    [gmap] operation. *)

Module StdMapAbstract.
Import StdMap StdMapFacts.
Section Abstract.
Context {K V : Type} `{Countable K} `{KeyLt K} `{!KeyLtLaws K}.
Implicit Types (m : StdMap.t (K:=K) (V:=V)) (k : K) (v : V).

Definition to_gmap m : gmap K V := list_to_map m.

Lemma to_gmap_lookup m k : to_gmap m !! k = find m k.
Proof.
  unfold to_gmap. induction m as [|[k0 v0] m IH]; simpl; [apply lookup_empty|].
  rewrite lookup_insert. by case_decide; subst; [rewrite decide_True|rewrite decide_False].
Qed.

(** [m[k] = v] refines [<[k:=v]>] on the abstract map. *)
Theorem assign_refines m k v : to_gmap (assign m k v) = <[k:=v]> (to_gmap m).
Proof.
  apply map_eq. intros k'. rewrite to_gmap_lookup, find_assign, lookup_insert.
  case_decide; subst; [by rewrite decide_True | rewrite decide_False by done].
  by rewrite to_gmap_lookup.
Qed.

(** [m.erase(k)] refines [delete k] on a sorted map. *)
Lemma erase_refines m k : sorted m = true -> to_gmap (erase m k) = delete k (to_gmap m).
Proof.
  intros Hs. apply map_eq. intros k'. rewrite to_gmap_lookup, find_erase by done.
  rewrite lookup_delete. case_decide; subst; [by rewrite decide_True|].
  rewrite decide_False by done. by rewrite to_gmap_lookup.
Qed.

(** [m.insert(make_pair(k, v))] keeps an existing binding. *)
Lemma insert_refines m k v :
  to_gmap (insert m k v) = match find m k with Some _ => to_gmap m | None => <[k:=v]> (to_gmap m) end.
Proof. unfold insert. destruct (find m k); [done|]. apply assign_refines. Qed.
End Abstract.
End StdMapAbstract.
