(* ===== verification/Http.v ===== *)
(** * Http: request/response records and the ResponseBuilder

    [MethodIO::rInfo] (declared in [MethodIO.hpp], outside [src/]) is the
    record both for a parsed request ([rqi]) and for a response under
    construction ([rsi]).  This file models the fixed tables of
    [MethodIO.cpp] ([initErrCodeMessages], [initContentTypes]), the
    lookups [getMessage] and [getType], and the serializer
    [generateResponse]; it proves that a serialized response splits back
    into its head and its body at the first blank line. *)

From S2P Require Import Prelude Utils StdMap.

Abbreviation hmap := (StdMap.t (K:=str) (V:=str)).

(** [struct rInfo]: value-initialised fields ([exist = false], [code = 0]). *)
Record rInfo := mkInfo {
  request : list str;      (** the request line split on spaces *)
  headers : hmap;
  body : str;
  query : str;
  queryPath : str;
  path : str;
  port : str;
  exist : bool;
  code : Z
}.

Definition rInfo0 : rInfo := mkInfo [] [] [] [] [] [] [] false 0.

Definition set_request r x := mkInfo x r.(headers) r.(body) r.(query) r.(queryPath) r.(path) r.(port) r.(exist) r.(code).
Definition set_headers r x := mkInfo r.(request) x r.(body) r.(query) r.(queryPath) r.(path) r.(port) r.(exist) r.(code).
Definition set_body r x := mkInfo r.(request) r.(headers) x r.(query) r.(queryPath) r.(path) r.(port) r.(exist) r.(code).
Definition set_query r x := mkInfo r.(request) r.(headers) r.(body) x r.(queryPath) r.(path) r.(port) r.(exist) r.(code).
Definition set_queryPath r x := mkInfo r.(request) r.(headers) r.(body) r.(query) x r.(path) r.(port) r.(exist) r.(code).
Definition set_path r x := mkInfo r.(request) r.(headers) r.(body) r.(query) r.(queryPath) x r.(port) r.(exist) r.(code).
Definition set_port r x := mkInfo r.(request) r.(headers) r.(body) r.(query) r.(queryPath) r.(path) x r.(exist) r.(code).
Definition set_exist r x := mkInfo r.(request) r.(headers) r.(body) r.(query) r.(queryPath) r.(path) r.(port) x r.(code).
Definition set_code r x := mkInfo r.(request) r.(headers) r.(body) r.(query) r.(queryPath) r.(path) r.(port) r.(exist) x.

(** [rsi.headers[k] = v] *)
Definition set_header (r : rInfo) (k v : str) : rInfo :=
  set_headers r (StdMap.assign r.(headers) k v).

(** ** The status and content-type tables *)

Definition build_table {K} `{KeyLt K} (l : list (K * str)) : StdMap.t (K:=K) (V:=str) :=
  fold_left (fun m kv => StdMap.assign m kv.1 kv.2) l StdMap.empty.

(** [initErrCodeMessages]: [m[200] = "OK"; ...] *)
Definition errCodeMessages : StdMap.t (K:=Z) (V:=str) :=
  build_table
    [(200, lit "OK"); (201, lit "Created"); (204, lit "No Content");
     (301, lit "Moved Permanently"); (302, lit "Found"); (303, lit "See Other");
     (400, lit "Bad Request"); (403, lit "Forbidden"); (404, lit "Not Found");
     (405, lit "Method Not Allowed"); (408, lit "Request Timeout");
     (409, lit "Conflict"); (413, lit "Payload Too Large");
     (415, lit "Unsupported Media Type"); (500, lit "Internal Server Error")]%Z.

(** [initContentTypes]: [m["txt"] = "text/plain"; ...] *)
Definition contentTypes : hmap :=
  build_table
    [(lit "txt", lit "text/plain"); (lit "html", lit "text/html");
     (lit "css", lit "text/css"); (lit "js", lit "text/javascript");
     (lit "png", lit "image/png"); (lit "ico", lit "image/ico");
     (lit "cpp", lit "text/cpp")].

(** [MethodIO::getMessage]: the reason phrase, ["Undefined"] off the table. *)
Definition getMessage (c : Z) : str :=
  match StdMap.find errCodeMessages c with
  | Some v => v
  | None => lit "Undefined"
  end.

(** [MethodIO::getType]: [tokens[tokens.size() - 1]] reads out of bounds
    when [split] returns no token (an empty path): [None]. *)
Definition getType (p : str) : option str :=
  let tokens := split_char p "." in
  match last tokens with
  | None => None
  | Some e =>
      let extension := if decide (length tokens = 1) then lit "txt" else e in
      Some (match StdMap.find contentTypes extension with
            | Some t => t
            | None => lit "text/plain"
            end)
  end.

(** ** [MethodIO::generateResponse] *)

Definition header_line (kv : str * str) : str := kv.1 ++ lit ": " ++ kv.2.

(** Lines, each followed by CRLF. *)
Definition lines_block (ls : list str) : str := concat (map (fun l => l ++ crlf) ls).

Definition status_line (c : Z) : str := lit "HTTP/1.1 " ++ int_to_str c ++ [SP] ++ getMessage c.

(** [ss << "HTTP/1.1 " << code << " " << getMessage(code) << "\r\n";
     for (it = rsi.headers.begin(); ...) ss << it->first << ": " << it->second << "\r\n";
     ss << "\r\n" << rsi.body;]
    The headers come out in the iteration order of the [std::map]. *)
Definition generateResponse (c : Z) (rsi : rInfo) : str :=
  lines_block (status_line c :: map header_line rsi.(headers)) ++ crlf ++ rsi.(body).

(** ** The head of a response ends at its first blank line *)

Definition no_cr (s : str) : Prop := CR ∉ s.

Lemma find_sub_crlf2_skip l t :
  no_cr l -> find_sub crlf2 (l ++ t) = Nat.add (length l) <$> find_sub crlf2 t.
Proof.
  unfold no_cr. induction l as [|x l IH]; intros Hl; simpl.
  - by destruct (find_sub crlf2 t).
  - rewrite not_elem_of_cons in Hl. destruct Hl as [Hx Hl].
    rewrite decide_False by (intros [k Hk]; injection Hk; congruence).
    rewrite IH by done. by destruct (find_sub crlf2 t).
Qed.

Lemma find_sub_crlf2_next x t :
  x <> CR -> find_sub crlf2 (crlf ++ x :: t) = Nat.add 2 <$> find_sub crlf2 (x :: t).
Proof.
  intros Hx. cbn [crlf app]. rewrite !find_sub_cons.
  rewrite decide_False by (intros [k Hk]; injection Hk; congruence).
  rewrite decide_False by (intros [k Hk]; injection Hk; congruence).
  rewrite <- find_sub_cons. by destruct (find_sub crlf2 (x :: t)).
Qed.

Lemma lines_block_cons l ls : lines_block (l :: ls) = l ++ crlf ++ lines_block ls.
Proof. unfold lines_block. cbn [map concat]. by rewrite <- app_assoc. Qed.

Lemma length_lines_block ls :
  length (lines_block ls) = sum_list (map (fun l => length l + 2) ls).
Proof.
  induction ls as [|l ls IH]; [done|].
  rewrite lines_block_cons, !length_app, IH. simpl. lia.
Qed.

(** The first CRLFCRLF of [lines ++ CRLF ++ rest] is the one that ends the
    lines, when no line is empty or holds a CR. *)
Lemma lines_block_find ls rest :
  Forall (fun l => l <> [] /\ no_cr l) ls -> ls <> [] ->
  find_sub crlf2 (lines_block ls ++ crlf ++ rest) = Some (length (lines_block ls) - 2).
Proof.
  induction 1 as [|l ls [Hne Hl] Hall IH]; intros Hne0; [by destruct Hne0|].
  rewrite lines_block_cons, <- !app_assoc, find_sub_crlf2_skip by done.
  destruct ls as [|l' ls'].
  - change (lines_block []) with (@nil ascii). rewrite app_nil_l.
    rewrite (app_assoc crlf crlf rest). fold crlf2.
    rewrite find_sub_prefix. cbn. rewrite !length_app. simpl. f_equal. lia.
  - inversion Hall as [|? ? [Hne' Hl'] Hall']; subst.
    destruct l' as [|x l'']; [done|].
    rewrite lines_block_cons. rewrite <- !app_assoc. cbn [app].
    rewrite find_sub_crlf2_next by (intros ->; apply Hl'; left).
    replace (x :: l'' ++ crlf ++ lines_block ls' ++ crlf ++ rest)
      with (lines_block ((x :: l'') :: ls') ++ crlf ++ rest)
      by (rewrite lines_block_cons; by rewrite <- !app_assoc).
    rewrite IH by done. cbn [fmap option_fmap option_map]. f_equal.
    rewrite lines_block_cons. simpl. rewrite !length_app. simpl. rewrite !length_app. simpl. lia.
Qed.

Lemma splitPair_lines_block ls rest :
  Forall (fun l => l <> [] /\ no_cr l) ls -> ls <> [] ->
  (splitPair (lines_block ls ++ crlf ++ rest) crlf2).2 = rest.
Proof.
  intros Hall Hne. unfold splitPair. rewrite lines_block_find by done. cbn [snd].
  assert (length (lines_block ls) >= 2).
  { destruct ls as [|l ls]; [done|]. rewrite length_lines_block. simpl. lia. }
  rewrite app_assoc, drop_app_length'; [done|].
  rewrite length_app. cbn [length crlf2 crlf app]. lia.
Qed.

Lemma lines_block_join ls : ls <> [] -> lines_block ls = join_with crlf ls ++ crlf.
Proof.
  intros Hne. induction ls as [|l [|l' ls] IH]; [done| |].
  - unfold lines_block. simpl. by rewrite app_nil_r.
  - rewrite lines_block_cons, IH, join_with_cons by done. by rewrite <- !app_assoc.
Qed.

(** The head before the first CRLFCRLF is the lines joined by CRLF. *)
Lemma splitPair_lines_block_head ls rest :
  Forall (fun l => l <> [] /\ no_cr l) ls -> ls <> [] ->
  (splitPair (lines_block ls ++ crlf ++ rest) crlf2).1 = join_with crlf ls.
Proof.
  intros Hall Hne. unfold splitPair. rewrite lines_block_find by done. cbn [fst].
  rewrite lines_block_join, <- app_assoc by done.
  apply take_app_length'. rewrite length_app. simpl. lia.
Qed.

(** [no_cr] of a literal, by evaluation. *)
Ltac no_cr_lit := apply (bool_decide_eq_true_1 _); vm_compute; reflexivity.

Lemma no_cr_app a b : no_cr (a ++ b) <-> no_cr a /\ no_cr b.
Proof. unfold no_cr. rewrite elem_of_app. tauto. Qed.

Lemma no_cr_join_with sep ls : no_cr sep -> Forall no_cr ls -> no_cr (join_with sep ls).
Proof.
  intros Hs. induction ls as [|l [|l' ls] IH]; intros Hall; [apply not_elem_of_nil | by inversion Hall|].
  inversion Hall as [|? ? Hl Hall']; subst. rewrite join_with_cons, !no_cr_app. auto.
Qed.

Lemma no_cr_to_string n : no_cr (to_string n).
Proof.
  unfold to_string, no_cr.
  destruct (print_N_fuel_spec (S (N.size_nat n)) n) as [Hall _]; [lia|].
  intros Hin. rewrite Forall_forall in Hall. specialize (Hall _ Hin). done.
Qed.

Lemma no_cr_int_to_str z : no_cr (int_to_str z).
Proof.
  unfold int_to_str. destruct (z <? 0)%Z; [|apply no_cr_to_string].
  apply (no_cr_app ["-"%char]). split; [no_cr_lit | apply no_cr_to_string].
Qed.

Lemma errCodeMessages_no_cr : Forall (fun kv => no_cr kv.2) errCodeMessages.
Proof. no_cr_lit. Qed.

Lemma no_cr_getMessage c : no_cr (getMessage c).
Proof.
  unfold getMessage. destruct (StdMap.find errCodeMessages c) as [v|] eqn:E.
  - apply StdMapFacts.find_elem_of in E.
    pose proof errCodeMessages_no_cr as H. rewrite Forall_forall in H. apply (H _ E).
  - no_cr_lit.
Qed.

Definition headers_no_cr (m : hmap) : Prop := Forall (fun kv => no_cr kv.1 /\ no_cr kv.2) m.

Lemma response_lines_ok c (m : hmap) :
  headers_no_cr m ->
  Forall (fun l => l <> [] /\ no_cr l) (status_line c :: map header_line m).
Proof.
  intros Hm. constructor.
  - split; [done|]. unfold status_line. rewrite !no_cr_app.
    split; [no_cr_lit|]. split; [apply no_cr_int_to_str|]. split; [no_cr_lit|].
    apply no_cr_getMessage.
  - apply Forall_map. eapply Forall_impl; [exact Hm|]. intros [k v] [Hk Hv]; simpl in Hk, Hv.
    unfold header_line. cbn [fst snd]. split.
    + by intros [_ [? _]%app_eq_nil]%app_eq_nil.
    + rewrite !no_cr_app. repeat split; [done | no_cr_lit | done].
Qed.

(** C39: a serialized response splits back, at its first CRLFCRLF, into the
    status line with the header lines and exactly the body that was given
    to [generateResponse], whatever the body holds (when no header key or
    value contains a CR). *)
Theorem generateResponse_body c rsi :
  headers_no_cr rsi.(headers) ->
  (splitPair (generateResponse c rsi) crlf2).2 = rsi.(body).
Proof.
  intros H. unfold generateResponse.
  apply splitPair_lines_block; [by apply response_lines_ok | done].
Qed.

Definition sample_response : rInfo :=
  set_header (set_header (set_body rInfo0 (lit "a" ++ crlf2 ++ lit "b"))
    (lit "Date") (lit "Mon")) (lit "Content-Length") (lit "6").

Lemma generateResponse_body_witness :
  headers_no_cr sample_response.(headers) /\
  (splitPair (generateResponse 200 sample_response) crlf2).2 = lit "a" ++ crlf2 ++ lit "b".
Proof.
  assert (H : headers_no_cr sample_response.(headers)) by no_cr_lit.
  split; [exact H | exact (generateResponse_body 200 sample_response H)].
Defined.

(** [RequestException(msg, code)]: the only exception the pipeline catches. *)
Record RequestException := mkExc { exc_msg : str; exc_code : Z }.

Definition throwR {S A} (msg : string) (c : Z) : ST S RequestException A :=
  st_throw (mkExc (lit msg) c).
