(* ===== verification/Config.v ===== *)
(** * Config: server and location blocks (the RouteTable)

    The configuration parser (outside the core) produces a list of
    [ServerBlock]s.  Both [ServerBlock] and [LocationBlock] derive from
    [ABlock], which holds the settings common to both scopes; a server
    block adds its ports, its names and its location blocks, kept in a
    [std::map<std::string, LocationBlock>] ([src/includes/ServerBlock.hpp]).
    The bodies of [ABlock], [LocationBlock] and of the [ServerBlock]
    members are not part of [src/]: they are modelled from the spec
    (sections 3 and 4.3).  [getLocationBlockPair] is the longest-prefix
    match; it is proved to return the longest configured prefix. *)

From S2P Require Import Prelude Utils StdMap.

(** [ABlock]: root, index files, [client_max_body_size] (0 = unlimited),
    error pages, redirection ([(0, "")] when none) and allowed methods. *)
Record ABlock := mkABlock {
  root : str;
  index : list str;
  clientMaxBodySize : Z;
  errorPages : StdMap.t (K:=Z) (V:=str);
  redirection : Z * str;
  allowedMethods : list str
}.

Definition ABlock0 : ABlock := mkABlock [] [] 0 [] (0%Z, []) [].

Record ServerBlock := mkServer {
  sblock : ABlock;
  portsListeningOn : list str;
  serverName : list str;
  locationBlocks : StdMap.t (K:=str) (V:=ABlock)
}.

(** A default-constructed [ServerBlock]: empty root. *)
Definition ServerBlock0 : ServerBlock := mkServer ABlock0 [] [] [].

Definition addPortsListeningOn (s : ServerBlock) (p : str) : ServerBlock :=
  mkServer s.(sblock) (s.(portsListeningOn) ++ [p]) s.(serverName) s.(locationBlocks).

Definition addServerName (s : ServerBlock) (n : str) : ServerBlock :=
  mkServer s.(sblock) s.(portsListeningOn) (s.(serverName) ++ [n]) s.(locationBlocks).

Definition addLocationBlock (s : ServerBlock) (p : str) (l : ABlock) : ServerBlock :=
  mkServer s.(sblock) s.(portsListeningOn) s.(serverName)
    (StdMap.insert s.(locationBlocks) p l).

(** The location whose path is the longest prefix of [p], in one pass
    over the map. *)
Definition longest_prefix (locs : StdMap.t (K:=str) (V:=ABlock)) (p : str)
  : option (str * ABlock) :=
  fold_left
    (fun acc kv =>
       if decide (kv.1 `prefix_of` p) then
         match acc with
         | Some b => if decide (length b.1 < length kv.1) then Some kv else acc
         | None => Some kv
         end
       else acc)
    locs None.

(** [ServerBlock::getLocationBlockPair(basePath)]: the matched prefix and
    its location; the server scope under ["/"] when nothing matches. *)
Definition getLocationBlockPair (s : ServerBlock) (basePath : str) : str * ABlock :=
  match longest_prefix s.(locationBlocks) basePath with
  | Some kv => kv
  | None => (lit "/", s.(sblock))
  end.

(** ** Longest-prefix match *)

Section LongestPrefix.
Variable p : str.

Definition lp_step (acc : option (str * ABlock)) (kv : str * ABlock) :=
  if decide (kv.1 `prefix_of` p) then
    match acc with
    | Some b => if decide (length b.1 < length kv.1) then Some kv else acc
    | None => Some kv
    end
  else acc.

Lemma longest_prefix_fold locs : longest_prefix locs p = fold_left lp_step locs None.
Proof. reflexivity. Qed.

Lemma lp_fold_Some (locs : StdMap.t (K:=str) (V:=ABlock)) acc r :
  fold_left lp_step locs acc = Some r ->
  (acc = Some r \/ (r ∈ locs /\ r.1 `prefix_of` p)) /\
  (forall b, acc = Some b -> length b.1 <= length r.1) /\
  (forall kv, kv ∈ locs -> kv.1 `prefix_of` p -> length kv.1 <= length r.1).
Proof.
  revert acc. induction locs as [|kv locs IH]; intros acc H; simpl in H.
  - subst. split; [by left|]. split; [intros b [= ->]; lia|].
    intros kv Hin. by apply elem_of_nil in Hin.
  - destruct (IH _ H) as (Hwhere & Hacc & Hall). unfold lp_step in *.
    assert (Hin_r : forall x, x ∈ locs -> x ∈ kv :: locs) by (intros; by right).
    case_decide as Hp; [destruct acc as [b|]; [case_decide as Hlt|]|].
    + split; [destruct Hwhere as [[= ->]|[? ?]]; right; split; [left|done|auto|done]|].
      split; [intros b' [= <-]; specialize (Hacc kv eq_refl); lia|].
      intros kv' [->|Hin]%elem_of_cons; [intros _; apply (Hacc kv eq_refl)|by apply Hall].
    + split; [destruct Hwhere as [->|[? ?]]; [by left|right; split; auto]|].
      split; [done|]. intros kv' [->|Hin]%elem_of_cons; [|by apply Hall].
      intros _. specialize (Hacc b eq_refl). lia.
    + split; [destruct Hwhere as [[= ->]|[? ?]]; right; split; [left|done|auto|done]|].
      split; [done|].
      intros kv' [->|Hin]%elem_of_cons; [intros _; apply (Hacc kv eq_refl)|by apply Hall].
    + split; [destruct Hwhere as [->|[? ?]]; [by left|right; split; auto]|].
      split; [done|]. intros kv' [->|Hin]%elem_of_cons; [done|by apply Hall].
Qed.

Lemma lp_fold_None (locs : StdMap.t (K:=str) (V:=ABlock)) acc :
  fold_left lp_step locs acc = None ->
  acc = None /\ forall kv, kv ∈ locs -> ~ kv.1 `prefix_of` p.
Proof.
  revert acc. induction locs as [|kv locs IH]; intros acc H; simpl in H.
  - split; [done|]. intros kv Hin. by apply elem_of_nil in Hin.
  - destruct (IH _ H) as [Hacc Hall]. unfold lp_step in Hacc.
    case_decide as Hp; [destruct acc as [b|]; [case_decide|]; done|].
    split; [done|]. intros kv' [->|Hin]%elem_of_cons; [done|by apply Hall].
Qed.
End LongestPrefix.

(** [getLocationBlockPair] returns a configured location whose path is
    a prefix of the request path and no shorter than any other such path;
    when no configured path is a prefix, it returns the server scope under
    ["/"]. *)
Theorem getLocationBlockPair_longest s p k l :
  getLocationBlockPair s p = (k, l) ->
  ((k, l) ∈ s.(locationBlocks) /\ k `prefix_of` p /\
   forall k' l', (k', l') ∈ s.(locationBlocks) -> k' `prefix_of` p -> length k' <= length k)
  \/ (k = lit "/" /\ l = s.(sblock) /\
      forall k' l', (k', l') ∈ s.(locationBlocks) -> ~ k' `prefix_of` p).
Proof.
  unfold getLocationBlockPair. rewrite longest_prefix_fold.
  destruct (fold_left (lp_step p) s.(locationBlocks) None) as [[k0 l0]|] eqn:E;
    intros [= <- <-].
  - destruct (lp_fold_Some p _ _ _ E) as ([Hc|[Hin Hpr]] & _ & Hall); [done|].
    left. split; [done|]. split; [done|]. intros k' l' Hin'. apply (Hall (k', l') Hin').
  - destruct (lp_fold_None p _ _ E) as [_ Hall].
    right. repeat split. intros k' l' Hin'. apply (Hall (k', l') Hin').
Qed.

Definition sample_root : ABlock := mkABlock (lit "www") [lit "index.html"] 0 [] (0%Z, []) [lit "GET"].
Definition sample_images : ABlock := mkABlock (lit "img") [] 0 [] (0%Z, []) [lit "GET"].
Definition sample_server : ServerBlock :=
  mkServer sample_root [lit "8080"] [lit "localhost"]
    [(lit "/", sample_root); (lit "/images", sample_images)].

Lemma getLocationBlockPair_longest_witness :
  ((lit "/images", sample_images) ∈ sample_server.(locationBlocks) /\
   lit "/images" `prefix_of` lit "/images/a.png" /\
   forall k' l', (k', l') ∈ sample_server.(locationBlocks) ->
     k' `prefix_of` lit "/images/a.png" -> length k' <= length (lit "/images"))
  \/ (lit "/images" = lit "/" /\ sample_images = sample_server.(sblock) /\
      forall k' l', (k', l') ∈ sample_server.(locationBlocks) -> ~ k' `prefix_of` lit "/images/a.png").
Proof. apply (getLocationBlockPair_longest sample_server (lit "/images/a.png")). reflexivity. Defined.
