(* ===== verification/Request.v ===== *)
(** * Request: the MessageAssembler

    Two parsers read the raw bytes of a connection:
    - [WebServer::parseHeader] ([WebServer.cpp]) is used by the event loop
      to decide whether a message is complete; it never fails;
    - [MethodIO::tokenize] ([MethodIO.cpp]) fills the [rInfo] handed to
      the router; it throws 400 on an empty request line and reads
      [request[1]] without a bounds check.
    Both split at the first CRLFCRLF, split the head into lines, split the
    first line on spaces and insert each further line, split at its first
    [": "], into a [std::map] (the first occurrence of a key wins).
    The theorems: tokenize and parseHeader agree; the body is always the
    part after the first CRLFCRLF, also for POST; a well-formed request
    parses back into its parts; growing a buffer whose head is complete
    only grows the body. *)

From S2P Require Import Prelude Utils StdMap Http.

(** The header lines after the request line, inserted in order. *)
Definition insert_headers (m : hmap) (lines : list str) : hmap :=
  fold_left (fun m l => let kv := splitPair l (lit ": ") in StdMap.insert m kv.1 kv.2) lines m.

(** [WebServer::parseHeader(str)] *)
Definition parseHeader (s : str) : rInfo :=
  let headerBody := splitPair s crlf2 in
  let requestHeader := split headerBody.1 crlf in
  match requestHeader with
  | l0 :: rest =>
      set_body (set_headers (set_request rInfo0 (split_char l0 SP))
                            (insert_headers [] rest)) headerBody.2
  | [] => rInfo0   (* unreachable: [split] returns at least one piece *)
  end.

Abbreviation RqM := (ST rInfo RequestException).

(** [request[i]] of a [std::vector]: out of range is undefined behaviour. *)
Definition req_at (i : nat) : RqM str :=
  r <- st_get ;; st_lift "request[i] out of range" (r.(request) !! i).

(** [MethodIO::tokenize(s, rsi)] *)
Definition tokenize (s : str) : RqM unit :=
  let headerBody := splitPair s crlf2 in
  let requestHeader := split headerBody.1 crlf in
  match requestHeader with
  | [] => st_abort "requestHeader[0] out of range"
  | l0 :: rest =>
      st_modify (fun r => set_request r (split_char l0 SP)) ;;
      st_modify (fun r => set_headers r (insert_headers r.(headers) rest)) ;;
      r <- st_get ;;
      match r.(request) with
      | [] => throwR "Bad Request (Empty)" 400
      | m :: _ =>
          (if decide (m = lit "GET") then
             target <- req_at 1 ;;
             match find_char "?" target with
             | Some q =>
                 st_modify (fun r => set_query r (drop (S q) target)) ;;
                 st_modify (fun r => set_queryPath r (take q target))
             | None => st_modify (fun r => set_queryPath r target)
             end
           else if decide (m = lit "POST") then
             let queryBody := split s crlf in
             st_modify (fun r => set_body r headerBody.1) ;;
             st_modify (fun r => set_query r (default [] (last queryBody))) ;;
             target <- req_at 1 ;;
             st_modify (fun r => set_queryPath r target)
           else
             target <- req_at 1 ;;
             st_modify (fun r => set_queryPath r target)) ;;
          st_modify (fun r => set_body r headerBody.2)
      end
  end.

(** A request as a client writes it: the request line (method, target
    and version separated by single spaces), one [key: value] line per
    header, a blank line and the body.  This printer is not part of the
    sources; the round trip below says what the parsers recover. *)
Definition request_line (m t v : str) : str := join_with [SP] [m; t; v].

Definition print_request (m t v : str) (hs : list (str * str)) (b : str) : str :=
  lines_block (request_line m t v :: map header_line hs) ++ crlf ++ b.

(** ** Properties of the two parsers *)

Lemma split_fuel_cons n s d : split_fuel n s d <> [].
Proof. destruct n; simpl; [done|]. by destruct (find_sub d s). Qed.

Lemma split_cons s d : split s d <> [].
Proof. apply split_fuel_cons. Qed.

(** Unfold [tokenize] and run every branch to its end. *)
Ltac tokenize_run :=
  let H := fresh "H" in
  intros H; unfold tokenize, req_at, throwR in H; st_run.

(** C33: the body that [tokenize] stores is the part after the first
    CRLFCRLF for every method: the assignment of the head to the body in
    the POST branch is overwritten before [tokenize] returns. *)
Theorem tokenize_body s r0 r :
  tokenize s r0 = (Ret tt, r) -> r.(body) = (splitPair s crlf2).2.
Proof. tokenize_run; done. Qed.

(** C32: when [tokenize] succeeds on a fresh [rInfo], it has the same request
    line, headers and body as the [parseHeader] the event loop uses. *)
Theorem tokenize_parseHeader s r :
  tokenize s rInfo0 = (Ret tt, r) ->
  r.(request) = (parseHeader s).(request) /\
  r.(headers) = (parseHeader s).(headers) /\
  r.(body) = (parseHeader s).(body).
Proof. unfold parseHeader. tokenize_run; done. Qed.

(** Once the buffer holds a CRLFCRLF, more bytes only extend the body. *)
Lemma parseHeader_app s t i :
  find_sub crlf2 s = Some i ->
  parseHeader (s ++ t) = set_body (parseHeader s) ((parseHeader s).(body) ++ t).
Proof.
  intros H. unfold parseHeader. rewrite (splitPair_app_l s t crlf2 i H).
  unfold splitPair. rewrite H. simpl.
  destruct (split (take i s) crlf) eqn:E; [by apply split_cons in E | reflexivity].
Qed.

(** ** The parsers at concrete requests *)

Definition post_sample : str :=
  lit "POST /up HTTP/1.1" ++ crlf ++ lit "Content-Length: 3" ++ crlf2 ++ lit "abc".

Definition get_sample : str :=
  lit "GET /a?x=1 HTTP/1.1" ++ crlf ++ lit "Host: localhost:8080" ++ crlf2.

(** ** The parse of a printed request *)

Lemma splitPair_header_line k v :
  ":"%char ∉ k -> splitPair (header_line (k, v)) (lit ": ") = (k, v).
Proof.
  intros Hk. unfold header_line, splitPair. cbn [fst snd].
  change (lit ": ") with [":"%char; " "%char].
  rewrite find_sub_skip, find_sub_prefix by done. cbn [fmap option_fmap option_map].
  rewrite Nat.add_0_r, take_app_length, app_assoc, drop_app_length'; [done|].
  rewrite length_app. done.
Qed.

(** Inserting pairs in order into a [std::map]: the first value of a
    key wins, as in stdpp's [list_to_map]. *)
Lemma find_insert_pairs (m : hmap) hs k :
  StdMap.find (fold_left (fun m kv => StdMap.insert m kv.1 kv.2) hs m) k =
    match StdMap.find m k with Some v => Some v | None => (list_to_map hs : gmap str str) !! k end.
Proof.
  revert m. induction hs as [|[k' v'] hs IH]; intros m; simpl.
  - by destruct (StdMap.find m k).
  - rewrite IH, StdMapFacts.find_insert. case_decide as Hk.
    + subst. destruct (StdMap.find m k'); simpl; [done|]. by rewrite lookup_insert_eq.
    + destruct (StdMap.find m k); [done|]. by rewrite lookup_insert_ne by congruence.
Qed.

Lemma insert_headers_lines m hs :
  Forall (fun kv => ":"%char ∉ kv.1) hs ->
  insert_headers m (map header_line hs) = fold_left (fun m kv => StdMap.insert m kv.1 kv.2) hs m.
Proof.
  intros Hall. revert m. induction Hall as [|[k v] hs Hk Hall IH]; intros m; [done|].
  simpl. rewrite splitPair_header_line by done. apply IH.
Qed.

Lemma print_lines_ok m t v hs :
  Forall (fun w => w <> [] /\ (SP ∉ w) /\ no_cr w) [m; t; v] ->
  Forall (fun kv => (":"%char ∉ kv.1) /\ no_cr kv.1 /\ no_cr kv.2) hs ->
  Forall (fun l => l <> [] /\ no_cr l) (request_line m t v :: map header_line hs).
Proof.
  intros Hw Hh. constructor.
  - split; [by inversion Hw as [|? ? [? _]]; destruct m|].
    apply no_cr_join_with; [by no_cr_lit|]. eapply Forall_impl; [done|]. by intros w (_ & _ & ?).
  - apply Forall_map. eapply Forall_impl; [done|]. intros [k' v'] (_ & Hk & Hv).
    unfold compose, header_line. cbn [fst snd]. split; [by destruct k'|].
    rewrite !no_cr_app. split; [done|]. split; [no_cr_lit|done].
Qed.

(** The pieces both parsers cut a printed request into: the body after
    the first CRLFCRLF, the lines of the head, the words of the request
    line. *)
Lemma print_request_head m t v hs b :
  Forall (fun w => w <> [] /\ (SP ∉ w) /\ no_cr w) [m; t; v] ->
  Forall (fun kv => (":"%char ∉ kv.1) /\ no_cr kv.1 /\ no_cr kv.2) hs ->
  (splitPair (print_request m t v hs b) crlf2).2 = b /\
  split (splitPair (print_request m t v hs b) crlf2).1 crlf = request_line m t v :: map header_line hs /\
  split_char (request_line m t v) SP = [m; t; v].
Proof.
  intros Hw Hh. pose proof (print_lines_ok _ _ _ _ Hw Hh) as Hl. unfold print_request.
  rewrite splitPair_lines_block_head, splitPair_lines_block by done. split; [done|]. split.
  - rewrite (split_join_with CR [LF]) by (done || (eapply Forall_impl; [done|]; by intros ? [_ ?])).
    done.
  - unfold request_line.
    rewrite split_char_join_with by (done || (eapply Forall_impl; [done|]; by intros w (? & ? & _))).
    done.
Qed.

(** [tokenize] on a printed GET request whose target has no ['?']. *)
Lemma tokenize_print_get t hs b :
  Forall (fun w => w <> [] /\ (SP ∉ w) /\ no_cr w) [lit "GET"; t; lit "HTTP/1.1"] ->
  Forall (fun kv => (":"%char ∉ kv.1) /\ no_cr kv.1 /\ no_cr kv.2) hs ->
  find_char "?" t = None ->
  tokenize (print_request (lit "GET") t (lit "HTTP/1.1") hs b) rInfo0 =
    (Ret tt, set_body (set_queryPath (set_headers (set_request rInfo0 [lit "GET"; t; lit "HTTP/1.1"])
                         (insert_headers [] (map header_line hs))) t) b).
Proof.
  intros Hw Hh Hq. destruct (print_request_head _ _ _ _ b Hw Hh) as (Hb & Hs & Hr).
  unfold tokenize. rewrite Hs, Hr, Hb. unfold req_at. st_unfold. simpl.
  rewrite Hq. reflexivity.
Qed.

(** C31: round trip.  A request printed from a method, a target and a
    version (non-empty, without space or CR), headers whose keys have no
    [':'] and no CR and whose values have no CR, and any body, is parsed
    by [parseHeader] back into the request line, into a header map that
    holds the first value given for each key, and into the body. *)
Theorem parseHeader_print m t v hs b :
  Forall (fun w => w <> [] /\ (SP ∉ w) /\ no_cr w) [m; t; v] ->
  Forall (fun kv => (":"%char ∉ kv.1) /\ no_cr kv.1 /\ no_cr kv.2) hs ->
  (parseHeader (print_request m t v hs b)).(request) = [m; t; v] /\
  (parseHeader (print_request m t v hs b)).(body) = b /\
  forall k, StdMap.find (parseHeader (print_request m t v hs b)).(headers) k =
              (list_to_map hs : gmap str str) !! k.
Proof.
  intros Hw Hh. destruct (print_request_head m t v hs b Hw Hh) as (Hb & Hs & Hr).
  unfold parseHeader. rewrite Hs. cbn [request body headers set_body set_headers set_request].
  split; [done|]. split; [done|]. intros k.
  rewrite insert_headers_lines by (eapply Forall_impl; [done|]; by intros kv (? & _)).
  by rewrite find_insert_pairs.
Qed.

Lemma tokenize_body_witness :
  (snd (tokenize post_sample rInfo0)).(body) = (splitPair post_sample crlf2).2.
Proof. apply (tokenize_body post_sample rInfo0). reflexivity. Defined.

Lemma tokenize_parseHeader_witness :
  (snd (tokenize get_sample rInfo0)).(request) = (parseHeader get_sample).(request) /\
  (snd (tokenize get_sample rInfo0)).(headers) = (parseHeader get_sample).(headers) /\
  (snd (tokenize get_sample rInfo0)).(body) = (parseHeader get_sample).(body).
Proof. apply (tokenize_parseHeader get_sample). reflexivity. Defined.

(** Two [Host] headers: the first one is kept. *)
Definition sample_headers : list (str * str) :=
  [(lit "Host", lit "localhost"); (lit "Accept", lit "*/*"); (lit "Host", lit "other")].

Lemma parseHeader_print_witness :
  (parseHeader (print_request (lit "GET") (lit "/a") (lit "HTTP/1.1") sample_headers (lit "xyz"))).(request)
    = [lit "GET"; lit "/a"; lit "HTTP/1.1"] /\
  (parseHeader (print_request (lit "GET") (lit "/a") (lit "HTTP/1.1") sample_headers (lit "xyz"))).(body)
    = lit "xyz" /\
  forall k, StdMap.find (parseHeader (print_request (lit "GET") (lit "/a") (lit "HTTP/1.1")
                                       sample_headers (lit "xyz"))).(headers) k =
            (list_to_map sample_headers : gmap str str) !! k.
Proof.
  apply parseHeader_print; unfold no_cr; apply (bool_decide_unpack _); vm_compute; reflexivity.
Defined.
