(* ===== verification/FileSystem.v ===== *)
(** * FileSystem: the POSIX calls the handlers make

    The handlers of [MethodIO.cpp] touch the disk through [access(path,
    F_OK | R_OK | W_OK)], [std::ifstream] (open and read everything),
    [std::ofstream] (open, which truncates, and write) and [std::remove].
    The disk is a finite map from canonical paths to entries; a path is
    made canonical the way the kernel resolves it: empty and ["."]
    components are dropped and [".."] removes the previous component.
    Reading a directory through an [ifstream] opens it and yields no
    bytes; opening a directory for writing fails; [remove] deletes a file
    or an empty directory when the directory that holds it is writable.  Permissions are one read and one write bit per
    entry (the process's view after its uid/gid check). *)

From S2P Require Import Prelude Utils.

Inductive kind := KFile | KDir.

Record entry := mkEntry { e_kind : kind; e_data : str; e_read : bool; e_write : bool }.

(** [true] for an absolute path, and its components. *)
Abbreviation fkey := (bool * list str)%type.
Abbreviation FS := (gmap fkey entry).

Fixpoint resolve (acc : list str) (comps : list str) : list str :=
  match comps with
  | [] => rev acc
  | c :: cs =>
      if decide (c = []) then resolve acc cs
      else if decide (c = lit ".") then resolve acc cs
      else if decide (c = lit "..") then
        match acc with
        | x :: acc' => if decide (x = lit "..") then resolve (c :: acc) cs else resolve acc' cs
        | [] => resolve [c] cs
        end
      else resolve (c :: acc) cs
  end.

Definition canon (p : str) : fkey :=
  (bool_decide (head p = Some "/"%char), resolve [] (split_char p "/")).

Section Calls.
Variable fs : FS.

(** [access(p, F_OK) == 0] *)
Definition f_exists (p : str) : bool := bool_decide (is_Some (fs !! canon p)).
(** [access(p, R_OK) == 0] and [access(p, W_OK) == 0] *)
Definition f_readable (p : str) : bool :=
  match fs !! canon p with Some e => e.(e_read) | None => false end.
Definition f_writable (p : str) : bool :=
  match fs !! canon p with Some e => e.(e_write) | None => false end.

(** [std::ifstream file(p); oss << file.rdbuf()]: [None] when the open
    fails, the bytes otherwise (none for a directory). *)
Definition f_read (p : str) : option str :=
  match fs !! canon p with
  | Some e => if e.(e_read) then Some (match e.(e_kind) with KFile => e.(e_data) | KDir => [] end)
              else None
  | None => None
  end.

(** [std::ofstream file(p); file << data] on an existing path. *)
Definition f_write (p : str) (data : str) : option FS :=
  match fs !! canon p with
  | Some e =>
      match e.(e_kind) with
      | KFile => if e.(e_write) then Some (<[canon p := mkEntry KFile data e.(e_read) true]> fs)
                 else None
      | KDir => None
      end
  | None => None
  end.

Definition has_child (k : fkey) : bool :=
  bool_decide (map_Exists (fun k' _ => k'.1 = k.1 /\ k.2 `prefix_of` k'.2 /\ k' <> k) fs).

(** The directory that holds an entry: its path without the last
    component. *)
Definition parent (k : fkey) : fkey := (k.1, removelast k.2).

(** [unlink(2)] and [rmdir(2)] need write permission on the directory
    that holds the entry; ["/"] and the working directory ([k.2 = []])
    are not entries of a directory, and a directory the disk does not
    hold cannot be written. *)
Definition dir_writable (k : fkey) : bool :=
  match k.2 with
  | [] => false
  | _ => match fs !! parent k with Some d => d.(e_write) | None => false end
  end.

(** [std::remove(p) == 0]: [unlink] for a file, [rmdir] for an empty
    directory, both refused ([-1]) when the holding directory is not
    writable. *)
Definition f_remove (p : str) : option FS :=
  match fs !! canon p with
  | Some e =>
      if negb (dir_writable (canon p)) then None
      else match e.(e_kind) with
           | KFile => Some (delete (canon p) fs)
           | KDir => if has_child (canon p) then None else Some (delete (canon p) fs)
           end
  | None => None
  end.
End Calls.

(** [access(p, W_OK) == 0] implies [access(p, F_OK) == 0]. *)
Lemma f_writable_exists fs p : f_writable fs p = true -> f_exists fs p = true.
Proof.
  unfold f_writable, f_exists. intros H. apply bool_decide_eq_true_2.
  destruct (fs !! canon p); [done | discriminate].
Qed.

(** A file that opens for reading passes [access(F_OK)] and [access(R_OK)]. *)
Lemma f_read_access fs p d :
  f_read fs p = Some d -> f_exists fs p = true /\ f_readable fs p = true.
Proof.
  unfold f_read, f_exists, f_readable. rewrite bool_decide_eq_true.
  destruct (fs !! canon p) as [e|]; [|discriminate]. by destruct (e_read e).
Qed.

(** [".."] after a plain directory name cancels it: [r/../rest] and
    [rest] name the same entry, when [r] is one component that is neither
    ["."] nor [".."] and [rest] is relative. *)
Lemma canon_parent r rest :
  r <> [] -> "/"%char ∉ r -> r <> lit "." -> r <> lit ".." -> head rest <> Some "/"%char ->
  canon (r ++ lit "/../" ++ rest) = canon rest.
Proof.
  intros Hne Hs Hd Hdd Hh. unfold canon. f_equal.
  - apply bool_decide_ext. destruct r as [|x r]; [done|]. simpl.
    split; [intros [= ->]; exfalso; apply Hs; left | intros E; by rewrite E in Hh].
  - unfold split_char. rewrite split_char_go_skip by done.
    change (lit "/../" ++ rest) with ("/"%char :: "."%char :: "."%char :: "/"%char :: rest).
    simpl. by rewrite !decide_False by done.
Qed.

(** An entry is not its own directory. *)
Lemma parent_ne (k : fkey) : k.2 <> [] -> parent k <> k.
Proof.
  destruct k as [b l]. unfold parent. simpl. intros Hl [= E].
  pose proof (f_equal length E) as E'. rewrite (app_removelast_last [] Hl) in E' at 2.
  rewrite length_app in E'. simpl in E'. lia.
Qed.

(** Writing an entry does not change whether its directory is writable. *)
Lemma dir_writable_insert fs k e : dir_writable (<[k := e]> fs) k = dir_writable fs k.
Proof.
  unfold dir_writable. destruct k.2 eqn:E; [done|].
  rewrite lookup_insert_ne; [done|]. apply not_eq_sym, parent_ne. by rewrite E.
Qed.
