(* ===== verification/Handlers.v ===== *)
(** * Handlers: the ActionDispatcher of [MethodIO.cpp]

    [readFile] (target resolution for GET and HEAD), [writeFile] (target
    resolution for POST and DELETE) and the four handlers [getMethod],
    [headMethod], [delMethod], [postMethod].  A handler runs in the
    exception monad of the prelude over [PState]: the request [rqi] and
    the response [rsi] it mutates by reference, the disk, and the server
    block chosen by the router ([block] of [getMessageToSend], which the
    [catch] reads).  The collaborators outside the core are parameters
    of the section: the CGI runner ([Cgi(...).runCgi()] and [getBody()]),
    the directory listing ([AutoIndex(path, queryPath).getBody()]) and
    the clock ([getDate()]).  The theorems: which operations keep the
    disk ([keeps_disk], proved by walking binds and branches with the
    [keeps] tactic), the GET of a file and of a CGI script, DELETE of a
    file and of a directory, HEAD of a redirection or a listing, and the
    unsanitised path that escapes the root. *)

From S2P Require Import Prelude Utils StdMap Http Config Request FileSystem.

Record PState := mkP { rq : rInfo; rs : rInfo; pfs : FS; blk : ServerBlock }.

Abbreviation PM := (ST PState RequestException).

Definition upd_rq (f : rInfo -> rInfo) : PM unit :=
  st_modify (fun p => mkP (f p.(rq)) p.(rs) p.(pfs) p.(blk)).
Definition upd_rs (f : rInfo -> rInfo) : PM unit :=
  st_modify (fun p => mkP p.(rq) (f p.(rs)) p.(pfs) p.(blk)).
Definition set_fs (fs : FS) : PM unit :=
  st_modify (fun p => mkP p.(rq) p.(rs) fs p.(blk)).
Definition set_blk (b : ServerBlock) : PM unit :=
  st_modify (fun p => mkP p.(rq) p.(rs) p.(pfs) b).

(** [rqi.request[i]] *)
Definition rq_at (i : nat) : PM str :=
  p <- st_get ;; st_lift "request[i] out of range" (p.(rq).(request) !! i).

(** Run a parser step on [rqi] alone. *)
Definition on_rq {A} (m : ST rInfo RequestException A) : PM A :=
  fun p => let '(o, r) := m p.(rq) in (o, mkP r p.(rs) p.(pfs) p.(blk)).

Definition is_script (ext : str) : bool :=
  bool_decide (ext = lit "py" \/ ext = lit "cgi").

Section Handlers.
(** [Cgi cgi(request, headers, path, body, query); cgi.runCgi(); cgi.getBody()] *)
Variable runCgi : list str -> hmap -> str -> str -> str -> Z * str.
(** [AutoIndex(path, queryPath).getBody()] *)
Variable autoIndex : str -> str -> str.

(** Run the CGI collaborator on the current request. *)
Definition cgi_call : PM (Z * str) :=
  p <- st_get ;;
  let r := p.(rq) in
  st_ret (runCgi r.(request) r.(headers) r.(path) r.(body) r.(query)).

(** The loop over the index files of [readFile]: the first one that
    opens; 403 for one that exists but is not readable. *)
Fixpoint try_index (root : str) (idx : list str) : PM (option str) :=
  match idx with
  | [] => st_ret None
  | f :: rest =>
      let fp := root ++ lit "/" ++ f in
      upd_rq (fun r => set_path r fp) ;;
      p <- st_get ;;
      if f_exists p.(pfs) fp && negb (f_readable p.(pfs) fp)
      then throwR "File read forbidden" 403
      else match f_read p.(pfs) fp with
           | Some c => st_ret (Some c)
           | None => try_index root rest
           end
  end.

(** What happens before the index loop: [inl b] is an early [return b],
    [inr (Some c)] a file opened and read, [inr None] no file open. *)
Definition open_direct (fpath pfx : str) : PM (str + option str) :=
  p <- st_get ;;
  if decide (p.(rq).(queryPath) <> pfx) then
    upd_rq (fun r => set_path r fpath) ;;
    if negb (f_exists p.(pfs) fpath) then throwR "File doesn't exist" 404
    else if negb (f_readable p.(pfs) fpath) then throwR "File read forbidden" 403
    else if is_script (ext_of fpath) then
      res <- cgi_call ;;
      if decide (res.1 = 200%Z) then upd_rq (fun r => set_exist r true) ;; st_ret (inl res.2)
      else throwR "Internal Server Error" 500
    else st_ret (inr (f_read p.(pfs) fpath))
  else st_ret (inr None).

(** [root + "/" + utils::splitPair(rqi.queryPath, blockPair.first).second]:
    the file a request path names under its location. *)
Definition target_path (loc : ABlock) (qp pfx : str) : str :=
  loc.(root) ++ lit "/" ++ (splitPair qp pfx).2.

(** [MethodIO::readFile(rqi, rsi, block)] *)
Definition readFile (block : ServerBlock) : PM str :=
  p <- st_get ;;
  let qp := p.(rq).(queryPath) in
  let '(pfx, loc) := getLocationBlockPair block qp in
  m <- rq_at 0 ;;
  if negb (vfind loc.(allowedMethods) m) then throwR "Method Not Allowed" 405 else
  let fpath := target_path loc qp pfx in
  upd_rs (fun r => set_code r 200) ;;
  let redir := loc.(redirection) in
  if decide (redir.1 <> 0%Z) then
    upd_rs (fun r => set_code (set_header r (lit "Location") redir.2) redir.1) ;;
    st_ret []
  else
    c <- st_lift "queryPath.at(): std::out_of_range" (last qp) ;;
    if decide (c = "/"%char /\ 1 < length qp) then
      upd_rs (fun r => set_header r (lit "Content-Type") (lit "text/html")) ;;
      st_ret (autoIndex fpath qp)
    else
      o <- open_direct fpath pfx ;;
      match o with
      | inl out => st_ret out
      | inr opened =>
          contents <- (match opened with
                       | Some c => st_ret c
                       | None =>
                           r <- try_index loc.(root) loc.(index) ;;
                           match r with
                           | Some c => st_ret c
                           | None => throwR "File doesn't exist" 404
                           end
                       end) ;;
          p' <- st_get ;;
          ct <- st_lift "getType: tokens[-1]" (getType p'.(rq).(path)) ;;
          upd_rs (fun r => set_header r (lit "Content-Type") ct) ;;
          st_ret contents
      end.

(** [MethodIO::writeFile(rqi, block, createNew)]; the loop over the index
    files is guarded by [&& false] in the source and never runs. *)
Definition writeFile (block : ServerBlock) (createNew : bool) : PM unit :=
  p <- st_get ;;
  let qp := p.(rq).(queryPath) in
  let '(pfx, loc) := getLocationBlockPair block qp in
  m <- rq_at 0 ;;
  if negb (vfind loc.(allowedMethods) m) then throwR "Method Not Allowed" 405 else
  upd_rq (fun r => set_exist r false) ;;
  target <- rq_at 1 ;;
  if decide (target <> pfx) then
    let fpath := lit "./" ++ target_path loc qp pfx in
    upd_rq (fun r => set_path r fpath) ;;
    let fs := p.(pfs) in
    if negb (f_exists fs fpath) && negb createNew then throwR "File doesn't exist" 404
    else if negb (f_writable fs fpath) then throwR "File write forbidden" 403
    else if f_exists fs fpath && createNew then upd_rq (fun r => set_exist r true)
    else match f_write fs fpath p.(rq).(body) with
         | Some fs' => set_fs fs'
         | None => throwR "Failed to create file." 403
         end
  else throwR "Failed to create file." 403.

(** [MethodIO::getMethod] *)
Definition getMethod (block : ServerBlock) : PM str :=
  b <- readFile block ;;
  upd_rs (fun r => set_body r b) ;;
  upd_rs (fun r => set_header r (lit "Content-Length") (to_string (N.of_nat (length b)))) ;;
  p <- st_get ;;
  if p.(rq).(exist) && is_script (ext_of p.(rq).(path)) then st_ret p.(rs).(body)
  else st_ret (generateResponse p.(rs).(code) p.(rs)).

(** [MethodIO::headMethod] *)
Definition headMethod (block : ServerBlock) : PM str :=
  b <- readFile block ;;
  p <- st_get ;;
  ct <- st_lift "getType: tokens[-1]" (getType p.(rq).(path)) ;;
  upd_rs (fun r => set_header r (lit "Content-Type") ct) ;;
  upd_rs (fun r => set_header r (lit "Content-Length") (to_string (N.of_nat (length b)))) ;;
  p' <- st_get ;;
  st_ret (generateResponse 200 p'.(rs)).

(** [MethodIO::delMethod] *)
Definition delMethod (block : ServerBlock) : PM str :=
  writeFile block false ;;
  p <- st_get ;;
  match f_remove p.(pfs) p.(rq).(path) with
  | None => throwR "Cannot Delete File" 403
  | Some fs' => set_fs fs' ;; st_ret (generateResponse 204 p.(rs))
  end.

(** [MethodIO::postMethod] *)
Definition postMethod (block : ServerBlock) : PM str :=
  writeFile block true ;;
  p <- st_get ;;
  if p.(rq).(exist) then
    let fp := p.(rq).(path) in
    ct <- st_lift "getType: tokens[-1]" (getType fp) ;;
    upd_rs (fun r => set_header r (lit "Content-Type") ct) ;;
    upd_rs (fun r => set_header r (lit "Content-Length")
                        (to_string (N.of_nat (length p.(rq).(query))))) ;;
    if bool_decide (is_Some (find_char "/" fp)) && bool_decide (ext_of fp = lit "py") then
      res <- cgi_call ;;
      if decide (res.1 = 200%Z) then
        upd_rq (fun r => set_exist r true) ;;
        upd_rs (fun r => set_body r res.2) ;;
        st_ret res.2
      else throwR "Internal Server Error" 500
    else p' <- st_get ;; st_ret (generateResponse 409 p'.(rs))
  else p' <- st_get ;; st_ret (generateResponse 200 p'.(rs)).

(** [initMethodsMap]: the dispatch table of [getMessageToSend]. *)
Definition methods : StdMap.t (K:=str) (V:=ServerBlock -> PM str) :=
  fold_left (fun m kv => StdMap.assign m kv.1 kv.2)
    [(lit "GET", getMethod); (lit "POST", postMethod);
     (lit "HEAD", headMethod); (lit "DELETE", delMethod)] StdMap.empty.
End Handlers.

(** ** Which operations leave the disk alone

    [keeps_disk m]: running [m] from any state, on any outcome, ends
    with the disk it started with.  The combinators keep the disk, and
    [keeps_disk] is closed under [st_bind]; [keeps] proves it of a
    handler by walking its binds and branches. *)

Definition keeps_disk {A} (m : PM A) : Prop := forall p, (m p).2.(pfs) = p.(pfs).

Section KeepsDisk.
Context {A B : Type}.

Lemma keeps_disk_ret (a : A) : keeps_disk (st_ret a).
Proof. done. Qed.
Lemma keeps_disk_get : keeps_disk st_get.
Proof. done. Qed.
Lemma keeps_disk_throwR msg c : keeps_disk (A:=A) (throwR msg c).
Proof. done. Qed.
Lemma keeps_disk_lift w (o : option A) : keeps_disk (st_lift w o).
Proof. by destruct o. Qed.
Lemma keeps_disk_upd_rq f : keeps_disk (upd_rq f).
Proof. done. Qed.
Lemma keeps_disk_upd_rs f : keeps_disk (upd_rs f).
Proof. done. Qed.
Lemma keeps_disk_set_blk b : keeps_disk (set_blk b).
Proof. done. Qed.
Lemma keeps_disk_on_rq (m : ST rInfo RequestException A) : keeps_disk (on_rq m).
Proof. intros p. unfold on_rq. by destruct (m (rq p)). Qed.

Lemma keeps_disk_bind (m : PM A) (k : A -> PM B) :
  keeps_disk m -> (forall a, keeps_disk (k a)) -> keeps_disk (st_bind m k).
Proof.
  intros Hm Hk p. unfold st_bind. specialize (Hm p).
  destruct (m p) as [[a| |] p']; simpl in *; rewrite ?Hk; done.
Qed.

Lemma keeps_disk_catch (m : PM A) (h : RequestException -> PM A) :
  keeps_disk m -> (forall e, keeps_disk (h e)) -> keeps_disk (st_catch m h).
Proof.
  intros Hm Hh p. unfold st_catch. specialize (Hm p).
  destruct (m p) as [[a| |] p']; simpl in *; rewrite ?Hh; done.
Qed.
End KeepsDisk.

Create HintDb keeps.
#[export] Hint Resolve keeps_disk_ret keeps_disk_get keeps_disk_throwR keeps_disk_lift
  keeps_disk_upd_rq keeps_disk_upd_rs keeps_disk_set_blk keeps_disk_on_rq : keeps.

Ltac keeps :=
  repeat first
    [ solve [eauto with keeps]
    | apply keeps_disk_bind; [|intros ?]
    | apply keeps_disk_catch; [|intros ?]
    | match goal with |- keeps_disk (match _ with _ => _ end) => case_match end ].

Section HandlersKeep.
Variable runCgi : list str -> hmap -> str -> str -> str -> Z * str.
Variable autoIndex : str -> str -> str.

Lemma cgi_call_keeps : keeps_disk (cgi_call runCgi).
Proof. unfold cgi_call. keeps. Qed.
#[local] Hint Resolve cgi_call_keeps : keeps.

Lemma try_index_keeps root idx : keeps_disk (try_index root idx).
Proof. induction idx; simpl; keeps. Qed.
#[local] Hint Resolve try_index_keeps : keeps.

Lemma readFile_keeps block : keeps_disk (readFile runCgi autoIndex block).
Proof. unfold readFile, open_direct, rq_at. keeps. Qed.
#[local] Hint Resolve readFile_keeps : keeps.

(** With [createNew] the write target must already exist, and then the
    body is not written: [writeFile] for POST never touches the disk. *)
Lemma writeFile_create_keeps block : keeps_disk (writeFile block true).
Proof.
  unfold writeFile, rq_at. keeps. exfalso.
  match goal with
  | Hw : negb (f_writable _ _) = false, He : f_exists _ _ && true = false |- _ =>
      apply negb_false_iff, f_writable_exists in Hw; rewrite Hw in He; discriminate
  end.
Qed.

Lemma getMethod_keeps block : keeps_disk (getMethod runCgi autoIndex block).
Proof. unfold getMethod. keeps. Qed.

Lemma headMethod_keeps block : keeps_disk (headMethod runCgi autoIndex block).
Proof. unfold headMethod. keeps. Qed.

(** POST never changes the disk, on any path: the write target of
    [writeFile(..., true)] must pass [access(W_OK)], so it exists, and an
    existing target is never written; a missing one is refused with 403. *)
Lemma postMethod_keeps block : keeps_disk (postMethod runCgi block).
Proof. unfold postMethod. pose proof writeFile_create_keeps. keeps. Qed.

(** The dispatch table, in the order of its keys. *)
Lemma methods_eq :
  methods runCgi autoIndex =
    [(lit "DELETE", delMethod); (lit "GET", getMethod runCgi autoIndex);
     (lit "HEAD", headMethod runCgi autoIndex); (lit "POST", postMethod runCgi)].
Proof. reflexivity. Qed.

(** Every handler of the dispatch table but DELETE's keeps the disk. *)
Lemma methods_keeps m h block :
  StdMap.find (methods runCgi autoIndex) m = Some h -> m <> lit "DELETE" ->
  keeps_disk (h block).
Proof.
  rewrite methods_eq. intros Hf Hm. simpl in Hf.
  pose proof getMethod_keeps. pose proof headMethod_keeps. pose proof postMethod_keeps.
  repeat (case_decide; simplify_eq); keeps.
Qed.
End HandlersKeep.

(** ** The GET of a static file *)

Section GetStatic.
Variable runCgi : list str -> hmap -> str -> str -> str -> Z * str.
Variable autoIndex : str -> str -> str.

(** The response [getMethod] builds for a file: status 200, its type,
    its bytes and their count, on top of the response so far. *)
Definition static_response (rs0 : rInfo) (ct data : str) : rInfo :=
  set_header (set_body (set_header (set_code rs0 200) (lit "Content-Type") ct) data)
    (lit "Content-Length") (to_string (N.of_nat (length data))).

(** [readFile] on a regular file: it answers the file's bytes, records
    the path in the request and the code and type in the response. *)
Lemma readFile_static block p pfx loc m c data ct :
  getLocationBlockPair block p.(rq).(queryPath) = (pfx, loc) ->
  p.(rq).(request) !! 0 = Some m -> vfind loc.(allowedMethods) m = true ->
  loc.(redirection).1 = 0%Z ->
  last p.(rq).(queryPath) = Some c -> c <> "/"%char ->
  p.(rq).(queryPath) <> pfx ->
  f_read p.(pfs) (target_path loc p.(rq).(queryPath) pfx) = Some data ->
  is_script (ext_of (target_path loc p.(rq).(queryPath) pfx)) = false ->
  getType (target_path loc p.(rq).(queryPath) pfx) = Some ct ->
  readFile runCgi autoIndex block p =
    (Ret data, mkP (set_path p.(rq) (target_path loc p.(rq).(queryPath) pfx))
                   (set_header (set_code p.(rs) 200) (lit "Content-Type") ct) p.(pfs) p.(blk)).
Proof.
  intros Hl Hm Ha Hr Hc Hc' Hq Hd Hs Ht.
  destruct (f_read_access _ _ _ Hd) as [He Hrd].
  unfold readFile, open_direct, rq_at, upd_rs, upd_rq. st_unfold. simpl.
  rewrite Hl, Hm. simpl. rewrite Ha. simpl. rewrite Hr, decide_False by auto. simpl.
  rewrite Hc. simpl. rewrite decide_False by (intros [? _]; done). simpl.
  rewrite decide_True by done. simpl. rewrite He, Hrd, Hs, Hd. simpl. rewrite Ht. reflexivity.
Qed.

(** GET of a regular file.  When the request path falls under a
    location that allows the method, has no redirection, does not end in
    ["/"] and is not the location itself, and the file it names opens,
    is not a script and has a content type, [getMethod] answers 200 with
    the file's bytes as body, its type and its length, and keeps the
    disk. *)
Theorem getMethod_static block p pfx loc m c data ct :
  getLocationBlockPair block p.(rq).(queryPath) = (pfx, loc) ->
  p.(rq).(request) !! 0 = Some m -> vfind loc.(allowedMethods) m = true ->
  loc.(redirection).1 = 0%Z ->
  last p.(rq).(queryPath) = Some c -> c <> "/"%char ->
  p.(rq).(queryPath) <> pfx ->
  f_read p.(pfs) (target_path loc p.(rq).(queryPath) pfx) = Some data ->
  is_script (ext_of (target_path loc p.(rq).(queryPath) pfx)) = false ->
  getType (target_path loc p.(rq).(queryPath) pfx) = Some ct ->
  exists p', getMethod runCgi autoIndex block p =
    (Ret (generateResponse 200 (static_response p.(rs) ct data)), p') /\ p'.(pfs) = p.(pfs).
Proof.
  intros Hl Hm Ha Hr Hc Hc' Hq Hd Hs Ht. unfold getMethod, st_bind at 1.
  rewrite (readFile_static block p pfx loc m c data ct) by done.
  unfold upd_rs. st_unfold. simpl. rewrite Hs, andb_false_r. eexists. split; reflexivity.
Qed.
(** C30: HEAD of a redirected location or of a directory listing kills
    the server.  In both cases [readFile] returns without setting
    [rqi.path], and [headMethod] calls [getType(rqi.path)] on the empty
    path: [split] gives no token and [tokens[tokens.size() - 1]] reads
    before the start of the vector. *)
Theorem headMethod_no_path_aborts block p pfx loc m :
  getLocationBlockPair block p.(rq).(queryPath) = (pfx, loc) ->
  p.(rq).(request) !! 0 = Some m -> vfind loc.(allowedMethods) m = true ->
  loc.(redirection).1 <> 0%Z \/
    (loc.(redirection).1 = 0%Z /\ last p.(rq).(queryPath) = Some "/"%char /\
     1 < length p.(rq).(queryPath)) ->
  p.(rq).(path) = [] ->
  exists w p', headMethod runCgi autoIndex block p = (Abort w, p').
Proof.
  intros Hl Hm Ha Hcase Hp.
  unfold headMethod, readFile, rq_at, upd_rs. st_unfold. simpl.
  rewrite Hl, Hm. simpl. rewrite Ha. simpl.
  destruct Hcase as [Hr | (Hr & Hc & Hlen)].
  - rewrite decide_True by done. simpl. rewrite Hp. simpl. eauto.
  - rewrite Hr, decide_False by auto. simpl.
    rewrite Hc. simpl. rewrite decide_True by auto. simpl. rewrite Hp. simpl. eauto.
Qed.

(** C17: GET of a CGI script.  When the file the request names is a
    readable [.py] or [.cgi] file and the CGI run exits with 200, its
    output is the whole answer, verbatim, without a status line; any
    other exit status throws 500. *)
Theorem getMethod_cgi block p pfx loc m c :
  getLocationBlockPair block p.(rq).(queryPath) = (pfx, loc) ->
  p.(rq).(request) !! 0 = Some m -> vfind loc.(allowedMethods) m = true ->
  loc.(redirection).1 = 0%Z ->
  last p.(rq).(queryPath) = Some c -> c <> "/"%char ->
  p.(rq).(queryPath) <> pfx ->
  f_exists p.(pfs) (target_path loc p.(rq).(queryPath) pfx) = true ->
  f_readable p.(pfs) (target_path loc p.(rq).(queryPath) pfx) = true ->
  is_script (ext_of (target_path loc p.(rq).(queryPath) pfx)) = true ->
  (getMethod runCgi autoIndex block p).1 =
    let res := runCgi p.(rq).(request) p.(rq).(headers) (target_path loc p.(rq).(queryPath) pfx)
                      p.(rq).(body) p.(rq).(query) in
    if decide (res.1 = 200%Z) then Ret res.2
    else Throw (mkExc (lit "Internal Server Error") 500).
Proof.
  intros Hl Hm Ha Hr Hc Hc' Hq He Hrd Hs.
  unfold getMethod, readFile, open_direct, cgi_call, rq_at, upd_rs, upd_rq. st_unfold. simpl.
  rewrite Hl, Hm. simpl. rewrite Ha. simpl. rewrite Hr, decide_False by auto. simpl.
  rewrite Hc. simpl. rewrite decide_False by (intros [? _]; done). simpl.
  rewrite decide_True by done. simpl. rewrite He, Hrd, Hs. simpl.
  destruct (runCgi _ _ _ _ _) as [z out]. simpl.
  destruct (decide (z = 200%Z)); simpl; [by rewrite Hs | done].
Qed.
End GetStatic.

(** A GET of [/index.html] on the sample server, whose [/] location has
    root [www]. *)
Definition index_disk : FS :=
  {[ canon (lit "www/index.html") := mkEntry KFile (lit "<h1>hi</h1>") true false ]}.

Definition get_index_state : PState :=
  mkP (set_queryPath (set_request rInfo0 [lit "GET"; lit "/index.html"; lit "HTTP/1.1"])
         (lit "/index.html"))
      rInfo0 index_disk ServerBlock0.

Lemma getMethod_static_witness :
  exists p', getMethod (fun _ _ _ _ _ => (200%Z, [])) (fun _ _ => []) sample_server get_index_state =
    (Ret (generateResponse 200 (static_response rInfo0 (lit "text/html") (lit "<h1>hi</h1>"))), p') /\
    p'.(pfs) = index_disk.
Proof.
  apply (getMethod_static _ _ sample_server get_index_state (lit "/") sample_root (lit "GET") "l"%char);
    try reflexivity; try discriminate; vm_compute; reflexivity.
Defined.

(** ** Path traversal *)

(** The target of [/../rest] under the location ["/"] is [root/../rest],
    which names the same entry as [rest] itself, outside the root
    directory. *)
Lemma target_path_parent loc rest :
  loc.(root) <> [] -> "/"%char ∉ loc.(root) -> loc.(root) <> lit "." -> loc.(root) <> lit ".." ->
  head rest <> Some "/"%char ->
  canon (target_path loc (lit "/../" ++ rest) (lit "/")) = canon rest.
Proof.
  intros. unfold target_path, splitPair. simpl.
  by rewrite <- (canon_parent loc.(root) rest).
Qed.

Section Traversal.
Variable runCgi : list str -> hmap -> str -> str -> str -> Z * str.
Variable autoIndex : str -> str -> str.

(** C18: the request path is not sanitised.  A GET of [/../rest] under
    the location ["/"] whose root is one plain directory name is answered
    200 with the bytes of the file [rest], which lies outside the root
    (next to it, in the server's working directory), whenever that file
    opens and is not a script; the disk is unchanged. *)
Theorem getMethod_escapes_root block p loc m c rest data ct :
  getLocationBlockPair block p.(rq).(queryPath) = (lit "/", loc) ->
  p.(rq).(queryPath) = lit "/../" ++ rest ->
  p.(rq).(request) !! 0 = Some m -> vfind loc.(allowedMethods) m = true ->
  loc.(redirection).1 = 0%Z ->
  loc.(root) <> [] -> "/"%char ∉ loc.(root) -> loc.(root) <> lit "." -> loc.(root) <> lit ".." ->
  head rest <> Some "/"%char -> last rest = Some c -> c <> "/"%char ->
  f_read p.(pfs) rest = Some data ->
  is_script (ext_of (target_path loc p.(rq).(queryPath) (lit "/"))) = false ->
  getType (target_path loc p.(rq).(queryPath) (lit "/")) = Some ct ->
  exists p', getMethod runCgi autoIndex block p =
    (Ret (generateResponse 200 (static_response p.(rs) ct data)), p') /\ p'.(pfs) = p.(pfs).
Proof.
  intros Hl Hq Hm Ha Hr H1 H2 H3 H4 Hh Hc Hc' Hd Hs Ht.
  destruct rest as [|x rest]; [done|].
  apply (getMethod_static runCgi autoIndex block p (lit "/") loc m c); try done.
  - rewrite Hq. by rewrite last_app_cons.
  - rewrite Hq. intros E. apply (f_equal length) in E. simpl in E. lia.
  - unfold f_read in *. rewrite Hq, target_path_parent by done. done.
Qed.
End Traversal.

(** ** DELETE *)

Section Delete.
Variables (block : ServerBlock) (p : PState) (pfx : str) (loc : ABlock) (m target : str).
Hypothesis Hl : getLocationBlockPair block p.(rq).(queryPath) = (pfx, loc).
Hypothesis Hm : p.(rq).(request) !! 0 = Some m.
Hypothesis Ha : vfind loc.(allowedMethods) m = true.
Hypothesis Ht : p.(rq).(request) !! 1 = Some target.
Hypothesis Hne : target <> pfx.

(** The path [writeFile] opens: [./root/rest]. *)
Definition del_path : str := lit "./" ++ target_path loc p.(rq).(queryPath) pfx.

(** For an existing writable target, [writeFile(..., false)] opens it for
    writing, which truncates it, and writes the request body. *)
Lemma writeFile_existing e :
  p.(pfs) !! canon del_path = Some e -> e.(e_write) = true ->
  writeFile block false p =
    let q fs := mkP (set_path (set_exist p.(rq) false) del_path) p.(rs) fs p.(blk) in
    match f_write p.(pfs) del_path p.(rq).(body) with
    | Some fs' => (Ret tt, q fs')
    | None => (Throw (mkExc (lit "Failed to create file.") 403), q p.(pfs))
    end.
Proof.
  intros He Hw. unfold writeFile, rq_at, upd_rq, set_fs. st_unfold. cbn -[lit target_path].
  rewrite Hl, Hm. cbn -[lit target_path]. rewrite Ha. cbn -[lit target_path].
  cbn -[lit target_path] in Ht. rewrite Ht. cbn -[lit target_path].
  rewrite decide_True by done. cbn -[lit target_path f_write].
  unfold f_exists, f_writable, del_path in *. rewrite He, Hw. cbn -[lit target_path f_write].
  by destruct (f_write _ _ _).
Qed.

(** C19: DELETE of a writable regular file.  When the location allows the
    method and the request target is not the location itself,
    [writeFile(..., false)] first opens the file for writing, which
    truncates it, and writes the request body into it; then [remove]
    runs.  When the directory that holds the file is writable, the file
    is gone and the answer is 204; otherwise [remove] fails and the
    answer is 403 [Cannot Delete File], with the file left holding the
    request body instead of its old contents. *)
Theorem delMethod_file d rd :
  p.(pfs) !! canon del_path = Some (mkEntry KFile d rd true) ->
  exists p',
    if dir_writable p.(pfs) (canon del_path)
    then (delMethod block p = (Ret (generateResponse 204 p.(rs)), p') /\
          p'.(pfs) = delete (canon del_path) p.(pfs))
    else (delMethod block p = (Throw (mkExc (lit "Cannot Delete File") 403), p') /\
          p'.(pfs) = <[canon del_path := mkEntry KFile p.(rq).(body) rd true]> p.(pfs)).
Proof.
  intros He. unfold delMethod. st_unfold. rewrite (writeFile_existing _ He) by done.
  unfold f_write. rewrite He. cbn -[lit target_path].
  unfold f_remove. rewrite lookup_insert_eq, dir_writable_insert. cbn -[lit target_path].
  destruct (dir_writable (pfs p) (canon del_path)); simpl; eexists; (split; [reflexivity|]);
    [apply delete_insert_eq | done].
Qed.

(** C20: DELETE never removes a directory: [writeFile] cannot open it for
    writing, so the request is refused with 403 before [remove] is
    called, and the disk is unchanged, even for an empty writable
    directory. *)
Theorem delMethod_dir_refused d rd :
  p.(pfs) !! canon del_path = Some (mkEntry KDir d rd true) ->
  exists p', delMethod block p = (Throw (mkExc (lit "Failed to create file.") 403), p') /\
    p'.(pfs) = p.(pfs).
Proof.
  intros He. unfold delMethod. st_unfold. rewrite (writeFile_existing _ He) by done.
  unfold f_write. rewrite He. eexists. split; reflexivity.
Qed.
End Delete.

(** A server whose only scope allows DELETE, and a DELETE of
    [/old.txt] (a file in a read-only directory) and of [/pics] (an
    empty directory). *)
Definition del_server : ServerBlock :=
  mkServer (mkABlock (lit "www") [] 0 [] (0%Z, []) [lit "DELETE"]) [lit "8080"] [lit "localhost"] [].

Definition del_state (target : str) (fs : FS) : PState :=
  mkP (set_queryPath (set_request rInfo0 [lit "DELETE"; target; lit "HTTP/1.1"]) target)
      rInfo0 fs ServerBlock0.

Definition pics_disk : FS :=
  {[ canon (lit "www/pics") := mkEntry KDir [] true true ]}.

(** [www] is read-only: [remove] fails after [old.txt] was emptied. *)
Definition ro_old_disk : FS :=
  {[ canon (lit "www") := mkEntry KDir [] true false;
     canon (lit "www/old.txt") := mkEntry KFile (lit "x") true true ]}.

Lemma delMethod_file_witness :
  exists p', delMethod del_server (del_state (lit "/old.txt") ro_old_disk) =
    (Throw (mkExc (lit "Cannot Delete File") 403), p') /\
    p'.(pfs) !! canon (lit "www/old.txt") = Some (mkEntry KFile [] true true).
Proof.
  destruct (delMethod_file del_server (del_state (lit "/old.txt") ro_old_disk) (lit "/")
              del_server.(sblock) (lit "DELETE") (lit "/old.txt") eq_refl eq_refl eq_refl eq_refl
              ltac:(discriminate) (lit "x") true ltac:(vm_compute; reflexivity)) as [p' H].
  revert H. match goal with |- (if ?c then _ else _) -> _ => replace c with false by (vm_compute; reflexivity) end.
  intros [E F]. exists p'. split; [exact E|]. rewrite F. vm_compute. reflexivity.
Defined.

Lemma delMethod_dir_refused_witness :
  exists p', delMethod del_server (del_state (lit "/pics") pics_disk) =
    (Throw (mkExc (lit "Failed to create file.") 403), p') /\ p'.(pfs) = pics_disk.
Proof.
  apply (delMethod_dir_refused del_server (del_state (lit "/pics") pics_disk) (lit "/")
           del_server.(sblock) (lit "DELETE") (lit "/pics") eq_refl eq_refl eq_refl eq_refl ltac:(discriminate)
           [] true eq_refl).
Defined.

Definition head_server : ServerBlock :=
  mkServer (mkABlock (lit "www") [] 0 [] (0%Z, []) [lit "HEAD"]) [lit "8080"] [lit "localhost"] [].

Definition head_dir_state : PState :=
  mkP (set_queryPath (set_request rInfo0 [lit "HEAD"; lit "/pics/"; lit "HTTP/1.1"]) (lit "/pics/"))
      rInfo0 pics_disk ServerBlock0.

Lemma headMethod_no_path_aborts_witness :
  exists w p', headMethod (fun _ _ _ _ _ => (200%Z, [])) (fun _ _ => []) head_server head_dir_state =
    (Abort w, p').
Proof.
  apply (headMethod_no_path_aborts _ _ head_server head_dir_state (lit "/") head_server.(sblock)
           (lit "HEAD")); try reflexivity. right. split; [done|]. split; [done|]. simpl. lia.
Defined.

(** A GET of [/run.py], a readable script; the CGI run prints [hi]. *)
Definition script_disk : FS :=
  {[ canon (lit "www/run.py") := mkEntry KFile (lit "print('hi')") true false ]}.

Definition get_script_state : PState :=
  mkP (set_queryPath (set_request rInfo0 [lit "GET"; lit "/run.py"; lit "HTTP/1.1"]) (lit "/run.py"))
      rInfo0 script_disk ServerBlock0.

Lemma getMethod_cgi_witness :
  (getMethod (fun _ _ _ _ _ => (200%Z, lit "hi")) (fun _ _ => []) sample_server get_script_state).1 =
    Ret (lit "hi").
Proof.
  rewrite (getMethod_cgi (fun _ _ _ _ _ => (200%Z, lit "hi")) (fun _ _ => []) sample_server
             get_script_state (lit "/") sample_root (lit "GET") "y"%char);
    try reflexivity; discriminate.
Defined.

(** A GET of [/../secret.txt] reads [secret.txt] beside [www]. *)
Definition secret_disk : FS :=
  {[ canon (lit "secret.txt") := mkEntry KFile (lit "top secret") true false ]}.

Definition get_secret_state : PState :=
  mkP (set_queryPath (set_request rInfo0 [lit "GET"; lit "/../secret.txt"; lit "HTTP/1.1"])
         (lit "/../secret.txt"))
      rInfo0 secret_disk ServerBlock0.

Lemma getMethod_escapes_root_witness :
  exists p', getMethod (fun _ _ _ _ _ => (200%Z, [])) (fun _ _ => []) sample_server get_secret_state =
    (Ret (generateResponse 200 (static_response rInfo0 (lit "text/plain") (lit "top secret"))), p') /\
    p'.(pfs) = secret_disk.
Proof.
  apply (getMethod_escapes_root _ _ sample_server get_secret_state sample_root (lit "GET") "t"%char
           (lit "secret.txt")); try reflexivity; try discriminate;
    try (apply (bool_decide_unpack _); vm_compute; reflexivity); vm_compute; reflexivity.
Defined.
