(* ===== verification/Pipeline.v ===== *)
(** * Pipeline: routing and the per-request [try]/[catch]

    [MethodIO::getServerBlock] selects the virtual host (first server
    whose ports contain the connection's port and whose names contain the
    [Host] header without its port), and [MethodIO::getMessageToSend]
    runs the whole request: tokenize, version check, routing, body-size
    limit, method dispatch, and, in the [catch], the error page of the
    selected server.  The state of [getMessageToSend] is a fresh
    [PState]: empty request and response, a default [ServerBlock], and the
    disk.  The theorems: only DELETE writes the disk; the limit is checked
    before any handler and its cast wraps; unknown hosts and other
    versions get bare status lines; error pages; and the requests that
    kill the server (a two-word request line, a [?x] target). *)

From S2P Require Import Prelude Utils StdMap Http Config Request FileSystem Handlers.

(** [utils::splitPair(rqi.headers["Host"], ":").first]: the host name of
    the [Host] header, [""] when there is none. *)
Definition host_of (r : rInfo) : str :=
  (splitPair (StdMap.subscript [] r.(headers) (lit "Host")).1 (lit ":")).1.

(** The condition of the loop of [getServerBlock]. *)
Definition server_matches (r : rInfo) (s : ServerBlock) : Prop :=
  vfind s.(portsListeningOn) r.(port) = true /\ vfind s.(serverName) (host_of r) = true.
#[export] Instance server_matches_dec r s : Decision (server_matches r s).
Proof. unfold server_matches. apply _. Defined.
#[export] Typeclasses Opaque server_matches.

(** [MethodIO::getServerBlock(rqi, ws)]: the first matching server.
    [rqi.headers["Host"]] inserts an empty [Host] header when there is
    none. *)
Definition getServerBlock (servers : list ServerBlock) : PM ServerBlock :=
  p <- st_get ;;
  let r := p.(rq) in
  upd_rq (fun r => set_headers r (StdMap.subscript [] r.(headers) (lit "Host")).2) ;;
  match list_find (server_matches r) servers with
  | Some (_, s) => st_ret s
  | None => throwR "Location not defined in config" 404
  end.

(** [block.getClientMaxBodySize() < (int)requestInfo.body.size() &&
    block.getClientMaxBodySize() != 0]: the size is cast to [int]. *)
Definition too_large (maxb size : Z) : bool :=
  bool_decide (maxb < to_int size /\ maxb <> 0)%Z.

(** The locals of [getMessageToSend] when the [try] starts. *)
Definition pstate0 (fs : FS) : PState := mkP rInfo0 rInfo0 fs ServerBlock0.

Section Pipeline.
Variable runCgi : list str -> hmap -> str -> str -> str -> Z * str.
Variable autoIndex : str -> str -> str.
(** [MethodIO::getDate()] *)
Variable date : str.
Variable servers : list ServerBlock.

(** The [try] block after the router: the body-size limit and the
    dispatch on the method. *)
Definition dispatch (block : ServerBlock) : PM str :=
  p <- st_get ;;
  if too_large block.(sblock).(clientMaxBodySize) (Z.of_nat (length p.(rq).(body)))
  then throwR "Payload Too Large" 413
  else
    m <- rq_at 0 ;;
    upd_rs (fun r => set_header r (lit "Date") date) ;;
    match StdMap.find (methods runCgi autoIndex) m with
    | Some handler => handler block
    | None => throwR "Method Not Allowed" 405
    end.

(** The body of the [try]. *)
Definition serve (raw port : str) : PM str :=
  on_rq (tokenize raw) ;;
  version <- rq_at 2 ;;
  if decide (version <> lit "HTTP/1.1") then
    p <- st_get ;; st_ret (generateResponse 400 p.(rs))
  else
    upd_rq (fun r => set_port r port) ;;
    block <- getServerBlock servers ;;
    set_blk block ;;
    dispatch block.

(** [block.getRootDirectory() + "/" + block.getErrorPages()[code]] *)
Definition error_path (block : ServerBlock) (page : str) : str :=
  block.(sblock).(root) ++ lit "/" ++ page.

(** The [catch (RequestException &e)] block. *)
Definition on_error (e : RequestException) : PM str :=
  let c := e.(exc_code) in
  (* [errCodeMessages.find(code)->second] in the log line *)
  _ <- st_lift "errCodeMessages.find(code) == end()" (StdMap.find errCodeMessages c) ;;
  p <- st_get ;;
  let block := p.(blk) in
  if decide (block.(sblock).(root) = []) then st_ret (generateResponse c p.(rs))
  else
    let page := fst (StdMap.subscript [] block.(sblock).(errorPages) c) in
    let fp := error_path block page in
    let b := default [] (f_read p.(pfs) fp) in
    upd_rs (fun r => set_body r b) ;;
    ct <- st_lift "getType: tokens[-1]" (getType fp) ;;
    upd_rs (fun r => set_header r (lit "Content-Type") ct) ;;
    upd_rs (fun r => set_header r (lit "Content-Length") (to_string (N.of_nat (length b)))) ;;
    p' <- st_get ;;
    st_ret (generateResponse c p'.(rs)).

(** [MethodIO::getMessageToSend(ws, port)] on [receivedRaw]: the bytes
    to send (or [None] when the process dies) and the disk after. *)
Definition getMessageToSend (raw port : str) (fs : FS) : option str * FS :=
  let '(o, p) := st_catch (serve raw port) on_error (pstate0 fs) in
  match o with
  | Ret out => (Some out, p.(pfs))
  | _ => (None, p.(pfs))
  end.
End Pipeline.

(** ** Properties of the request pipeline *)

Section PipelineProps.
Variable runCgi : list str -> hmap -> str -> str -> str -> Z * str.
Variable autoIndex : str -> str -> str.
Variable date : str.
Variable servers : list ServerBlock.

(** The request after the router: the connection's port is stored and a
    missing [Host] header has been inserted empty. *)
Definition routed (r : rInfo) (port : str) : rInfo :=
  let r1 := set_port r port in set_headers r1 (StdMap.subscript [] r1.(headers) (lit "Host")).2.

(** A request that parses, is HTTP/1.1 and is routed to server [s] runs
    [dispatch s] on the routed request, with an empty response. *)
Lemma serve_routed raw port fs r j s :
  tokenize raw rInfo0 = (Ret tt, r) ->
  r.(request) !! 2 = Some (lit "HTTP/1.1") ->
  list_find (server_matches (set_port r port)) servers = Some (j, s) ->
  serve runCgi autoIndex date servers raw port (pstate0 fs) =
    dispatch runCgi autoIndex date s (mkP (routed r port) rInfo0 fs s).
Proof.
  intros Ht Hv Hs. unfold serve, on_rq, rq_at, getServerBlock, upd_rq, set_blk.
  st_unfold. simpl. rewrite Ht. simpl. rewrite Hv. simpl.
  rewrite Hs. reflexivity.
Qed.

(** Only the DELETE handler writes: [dispatch] keeps the disk for any
    other method. *)
Lemma dispatch_keeps block p :
  p.(rq).(request) !! 0 <> Some (lit "DELETE") ->
  (dispatch runCgi autoIndex date block p).2.(pfs) = p.(pfs).
Proof.
  intros Hm. unfold dispatch, rq_at, upd_rs. st_unfold. cbn -[methods].
  case_match; [done|]. destruct (request (rq p) !! 0) as [m|] eqn:E; cbn -[methods]; [|done].
  destruct (StdMap.find (methods runCgi autoIndex) m) eqn:Hf; cbn -[methods]; [|done].
  rewrite (methods_keeps runCgi autoIndex m _ block Hf); [done | congruence].
Qed.

Lemma on_error_keeps e : keeps_disk (on_error e).
Proof. unfold on_error. keeps. Qed.

Lemma serve_keeps raw port fs :
  (snd (tokenize raw rInfo0)).(request) !! 0 <> Some (lit "DELETE") ->
  (serve runCgi autoIndex date servers raw port (pstate0 fs)).2.(pfs) = fs.
Proof.
  intros Hm. unfold serve, on_rq, rq_at, upd_rq, getServerBlock, set_blk. st_unfold. simpl.
  destruct (tokenize raw rInfo0) as [[[]| |] r] eqn:Ht; simpl in *; try done.
  destruct (request r !! 2); simpl; [|done]. case_decide; simpl; [done|].
  destruct (list_find _ servers) as [[? s]|]; simpl; [|done].
  by apply dispatch_keeps.
Qed.

(** The response the [catch] builds around an error page. *)
Definition error_response (rs0 : rInfo) (ct data : str) : rInfo :=
  set_header (set_header (set_body rs0 data) (lit "Content-Type") ct)
    (lit "Content-Length") (to_string (N.of_nat (length data))).

(** C34: error pages.  When the chosen server has a root directory and an
    error page for the code, and the page opens and has a type, the
    [catch] answers with the code, the page as body, its type and its
    length, on top of the response built so far; the disk and the
    request are unchanged. *)
Theorem on_error_page e p msg page data ct :
  StdMap.find errCodeMessages e.(exc_code) = Some msg ->
  p.(blk).(sblock).(root) <> [] ->
  StdMap.find p.(blk).(sblock).(errorPages) e.(exc_code) = Some page ->
  f_read p.(pfs) (error_path p.(blk) page) = Some data ->
  getType (error_path p.(blk) page) = Some ct ->
  on_error e p =
    (Ret (generateResponse e.(exc_code) (error_response p.(rs) ct data)),
     mkP p.(rq) (error_response p.(rs) ct data) p.(pfs) p.(blk)).
Proof.
  intros Hm Hr Hp Hd Ht. unfold on_error, upd_rs. st_unfold. rewrite Hm. cbn -[error_path].
  rewrite decide_False by done. unfold StdMap.subscript. rewrite Hp. cbn -[error_path].
  rewrite Hd, Ht. reflexivity.
Qed.

(** No server matches: the router throws 404 before any server is chosen. *)
Lemma serve_unrouted raw port fs r :
  tokenize raw rInfo0 = (Ret tt, r) ->
  r.(request) !! 2 = Some (lit "HTTP/1.1") ->
  Forall (fun s => ~ server_matches (set_port r port) s) servers ->
  serve runCgi autoIndex date servers raw port (pstate0 fs) =
    (Throw (mkExc (lit "Location not defined in config") 404), mkP (routed r port) rInfo0 fs ServerBlock0).
Proof.
  intros Ht Hv Hs. apply (list_find_None (server_matches (set_port r port))) in Hs. unfold serve, on_rq, rq_at, getServerBlock, upd_rq, set_blk.
  st_unfold. simpl. rewrite Ht. simpl. rewrite Hv. simpl. rewrite Hs. reflexivity.
Qed.

(** C35: a request for a port and host that no server of the configuration
    serves is answered by the bare status line [404 Not Found] with no
    header and no body (the [catch] finds no root directory, since no
    block was chosen), and the disk is untouched. *)
Theorem getMessageToSend_no_server raw port fs r :
  tokenize raw rInfo0 = (Ret tt, r) ->
  r.(request) !! 2 = Some (lit "HTTP/1.1") ->
  Forall (fun s => ~ server_matches (set_port r port) s) servers ->
  getMessageToSend runCgi autoIndex date servers raw port fs =
    (Some (lit "HTTP/1.1 404 Not Found" ++ crlf ++ crlf), fs).
Proof.
  intros Ht Hv Hs. unfold getMessageToSend, st_catch.
  rewrite (serve_unrouted _ _ _ _ Ht Hv Hs). reflexivity.
Qed.

(** C36: the body-size limit is checked before the method runs: a request
    routed to a server whose [client_max_body_size] it exceeds throws 413
    with the disk untouched and the response still empty. *)
Theorem serve_payload_too_large raw port fs r j s :
  tokenize raw rInfo0 = (Ret tt, r) ->
  r.(request) !! 2 = Some (lit "HTTP/1.1") ->
  list_find (server_matches (set_port r port)) servers = Some (j, s) ->
  too_large s.(sblock).(clientMaxBodySize) (Z.of_nat (length r.(body))) = true ->
  serve runCgi autoIndex date servers raw port (pstate0 fs) =
    (Throw (mkExc (lit "Payload Too Large") 413), mkP (routed r port) rInfo0 fs s).
Proof.
  intros Ht Hv Hs Hl. rewrite (serve_routed raw port fs r j s Ht Hv Hs).
  unfold dispatch. st_unfold. simpl. by rewrite Hl.
Qed.
(** C16: only a DELETE request changes the disk: for any other method,
    and whatever the request holds (also when it is refused or dies),
    [getMessageToSend] ends with the disk it started with.  In particular
    POST never creates nor writes a file. *)
Theorem getMessageToSend_keeps_disk raw port fs :
  (snd (tokenize raw rInfo0)).(request) !! 0 <> Some (lit "DELETE") ->
  (getMessageToSend runCgi autoIndex date servers raw port fs).2 = fs.
Proof.
  intros Hm. unfold getMessageToSend, st_catch.
  pose proof (serve_keeps raw port fs Hm) as Hs.
  destruct (serve runCgi autoIndex date servers raw port (pstate0 fs)) as [[| e |] p] eqn:E;
    simpl in *; [done| |done].
  pose proof (on_error_keeps e p) as He.
  destruct (on_error e p) as [[] ?]; simpl in *; congruence.
Qed.

(** C26: a request line whose version is not [HTTP/1.1] is answered by the
    bare status line [400 Bad Request], before routing, and the disk is
    untouched. *)
Theorem getMessageToSend_bad_version raw port fs r v :
  tokenize raw rInfo0 = (Ret tt, r) ->
  r.(request) !! 2 = Some v -> v <> lit "HTTP/1.1" ->
  getMessageToSend runCgi autoIndex date servers raw port fs =
    (Some (lit "HTTP/1.1 400 Bad Request" ++ crlf ++ crlf), fs).
Proof.
  intros Ht Hv Hne. unfold getMessageToSend, st_catch, serve, on_rq, rq_at. st_unfold.
  simpl. rewrite Ht. simpl. rewrite Hv. simpl. by rewrite decide_True.
Qed.

(** C28: a request line of fewer than three words ([GET /]) kills the
    server: [requestInfo.request[2]] reads past the end of the vector. *)
Theorem getMessageToSend_short_line raw port fs r :
  tokenize raw rInfo0 = (Ret tt, r) -> length r.(request) <= 2 ->
  getMessageToSend runCgi autoIndex date servers raw port fs = (None, fs).
Proof.
  intros Ht Hl. unfold getMessageToSend, st_catch, serve, on_rq, rq_at. st_unfold.
  simpl. rewrite Ht. simpl. by rewrite (lookup_ge_None_2 _ _ Hl).
Qed.

(** C29: a GET whose target starts with ['?'] has an empty query path, and
    [readFile] calls [queryPath.at(queryPath.length() - 1)] on it, which
    throws [std::out_of_range] that nothing catches: when the server
    scope allows GET and has no redirection, the server dies. *)
Theorem getMessageToSend_empty_path raw port fs r j s pfx loc :
  tokenize raw rInfo0 = (Ret tt, r) ->
  r.(request) !! 0 = Some (lit "GET") -> r.(request) !! 2 = Some (lit "HTTP/1.1") ->
  r.(queryPath) = [] ->
  list_find (server_matches (set_port r port)) servers = Some (j, s) ->
  too_large s.(sblock).(clientMaxBodySize) (Z.of_nat (length r.(body))) = false ->
  getLocationBlockPair s [] = (pfx, loc) ->
  vfind loc.(allowedMethods) (lit "GET") = true -> loc.(redirection).1 = 0%Z ->
  getMessageToSend runCgi autoIndex date servers raw port fs = (None, fs).
Proof.
  intros Ht Hm Hv Hq Hs Hl Hb Ha Hr. unfold getMessageToSend, st_catch.
  rewrite (serve_routed raw port fs r j s Ht Hv Hs).
  unfold dispatch, rq_at, upd_rs. st_unfold. cbn -[methods]. rewrite Hl. cbn -[methods].
  rewrite Hm. cbn -[methods]. rewrite methods_eq. simpl.
  unfold getMethod, readFile, rq_at. st_unfold. simpl. rewrite Hq, Hb. simpl.
  rewrite Hm. simpl. simpl in Ha. rewrite Ha. simpl. rewrite Hr. simpl. done.
Qed.
End PipelineProps.

(** C38: the size cast of the limit check wraps: a body of [2^31] bytes or
    more but less than [2^32] has a negative [(int)] size, so it never
    exceeds a non-negative limit. *)
Theorem too_large_wraps maxb size :
  (2 ^ 31 <= size < 2 ^ 32)%Z -> (0 <= maxb)%Z -> too_large maxb size = false.
Proof.
  intros Hs Hm. unfold too_large. rewrite to_int_wrap by done.
  apply bool_decide_eq_false_2. lia.
Qed.

(** ** The theorems at a concrete configuration

    One server on port 8080 named [localhost], with a body limit of two
    bytes. *)

(** ** A GET of a file, end to end *)

(** The server [getServerBlock] looks for, read off the headers of a
    request that came in on [port]: one that listens on the port and
    names the host of the first [Host] header, without its port. *)
Definition serves_host (hs : list (str * str)) (port : str) (s : ServerBlock) : Prop :=
  vfind s.(portsListeningOn) port = true /\
  vfind s.(serverName) (splitPair (default [] ((list_to_map hs : gmap str str) !! lit "Host")) (lit ":")).1 = true.
#[export] Instance serves_host_dec hs port s : Decision (serves_host hs port s).
Proof. unfold serves_host. apply _. Defined.

Section GetFile.
Variable runCgi : list str -> hmap -> str -> str -> str -> Z * str.
Variable autoIndex : str -> str -> str.
Variable date : str.
Variable servers : list ServerBlock.

Lemma host_of_print r hs port :
  Forall (fun kv => (":"%char ∉ kv.1) /\ no_cr kv.1 /\ no_cr kv.2) hs ->
  r.(headers) = insert_headers [] (map header_line hs) ->
  host_of (set_port r port) =
    (splitPair (default [] ((list_to_map hs : gmap str str) !! lit "Host")) (lit ":")).1.
Proof.
  intros Hh Hr. unfold host_of. rewrite StdMapFacts.subscript_spec. simpl. rewrite Hr.
  rewrite insert_headers_lines by (eapply Forall_impl; [done|]; by intros kv (? & _)).
  by rewrite find_insert_pairs.
Qed.

(** C6: a GET of a file, end to end.  The bytes of a GET request for a
    target without ['?'], as a client prints them, are parsed, routed to
    the first server that listens on the connection's port and names the
    request's host, and answered with status 200, the [Date], the file's
    content type and length, and the file's bytes, when the file is a
    readable regular file under a location that allows GET without a
    redirection; the disk is unchanged. *)
Theorem getMessageToSend_get_file t hs port fs j s pfx loc c data ct :
  t <> [] -> (SP ∉ t) -> no_cr t -> find_char "?" t = None ->
  Forall (fun kv => (":"%char ∉ kv.1) /\ no_cr kv.1 /\ no_cr kv.2) hs ->
  list_find (serves_host hs port) servers = Some (j, s) ->
  (0 <= s.(sblock).(clientMaxBodySize))%Z ->
  getLocationBlockPair s t = (pfx, loc) -> vfind loc.(allowedMethods) (lit "GET") = true ->
  loc.(redirection).1 = 0%Z -> last t = Some c -> c <> "/"%char -> t <> pfx ->
  f_read fs (target_path loc t pfx) = Some data ->
  is_script (ext_of (target_path loc t pfx)) = false ->
  getType (target_path loc t pfx) = Some ct ->
  getMessageToSend runCgi autoIndex date servers
    (print_request (lit "GET") t (lit "HTTP/1.1") hs []) port fs =
  (Some (generateResponse 200 (static_response (set_header rInfo0 (lit "Date") date) ct data)), fs).
Proof.
  intros Ht0 Ht1 Ht2 Hq Hh Hs Hmax Hl Ha Hr Hc Hc' Hp Hd Hsc Hty.
  assert (Hw : Forall (fun w => w <> [] /\ (SP ∉ w) /\ no_cr w) [lit "GET"; t; lit "HTTP/1.1"])
    by (repeat constructor; try done; by apply (bool_decide_unpack _); vm_compute).
  pose proof (tokenize_print_get t hs [] Hw Hh Hq) as Htok.
  set (r := set_body _ _) in Htok.
  assert (Hfind : list_find (server_matches (set_port r port)) servers = Some (j, s)).
  { rewrite <- Hs. apply list_find_ext. intros x. unfold server_matches, serves_host.
    by rewrite (host_of_print r hs port Hh). }
  unfold getMessageToSend, st_catch.
  rewrite (serve_routed runCgi autoIndex date servers _ port fs r j s Htok eq_refl Hfind).
  assert (Htl : too_large s.(sblock).(clientMaxBodySize) (Z.of_nat 0) = false).
  { unfold too_large. apply bool_decide_eq_false_2. simpl. rewrite to_int_small by lia. lia. }
  assert (Hget : StdMap.find (methods runCgi autoIndex) ["G"; "E"; "T"]%char = Some (getMethod runCgi autoIndex))
    by (rewrite methods_eq; reflexivity).
  unfold dispatch, rq_at, upd_rs. st_unfold. cbn -[methods too_large getMethod]. rewrite Htl.
  cbn -[methods getMethod]. rewrite Hget. unfold getMethod, st_bind at 1.
  by rewrite (readFile_static runCgi autoIndex s _ pfx loc (lit "GET") c data ct).
Qed.
End GetFile.

Definition small_server : ServerBlock :=
  mkServer (mkABlock (lit "www") [lit "index.html"] 2 [] (0%Z, []) [lit "GET"; lit "POST"])
    [lit "8080"] [lit "localhost"] [].

Definition post_host : str :=
  lit "POST /up HTTP/1.1" ++ crlf ++ lit "Host: localhost" ++ crlf ++
  lit "Content-Length: 3" ++ crlf2 ++ lit "abc".

Ltac decide_vm := apply (bool_decide_unpack _); vm_compute; reflexivity.

Lemma getMessageToSend_no_server_witness :
  getMessageToSend (fun _ _ _ _ _ => (200%Z, [])) (fun _ _ => []) [] [small_server]
    get_sample (lit "9090") ∅ = (Some (lit "HTTP/1.1 404 Not Found" ++ crlf ++ crlf), ∅).
Proof.
  apply (getMessageToSend_no_server _ _ _ _ _ _ _ (snd (tokenize get_sample rInfo0)));
    [vm_compute; reflexivity | vm_compute; reflexivity | decide_vm].
Defined.

Lemma serve_payload_too_large_witness :
  serve (fun _ _ _ _ _ => (200%Z, [])) (fun _ _ => []) [] [small_server] post_host (lit "8080") (pstate0 ∅) =
    (Throw (mkExc (lit "Payload Too Large") 413),
     mkP (routed (snd (tokenize post_host rInfo0)) (lit "8080")) rInfo0 ∅ small_server).
Proof.
  apply (serve_payload_too_large _ _ _ _ _ _ _ _ 0 small_server); vm_compute; reflexivity.
Defined.

Lemma too_large_wraps_witness : too_large 1 (2 ^ 31) = false.
Proof. apply too_large_wraps; lia. Defined.

(** A disk holding the POST target [www/up]. *)
Definition up_disk : FS := {[ canon (lit "www/up") := mkEntry KFile (lit "old") true true ]}.

Lemma getMessageToSend_keeps_disk_witness :
  (getMessageToSend (fun _ _ _ _ _ => (200%Z, [])) (fun _ _ => []) [] [small_server]
     post_host (lit "8080") up_disk).2 = up_disk.
Proof. apply getMessageToSend_keeps_disk. vm_compute. discriminate. Defined.

Definition http10 : str := lit "GET / HTTP/1.0" ++ crlf ++ lit "Host: localhost" ++ crlf2.
Definition short_line : str := lit "GET /" ++ crlf2.
Definition query_only : str := lit "GET ?x HTTP/1.1" ++ crlf ++ lit "Host: localhost" ++ crlf2.

Lemma getMessageToSend_bad_version_witness :
  getMessageToSend (fun _ _ _ _ _ => (200%Z, [])) (fun _ _ => []) [] [small_server]
    http10 (lit "8080") up_disk = (Some (lit "HTTP/1.1 400 Bad Request" ++ crlf ++ crlf), up_disk).
Proof.
  apply (getMessageToSend_bad_version _ _ _ _ _ _ _ (snd (tokenize http10 rInfo0)) (lit "HTTP/1.0"));
    [vm_compute; reflexivity | vm_compute; reflexivity | discriminate].
Defined.

Lemma getMessageToSend_short_line_witness :
  getMessageToSend (fun _ _ _ _ _ => (200%Z, [])) (fun _ _ => []) [] [small_server]
    short_line (lit "8080") up_disk = (None, up_disk).
Proof.
  apply (getMessageToSend_short_line _ _ _ _ _ _ _ (snd (tokenize short_line rInfo0)));
    [vm_compute; reflexivity | vm_compute; lia].
Defined.

Lemma getMessageToSend_empty_path_witness :
  getMessageToSend (fun _ _ _ _ _ => (200%Z, [])) (fun _ _ => []) [] [small_server]
    query_only (lit "8080") up_disk = (None, up_disk).
Proof.
  apply (getMessageToSend_empty_path _ _ _ _ _ _ _ (snd (tokenize query_only rInfo0)) 0 small_server
           (lit "/") small_server.(sblock)); vm_compute; reflexivity.
Defined.

(** A server with root [www] and the error page [404.html]. *)
Definition page_server : ServerBlock :=
  mkServer (mkABlock (lit "www") [] 0 [(404%Z, lit "404.html")] (0%Z, []) [lit "GET"])
    [lit "8080"] [lit "localhost"] [].

Definition page_disk : FS :=
  {[ canon (lit "www/404.html") := mkEntry KFile (lit "<p>gone</p>") true false ]}.

Lemma on_error_page_witness :
  on_error (mkExc (lit "File doesn't exist") 404) (mkP rInfo0 rInfo0 page_disk page_server) =
    (Ret (generateResponse 404 (error_response rInfo0 (lit "text/html") (lit "<p>gone</p>"))),
     mkP rInfo0 (error_response rInfo0 (lit "text/html") (lit "<p>gone</p>")) page_disk page_server).
Proof.
  apply (on_error_page (mkExc (lit "File doesn't exist") 404) (mkP rInfo0 rInfo0 page_disk page_server)
           (lit "Not Found") (lit "404.html") (lit "<p>gone</p>") (lit "text/html"));
    try reflexivity; discriminate.
Defined.

(** A server with one file, [www/a.html], asked for [/a.html] with the
    [Host] header a browser sends. *)
Definition file_server : ServerBlock :=
  mkServer (mkABlock (lit "www") [lit "index.html"] 0 [] (0%Z, []) [lit "GET"])
    [lit "8080"] [lit "localhost"] [].

Definition file_disk : FS :=
  {[ canon (lit "www/a.html") := mkEntry KFile (lit "<p>hi</p>") true true ]}.

Lemma getMessageToSend_get_file_witness :
  getMessageToSend (fun _ _ _ _ _ => (200%Z, [])) (fun _ _ => []) (lit "today") [file_server]
    (print_request (lit "GET") (lit "/a.html") (lit "HTTP/1.1") [(lit "Host", lit "localhost:8080")] [])
    (lit "8080") file_disk =
  (Some (generateResponse 200 (static_response (set_header rInfo0 (lit "Date") (lit "today"))
           (lit "text/html") (lit "<p>hi</p>"))), file_disk).
Proof.
  apply (getMessageToSend_get_file _ _ _ _ _ _ _ _ 0 file_server (lit "/") file_server.(sblock) "l"%char);
    try reflexivity; try discriminate; try decide_vm.
Defined.
