(* ===== verification/Response.v ===== *)
(** * Response: what [getMessageToSend] sends back

    Every answer of [MethodIO::getMessageToSend] is built by
    [generateResponse] (a status line, the header lines, a blank line and
    the body), except the output of a CGI script, which the spec says is
    passed through verbatim (GET and POST of a script with exit status
    200).  The proof runs the weakest-precondition calculus of the
    prelude over the pipeline: [rqi.exist] is set only by a script that
    ran, so [getMethod]'s verbatim branch returns the script's output. *)

From S2P Require Import Prelude Utils StdMap Http Config Request FileSystem Handlers Pipeline.

Section Typed.
Variable runCgi : list str -> hmap -> str -> str -> str -> Z * str.
Variable autoIndex : str -> str -> str.
Variable date : str.
Variable servers : list ServerBlock.

(** The bytes [generateResponse] writes for some status and response. *)
Definition http_response (s : str) : Prop := exists c rsi, s = generateResponse c rsi.

(** The body a CGI run returns. *)
Definition cgi_output (s : str) : Prop :=
  exists rl hs path b q, s = (runCgi rl hs path b q).2.

Definition response_typed (s : str) : Prop := http_response s \/ cgi_output s.

(** No script has run for this request. *)
Definition no_script (p : PState) : Prop := p.(rq).(exist) = false.

Ltac pm_run :=
  unfold upd_rq, upd_rs, set_fs, set_blk, rq_at, throwR, cgi_call in *; wp_run.

Lemma try_index_exist root idx p :
  wp (try_index root idx) (fun _ p' => p'.(rq).(exist) = p.(rq).(exist)) (fun _ _ => True) p.
Proof.
  revert p. induction idx as [|f idx IH]; intros p; simpl; pm_run; try done.
  wp_apply IH; done.
Qed.

(** [open_direct] returns early only with a script's output, and marks
    [exist] only then. *)
Lemma open_direct_script fpath pfx p :
  no_script p ->
  wp (open_direct runCgi fpath pfx)
     (fun o p' => match o with inl b => cgi_output b | inr _ => no_script p' end)
     (fun _ _ => True) p.
Proof. unfold no_script, open_direct. intros Hp. pm_run; try done. do 5 eexists. done. Qed.

(** [readFile] returns a script's output whenever it marks [exist]. *)
Lemma readFile_script block p :
  no_script p ->
  wp (readFile runCgi autoIndex block) (fun b p' => no_script p' \/ cgi_output b)
     (fun _ _ => True) p.
Proof.
  unfold readFile. intros Hp. pm_run; try done; try (by left).

  wp_apply open_direct_script; [done| |done]. intros [b|[c|]] p' Hp'; pm_run; auto.
  wp_apply try_index_exist; [|done]. intros o p'' E.
  destruct o; pm_run; try done; left; unfold no_script in *; simpl in *; congruence.
Qed.

Lemma generated c rsi : response_typed (generateResponse c rsi).
Proof. left. by exists c, rsi. Qed.
#[local] Hint Resolve generated : core.

(** The handlers of the dispatch table. *)
Lemma getMethod_typed block p :
  no_script p -> wp (getMethod runCgi autoIndex block) (fun out _ => response_typed out) (fun _ _ => True) p.
Proof.
  unfold getMethod. intros Hp. wp_apply readFile_script; [done| |done]. intros b p' Hb. pm_run; auto.
  destruct Hb as [Hn|Hc]; [|by right]. unfold no_script in Hn. by rewrite Hn in H.
Qed.

Lemma headMethod_typed block p :
  wp (headMethod runCgi autoIndex block) (fun out _ => response_typed out) (fun _ _ => True) p.
Proof. unfold headMethod. wp_apply @wp_true; [|done]. intros b p' _. pm_run; auto. Qed.

Lemma delMethod_typed block p :
  wp (delMethod block) (fun out _ => response_typed out) (fun _ _ => True) p.
Proof. unfold delMethod. wp_apply @wp_true; [|done]. intros b p' _. pm_run; auto. Qed.

Lemma postMethod_typed block p :
  wp (postMethod runCgi block) (fun out _ => response_typed out) (fun _ _ => True) p.
Proof.
  unfold postMethod. wp_apply @wp_true; [|done]. intros b p' _. pm_run; auto.
  right. do 5 eexists. done.
Qed.

(** The dispatch on the method computes the table lookup, leaving one
    goal per handler. *)
Lemma dispatch_typed block p :
  no_script p -> wp (dispatch runCgi autoIndex date block) (fun out _ => response_typed out) (fun _ _ => True) p.
Proof.
  unfold dispatch. intros Hp. pm_run; try done.
  all: first [apply delMethod_typed | apply headMethod_typed | apply postMethod_typed
             | apply getMethod_typed; apply Hp].
Qed.

Lemma wp_on_rq {A} (m : ST rInfo RequestException A) Q R p :
  wp m (fun a r => Q a (mkP r p.(rs) p.(pfs) p.(blk))) (fun e r => R e (mkP r p.(rs) p.(pfs) p.(blk))) p.(rq) ->
  wp (on_rq m) Q R p.
Proof. unfold wp, on_rq. by destruct (m (rq p)) as [[] ?]. Qed.

(** The request parser does not touch [exist]. *)
Lemma tokenize_exist raw r :
  wp (tokenize raw) (fun _ r' => r'.(exist) = r.(exist)) (fun _ _ => True) r.
Proof. unfold tokenize, req_at, throwR. wp_run; done. Qed.

Lemma serve_typed raw port p :
  no_script p -> wp (serve runCgi autoIndex date servers raw port) (fun out _ => response_typed out) (fun _ _ => True) p.
Proof.
  unfold serve. intros Hp. rewrite wp_bind. apply wp_on_rq.
  eapply wp_mono; [apply tokenize_exist| |done]. intros u r E. cbv beta in *.
  unfold getServerBlock. pm_run; auto. apply dispatch_typed. unfold no_script in *. simpl. congruence.
Qed.

(** The [catch] renders every error with [generateResponse]. *)
Lemma on_error_typed e p : wp (on_error e) (fun out _ => response_typed out) (fun _ _ => True) p.
Proof. unfold on_error. pm_run; auto. Qed.

(** C7: every answer [getMessageToSend] returns is the output of
    [generateResponse] (status line, header lines, blank line, body) or
    the output of a CGI script passed through verbatim; no other bytes
    are ever sent. *)
Theorem getMessageToSend_typed raw port fs out fs' :
  getMessageToSend runCgi autoIndex date servers raw port fs = (Some out, fs') -> response_typed out.
Proof.
  unfold getMessageToSend. intros Hg.
  assert (Hw : wp (st_catch (serve runCgi autoIndex date servers raw port) on_error)
                  (fun out _ => response_typed out) (fun _ _ => True) (pstate0 fs)).
  { rewrite wp_catch. eapply wp_mono; [apply serve_typed; done|done|]. intros. apply on_error_typed. }
  destruct (st_catch _ _ _) as [[o| |] p'] eqn:E; simplify_eq/=. exact (wp_ret_inv _ _ _ _ out p' Hw E).
Qed.

End Typed.

(** The answer to an HTTP/1.0 request is a generated 400 response. *)
Lemma getMessageToSend_typed_witness :
  response_typed (fun _ _ _ _ _ => (200%Z, [])) (lit "HTTP/1.1 400 Bad Request" ++ crlf ++ crlf).
Proof.
  apply (getMessageToSend_typed (fun _ _ _ _ _ => (200%Z, [])) (fun _ _ => []) [] [small_server]
           http10 (lit "8080") up_disk _ up_disk).
  vm_compute. reflexivity.
Defined.
