(* ===== verification/Date.v ===== *)
(** * Date: [MethodIO::getDate()] ([MethodIO.cpp])

    [getDate] fills [char date[100]] with
    [strftime(date, sizeof(date), "%a, %d %b %Y %H:%M:%S %Z", localtime(&now))]
    and returns [std::string dateStr(date)]; [getMessageToSend] puts the
    result in the [Date] header of every handled response.  The clock
    and the time zone are the environment: [getDate] takes the
    [struct tm] that [localtime] returned.  [strftime] is modelled for
    this format in the C locale: the abbreviated day and month names,
    [%d %H %M %S] as two zero-padded digits, [%Y] as the decimal year,
    [%Z] as the zone abbreviation [tm_zone]; when the text and its NUL do
    not fit in [max] bytes it returns 0 and leaves the array
    indeterminate ([None]).  The theorems: the exact length of the date
    and when it fits in the buffer ([getDate_bounds]), and that the date
    is an HTTP-date (RFC 7231's IMF-fixdate) exactly when the zone is
    GMT ([getDate_http_date]). *)

From S2P Require Import Prelude Utils.

(** The fields of [struct tm] this format reads. *)
Record tm := mkTm {
  tm_sec : Z; tm_min : Z; tm_hour : Z; tm_mday : Z; tm_mon : Z; tm_year : Z; tm_wday : Z;
  tm_zone : str
}.

Definition day_names : list str :=
  map lit ["Sun"; "Mon"; "Tue"; "Wed"; "Thu"; "Fri"; "Sat"]%string.
Definition month_names : list str :=
  map lit ["Jan"; "Feb"; "Mar"; "Apr"; "May"; "Jun"; "Jul"; "Aug"; "Sep"; "Oct"; "Nov"; "Dec"]%string.

(** [%a], [%b]: the name at the index, ["?"] out of range (glibc). *)
Definition abbrev (names : list str) (i : Z) : str :=
  if (0 <=? i)%Z then default (lit "?") (names !! Z.to_nat i) else lit "?".

(** [%d], [%H], [%M], [%S]: at least two digits, zero-padded. *)
Definition pad2 (n : Z) : str :=
  if (0 <=? n)%Z && (n <? 10)%Z then "0"%char :: int_to_str n else int_to_str n.

(** The text of ["%a, %d %b %Y %H:%M:%S %Z"]. *)
Definition date_format (t : tm) : str :=
  abbrev day_names t.(tm_wday) ++ lit ", " ++ pad2 t.(tm_mday) ++ [SP] ++
  abbrev month_names t.(tm_mon) ++ [SP] ++ int_to_str (t.(tm_year) + 1900) ++ [SP] ++
  pad2 t.(tm_hour) ++ lit ":" ++ pad2 t.(tm_min) ++ lit ":" ++ pad2 t.(tm_sec) ++ [SP] ++
  t.(tm_zone).

(** [strftime(s, max, format, t)]: the text when it fits with its NUL. *)
Definition strftime (max : nat) (t : tm) : option str :=
  let s := date_format t in if length s + 1 <=? max then Some s else None.

(** [MethodIO::getDate()]: [char date[100]]. *)
Definition getDate (t : tm) : option str := strftime 100 t.

(** ** HTTP-date

    RFC 7231 (7.1.1.1): [IMF-fixdate = day-name "," SP date1 SP
    time-of-day SP GMT], with [date1 = day SP month SP year] (2, 3 and 4
    characters) and [time-of-day = hour ":" minute ":" second] (2 digits
    each). *)

Definition slice (i n : nat) (s : str) : str := take n (drop i s).
Definition all_digits (s : str) : bool := forallb is_digit s.

Definition imf_fixdate (s : str) : bool :=
  bool_decide (slice 0 3 s ∈ day_names) && bool_decide (slice 3 2 s = lit ", ") &&
  all_digits (slice 5 2 s) && bool_decide (slice 7 1 s = [SP]) &&
  bool_decide (slice 8 3 s ∈ month_names) && bool_decide (slice 11 1 s = [SP]) &&
  all_digits (slice 12 4 s) && bool_decide (slice 16 1 s = [SP]) &&
  all_digits (slice 17 2 s) && bool_decide (slice 19 1 s = lit ":") &&
  all_digits (slice 20 2 s) && bool_decide (slice 22 1 s = lit ":") &&
  all_digits (slice 23 2 s) && bool_decide (drop 25 s = lit " GMT").

(** What [localtime] returns, with a four-digit year. *)
Definition tm_ok (t : tm) : Prop :=
  (0 <= t.(tm_sec) <= 60 /\ 0 <= t.(tm_min) < 60 /\ 0 <= t.(tm_hour) < 24 /\
   1 <= t.(tm_mday) <= 31 /\ 0 <= t.(tm_mon) < 12 /\ 0 <= t.(tm_wday) < 7 /\
   1000 <= t.(tm_year) + 1900 <= 9999)%Z.

(** ** The fields of the date *)

Definition two_digits (s : str) : bool :=
  match s with [a; b] => is_digit a && is_digit b | _ => false end.
Definition four_digits (s : str) : bool :=
  match s with [a; b; c; d] => is_digit a && is_digit b && is_digit c && is_digit d | _ => false end.

(** Checked on every value of the range by evaluation. *)
Lemma pad2_two_digits n : (0 <= n < 100)%Z -> two_digits (pad2 n) = true.
Proof.
  apply (forallb_seq_Z (fun n => two_digits (pad2 n)) 0 100). vm_compute. reflexivity.
Qed.

Lemma year_four_digits y : (1000 <= y <= 9999)%Z -> four_digits (int_to_str y) = true.
Proof.
  intros Hy. apply (forallb_seq_Z (fun y => four_digits (int_to_str y)) 1000 (Z.to_nat 9000));
    [|rewrite Z2Nat.id; lia].
  vm_compute. reflexivity.
Qed.

Lemma abbrev_in names i :
  (0 <= i < Z.of_nat (length names))%Z -> abbrev names i ∈ names.
Proof.
  intros Hi. unfold abbrev. rewrite (proj2 (Z.leb_le 0 i)) by lia.
  destruct (names !! Z.to_nat i) as [x|] eqn:E; simpl.
  - by eapply list_elem_of_lookup_2.
  - apply lookup_ge_None in E. lia.
Qed.

(** Every name of the C locale has three letters. *)
Lemma names_three names x :
  names = day_names \/ names = month_names -> x ∈ names -> exists a b c, x = [a; b; c].
Proof.
  intros Hn Hx. apply length_3.
  assert (Hall : Forall (fun s : str => length s = 3) names) by (destruct Hn; subst; repeat constructor).
  by eapply Forall_forall in Hall.
Qed.

Ltac take_apart H :=
  let E := fresh "E" in
  match type of H with
  | two_digits ?s = true => destruct s as [|? [|? [|]]] eqn:E; try discriminate H;
                            apply andb_prop in H as [? ?]
  | four_digits ?s = true => destruct s as [|? [|? [|? [|? [|]]]]] eqn:E; try discriminate H;
                             apply andb_prop in H as [H ?]; apply andb_prop in H as [H ?];
                             apply andb_prop in H as [? ?]
  end.

(** The date of a valid [struct tm]: 26 bytes before the zone, and an
    IMF-fixdate exactly when the zone is [GMT]. *)
Lemma date_format_fields t :
  tm_ok t ->
  length (date_format t) = 26 + length t.(tm_zone) /\
  imf_fixdate (date_format t) = bool_decide (t.(tm_zone) = lit "GMT").
Proof.
  intros (Hs & Hm & Hh & Hd & Hmo & Hw & Hy).
  pose proof (abbrev_in day_names (tm_wday t) ltac:(simpl; lia)) as Iw.
  pose proof (abbrev_in month_names (tm_mon t) ltac:(simpl; lia)) as Imo.
  destruct (names_three day_names _ (or_introl eq_refl) Iw) as (w1 & w2 & w3 & Ew).
  destruct (names_three month_names _ (or_intror eq_refl) Imo) as (m1 & m2 & m3 & Emo).
  pose proof (pad2_two_digits (tm_mday t) ltac:(lia)) as D1.
  pose proof (pad2_two_digits (tm_hour t) ltac:(lia)) as D2.
  pose proof (pad2_two_digits (tm_min t) ltac:(lia)) as D3.
  pose proof (pad2_two_digits (tm_sec t) ltac:(lia)) as D4.
  pose proof (year_four_digits (tm_year t + 1900) Hy) as D5.
  unfold date_format. rewrite Ew, Emo in *.
  take_apart D1. take_apart D2. take_apart D3. take_apart D4. take_apart D5.
  split; [simpl; lia|].
  unfold imf_fixdate, slice, all_digits. simpl.
  repeat match goal with H : is_digit _ = true |- _ => rewrite H; clear H end.
  rewrite !bool_decide_eq_true_2 by done. simpl. apply bool_decide_ext. split; [by intros [=]|by intros ->].
Qed.

(** ** [getDate] *)

(** C37: for every [struct tm] that [localtime] returns (four-digit
    year), the date is 26 bytes followed by the zone abbreviation; it
    fits in [char date[100]] exactly when the zone has at most 73 bytes,
    and [getDate] then returns it; with a longer zone [strftime] fails
    and the buffer is indeterminate. *)
Theorem getDate_bounds t :
  tm_ok t ->
  match getDate t with
  | Some s => s = date_format t /\ length s = 26 + length t.(tm_zone) /\ length t.(tm_zone) <= 73
  | None => 73 < length t.(tm_zone)
  end.
Proof.
  intros Ht. destruct (date_format_fields t Ht) as [Hl _]. unfold getDate, strftime.
  rewrite Hl. destruct (Nat.leb_spec (26 + length (tm_zone t) + 1) 100); [|lia].
  split; [done|]. split; [done|lia].
Qed.

(** C27: the [Date] header is an HTTP-date (IMF-fixdate) exactly when
    the server's time zone is GMT: [getDate] formats [localtime] with
    [%Z], so on a host in any other zone the header is a local time
    with the local abbreviation, which RFC 7231 does not allow. *)
Theorem getDate_http_date t :
  tm_ok t -> length t.(tm_zone) <= 73 ->
  exists s, getDate t = Some s /\ (imf_fixdate s = true <-> t.(tm_zone) = lit "GMT").
Proof.
  intros Ht Hz. pose proof (getDate_bounds t Ht) as Hb. destruct (date_format_fields t Ht) as [_ Hi].
  destruct (getDate t) as [s|]; [|lia]. destruct Hb as (-> & _ & _).
  exists (date_format t). split; [done|]. rewrite Hi. apply bool_decide_eq_true.
Qed.

(** The example of RFC 7231, and the same instant in Paris. *)
Definition rfc_tm : tm := mkTm 37 49 8 6 10 94 0 (lit "GMT").
Definition paris_tm : tm := mkTm 37 49 9 6 10 94 0 (lit "CET").

Lemma getDate_bounds_witness :
  getDate paris_tm = Some (lit "Sun, 06 Nov 1994 09:49:37 CET").
Proof.
  pose proof (getDate_bounds paris_tm ltac:(unfold tm_ok; simpl; lia)) as H.
  destruct (getDate paris_tm) as [s|]; [|simpl in H; lia]. destruct H as (-> & _). reflexivity.
Defined.

Lemma getDate_http_date_witness :
  getDate rfc_tm = Some (lit "Sun, 06 Nov 1994 08:49:37 GMT") /\
  imf_fixdate (lit "Sun, 06 Nov 1994 08:49:37 GMT") = true.
Proof.
  destruct (getDate_http_date rfc_tm ltac:(unfold tm_ok; simpl; lia) ltac:(simpl; lia))
    as (s & Hs & Hi).
  assert (E : getDate rfc_tm = Some (lit "Sun, 06 Nov 1994 08:49:37 GMT")) by (vm_compute; reflexivity).
  rewrite E in Hs. injection Hs as <-. split; [done|]. by apply Hi.
Defined.
