(* ===== verification/Exception.v ===== *)
(** * Exception: [CustomException] ([CustomException.cpp])

    A [std::exception] that holds a message: the constructor copies the
    [std::string], the destructor does nothing, and [what()] returns
    [_errorMsg.c_str()].  The caller of [what()] gets a [const char *],
    which every consumer ([std::cerr << e.what()], [std::string(p)])
    reads up to the first NUL byte; [c_str] is that reading.  No code
    path of [src/] throws it; the model says what a throw would report:
    the message itself exactly when it holds no NUL byte
    ([what_roundtrip]). *)

From S2P Require Import Prelude Utils.

Definition NUL : ascii := "000"%char.

Record CustomException := mkCustomException { _errorMsg : str }.

(** [CustomException::CustomException(std::string errorMsg) : _errorMsg(errorMsg)] *)
Definition CustomException_new (errorMsg : str) : CustomException := mkCustomException errorMsg.

(** [s.c_str()] as a C string: the bytes before the first NUL. *)
Definition c_str (s : str) : str := take_while (fun c => bool_decide (c <> NUL)) s.

(** [CustomException::what() const throw()] *)
Definition what (e : CustomException) : str := c_str e.(_errorMsg).

(** What the C string leaves out starts at a NUL byte. *)
Lemma c_str_split s :
  exists rest, (s = c_str s ++ rest) /\ (NUL ∉ c_str s) /\ (rest = [] \/ head rest = Some NUL).
Proof.
  unfold c_str. induction s as [|c s (rest & Hs & Hn & Hr)].
  { exists []. split; [done|]. split; [apply not_elem_of_nil|by left]. }
  simpl. destruct (decide (c = NUL)) as [->|Hc].
  - rewrite bool_decide_eq_false_2 by auto. exists (NUL :: s). split; [done|].
    split; [apply not_elem_of_nil|by right].
  - rewrite bool_decide_eq_true_2 by done. exists rest. split; [cbn [app]; by f_equal|].
    split; [|done]. intros [E|?]%elem_of_cons; [congruence|by apply Hn].
Qed.

(** [what()] of a [CustomException] built from a message returns the
    longest prefix of the message without a NUL byte; it gives back the
    message itself exactly when the message has no NUL. *)
Theorem what_roundtrip m :
  (exists rest, (m = what (CustomException_new m) ++ rest) /\ (NUL ∉ what (CustomException_new m)) /\
                (rest = [] \/ head rest = Some NUL)) /\
  (what (CustomException_new m) = m <-> NUL ∉ m).
Proof.
  destruct (c_str_split m) as (rest & Hm & Hn & Hr). split; [by exists rest|].
  unfold what, CustomException_new; simpl. split.
  - intros E. by rewrite <- E.
  - intros Hm'. destruct Hr as [->|Hh]; [by rewrite app_nil_r in Hm|].
    destruct rest as [|c rest]; simplify_eq/=. exfalso. apply Hm'. rewrite Hm.
    apply elem_of_app. right. by left.
Qed.

(** A message with an embedded NUL is cut short. *)
Lemma what_roundtrip_witness :
  what (CustomException_new (lit "bad" ++ [NUL] ++ lit "request")) = lit "bad".
Proof.
  destruct (proj1 (what_roundtrip (lit "bad" ++ [NUL] ++ lit "request"))) as (rest & _ & _ & _).
  vm_compute. reflexivity.
Defined.
