(* ===== verification/Adaptor.v ===== *)
(** * Adaptor: the interface between the event loop and the request logic

    [WebServer] holds an [IOAdaptor &_io] and calls two of its members:
    [receiveMessage(raw)], which stores the request bytes in
    [receivedRaw], and [getMessageToSend(ws, port)], which returns the
    bytes to send back.  [IOAdaptor] ([IOAdaptor.cpp]) echoes the request;
    [MethodIO] ([MethodIO.cpp]) derives from it and serves HTTP.  The
    interface is a type class over the adaptor's state; the event loop
    ([HandleIO], [Loop]) is proved against the class, and both classes of the
    source are instances.  Answering may touch the disk, and the process
    may die while answering ([None]).  The copy constructors and
    assignments of both classes close the file: [MethodIO]'s lose the
    received request ([MethodIO_copy_forgets]). *)

From S2P Require Import Prelude Utils StdMap Http Config FileSystem Handlers Pipeline.

Class IOAdaptor (A : Type) := {
  receiveMessage : str -> A -> A;
  getRaw : A -> str;
  getMessageToSend : list ServerBlock -> str -> A -> FS -> option str * FS
}.

(** What the event loop relies on: [receiveMessage] stores its argument. *)
Class IOAdaptorLaws (A : Type) `{IOAdaptor A} : Prop :=
  getRaw_receiveMessage : forall s a, getRaw (receiveMessage s a) = s.

(** The state of both classes is the one field [receivedRaw]. *)
Record AdaptorState := mkAdaptor { receivedRaw : str }.

(** [IOAdaptor::IOAdaptor(void) : receivedRaw("")] *)
Definition IOAdaptor_new : AdaptorState := mkAdaptor [].

(** ** [IOAdaptor]: the echo adaptor *)
Section Echo.
(** The colour escapes of [colors.h]. *)
Variables BGREEN BBLUE RESET : str.

Definition echo_getMessageToSend (servers : list ServerBlock) (port : str)
    (a : AdaptorState) (fs : FS) : option str * FS :=
  (Some (BGREEN ++ lit "Received message:" ++ [LF] ++ RESET ++ a.(receivedRaw) ++
         BBLUE ++ [LF] ++ lit "Sending back: Hello, world!" ++ [LF] ++ RESET), fs).

(** [operator<<(os, adaptor)]: the text written to [os]. *)
Definition print_adaptor (a : AdaptorState) : str :=
  BBLUE ++ lit "Message: " ++ RESET ++ [LF] ++ a.(receivedRaw) ++ [LF] ++
  BBLUE ++ lit "End" ++ RESET ++ [LF] ++ lit "----------------------------------------" ++ [LF].

#[export] Instance Echo_IOAdaptor : IOAdaptor AdaptorState := {
  receiveMessage s _ := mkAdaptor s;
  getRaw a := a.(receivedRaw);
  getMessageToSend := echo_getMessageToSend
}.
End Echo.

(** ** [MethodIO]: the HTTP adaptor *)
Section MethodIOAdaptor.
Variable runCgi : list str -> hmap -> str -> str -> str -> Z * str.
Variable autoIndex : str -> str -> str.
Variable date : str.

#[export] Instance MethodIO_IOAdaptor : IOAdaptor AdaptorState := {
  receiveMessage s _ := mkAdaptor s;
  getRaw a := a.(receivedRaw);
  getMessageToSend servers port a fs :=
    Pipeline.getMessageToSend runCgi autoIndex date servers a.(receivedRaw) port fs
}.
End MethodIOAdaptor.

#[export] Instance Echo_IOAdaptorLaws c1 c2 c3 : IOAdaptorLaws AdaptorState (H := Echo_IOAdaptor c1 c2 c3).
Proof. intros s a. reflexivity. Qed.

#[export] Instance MethodIO_IOAdaptorLaws f g d : IOAdaptorLaws AdaptorState (H := MethodIO_IOAdaptor f g d).
Proof. intros s a. reflexivity. Qed.

(** ** Copies and assignment

    [IOAdaptor(const IOAdaptor &src)] default-initialises [receivedRaw]
    and runs [*this = src], whose [operator=] copies [receivedRaw].
    [MethodIO(const MethodIO &src) : IOAdaptor()] runs the base's default
    constructor instead of its copy constructor, and then [*this = src]
    with [MethodIO::operator=], which is [(void)rhs; return *this]. *)

(** [IOAdaptor::operator=(rhs)]: [this->receivedRaw = rhs.receivedRaw]. *)
Definition IOAdaptor_assign (lhs rhs : AdaptorState) : AdaptorState := mkAdaptor rhs.(receivedRaw).

(** [IOAdaptor::IOAdaptor(const IOAdaptor &src)] *)
Definition IOAdaptor_copy (src : AdaptorState) : AdaptorState := IOAdaptor_assign (mkAdaptor []) src.

(** [MethodIO::operator=(rhs)] *)
Definition MethodIO_assign (lhs rhs : AdaptorState) : AdaptorState := lhs.

(** [MethodIO::MethodIO(void) : IOAdaptor()] *)
Definition MethodIO_new : AdaptorState := IOAdaptor_new.

(** [MethodIO::MethodIO(const MethodIO &src) : IOAdaptor()] *)
Definition MethodIO_copy (src : AdaptorState) : AdaptorState := MethodIO_assign MethodIO_new src.

(** A copy of an [IOAdaptor] holds the message the original
    received, but a copy of a [MethodIO] (or a [MethodIO] assigned from
    another) has lost it: asked for its answer, it parses the empty
    request and sends [400 Bad Request] whatever the original received,
    the servers, the port and the disk. *)
Lemma MethodIO_copy_forgets f g d servers port raw a fs :
  getRaw (IOAdaptor := Echo_IOAdaptor [] [] []) (IOAdaptor_copy (receiveMessage (IOAdaptor := Echo_IOAdaptor [] [] []) raw a)) = raw /\
  getMessageToSend (IOAdaptor := MethodIO_IOAdaptor f g d) servers port
    (MethodIO_copy (receiveMessage (IOAdaptor := MethodIO_IOAdaptor f g d) raw a)) fs =
    (Some (lit "HTTP/1.1 400 Bad Request" ++ crlf2), fs) /\
  MethodIO_assign a (receiveMessage (IOAdaptor := MethodIO_IOAdaptor f g d) raw a) = a.
Proof.
  split; [done|]. split; [|done].
  (* [tokenize ""] throws 400 before routing; the catch has no root *)
  reflexivity.
Qed.
