(* ===== verification/InitSocket.v ===== *)
(** * InitSocket: [initSocket(port)] ([WebServer.cpp])

    [initSocket] asks [getaddrinfo] for the passive addresses of a port,
    walks the list, and keeps the first address for which [socket],
    [setsockopt] and [bind] succeed; it then [listen]s on it.  Every
    failure is a [throw] of a [char const *] that [initSockets] catches.
    The kernel's answers are an environment [SockEnv]: whether
    [getaddrinfo] succeeds, for each address whether [socket],
    [setsockopt] and [bind] succeed, and whether [listen] succeeds.  The
    descriptor [socket] returns is [alloc] of the open descriptors, a
    descriptor that is not open.  The state is the list of open
    descriptors, so that a descriptor the function forgets to close is
    visible: [initSocket_spec] computes the function, and shows that a
    failed [listen] leaves the bound socket open. *)

From S2P Require Import Prelude.

(** The kernel's answers for one address of [servInfo]. *)
Record Attempt := mkAttempt { a_socket : bool; a_sockopt : bool; a_bind : bool }.

(** The kernel's answers for one port. *)
Record SockEnv := mkSockEnv { gai_ok : bool; addrs : list Attempt; listen_ok : bool }.

Abbreviation SockM := (ST (list Z) string).

Section InitSocket.
(** [socket(2)]: a descriptor that is not open. *)
Variable alloc : list Z -> Z.

Definition sock_open : SockM Z :=
  o <- st_get ;; st_put (alloc o :: o) ;; st_ret (alloc o).

(** [close(sockfd)] *)
Definition sock_close (fd : Z) : SockM unit := st_modify (filter (fun x => x <> fd)).

(** The [for] over [servInfo]: [Some sockfd] when the loop [break]s,
    [None] when [p] reaches [NULL]. *)
Fixpoint bind_loop (l : list Attempt) : SockM (option Z) :=
  match l with
  | [] => st_ret None
  | a :: l =>
      if negb a.(a_socket) then bind_loop l
      else
        fd <- sock_open ;;
        (* [fcntl(sockfd, F_SETFL, O_NONBLOCK, FD_CLOEXEC)] *)
        if negb a.(a_sockopt) then sock_close fd ;; st_throw "Error setting socket options"
        else if negb a.(a_bind) then sock_close fd ;; bind_loop l
        else st_ret (Some fd)
  end.

(** [initSocket(port)]: the listening descriptor, or the thrown message. *)
Definition initSocket (e : SockEnv) : SockM Z :=
  if negb e.(gai_ok) then st_throw "error"
  else
    r <- bind_loop e.(addrs) ;;
    match r with
    | None => st_throw "fail to bind"
    | Some fd => if e.(listen_ok) then st_ret fd else st_throw "fail to listen"
    end.
End InitSocket.

(** ** What the loop over the addresses does *)

(** How the [for] over [servInfo] ends, whatever the descriptors. *)
Inductive BindEnd := BBound | BNone | BOptErr.
#[export] Instance BindEnd_eq_dec : EqDecision BindEnd.
Proof. solve_decision. Defined.

Fixpoint bind_end (l : list Attempt) : BindEnd :=
  match l with
  | [] => BNone
  | a :: l =>
      if negb a.(a_socket) then bind_end l
      else if negb a.(a_sockopt) then BOptErr
      else if negb a.(a_bind) then bind_end l
      else BBound
  end.

(** Whether [initSocket] returns a descriptor. *)
Definition initSocket_ok (e : SockEnv) : bool :=
  e.(gai_ok) && bool_decide (bind_end e.(addrs) = BBound) && e.(listen_ok).

Section Spec.
Variable alloc : list Z -> Z.
Hypothesis alloc_fresh : forall o, alloc o ∉ o.

Lemma close_fresh (o : list Z) : filter (fun x => x <> alloc o) (alloc o :: o) = o.
Proof.
  rewrite filter_cons_False by auto. apply filter_Forall_id, Forall_forall. intros x Hx ->.
  by apply (alloc_fresh o).
Qed.

(** A socket that fails is closed before the next address is tried, so
    every address is tried with the same open descriptors, and the bound
    one is [alloc o]. *)
Lemma bind_loop_spec l o :
  bind_loop alloc l o =
    match bind_end l with
    | BBound => (Ret (Some (alloc o)), alloc o :: o)
    | BNone => (Ret None, o)
    | BOptErr => (Throw "Error setting socket options", o)
    end.
Proof.
  induction l as [|a l IH]; [done|]. simpl.
  destruct a as [[] [] []]; simpl; try apply IH; unfold sock_close; st_unfold; simpl;
    rewrite ?close_fresh; try done; apply IH.
Qed.

(** [initSocket], computed.  A failed [listen] throws with the bound
    socket still open. *)
Lemma initSocket_spec e o :
  initSocket alloc e o =
    if negb e.(gai_ok) then (Throw "error", o)
    else match bind_end e.(addrs) with
         | BBound => if e.(listen_ok) then (Ret (alloc o), alloc o :: o)
                     else (Throw "fail to listen", alloc o :: o)
         | BNone => (Throw "fail to bind", o)
         | BOptErr => (Throw "Error setting socket options", o)
         end.
Proof.
  unfold initSocket. destruct (gai_ok e); [|done]. simpl. unfold st_bind at 1.
  rewrite bind_loop_spec. by destruct (bind_end (addrs e)), (listen_ok e).
Qed.
End Spec.

(** ** A kernel for the examples

    [next_fd] hands out the descriptor above every open one; in
    [sample_env] every call succeeds on the first address, except
    [listen] on port 9090. *)

Definition next_fd (o : list Z) : Z := (1 + foldr Z.max 2 o)%Z.

Lemma next_fd_fresh o : next_fd o ∉ o.
Proof.
  assert (Hle : forall x, x ∈ o -> (x <= foldr Z.max 2 o)%Z).
  { induction o as [|y o IH]; intros x Hx; [by apply not_elem_of_nil in Hx|]. simpl.
    apply elem_of_cons in Hx as [->|Hx]; [lia|]. specialize (IH x Hx). lia. }
  intros Hx. apply Hle in Hx. unfold next_fd in Hx. lia.
Qed.

Definition sample_env (port : str) : SockEnv :=
  mkSockEnv true [mkAttempt true true true] (bool_decide (port <> lit "9090")).
