(* ===== verification/PollState.v ===== *)
(** * PollState: the state of the ConnectionMultiplexer ([WebServer.hpp])

    The constants of [poll(2)], the [pollfd] record, the result of a
    [recv], and the state of a [WebServer] as the record [WS]: the
    [pollfd] array [_pfds], the listening sockets [_socketPortmap]
    (descriptor to port), the accepted connections [_connectionsPortMap]
    (descriptor to the port they came in on), the per-connection buffers
    [buffMap] (a local of [loop()] that lives as long as the loop), the
    adaptor [_io], the disk, and the descriptors the process holds open
    (the kernel's view, to speak of leaks).  The updates of [_pfds]:
    [removePfd], [set_events], [addPfd], [addPfds], and [store_revents],
    the [revents] that [poll] writes. *)

From S2P Require Import Prelude Utils StdMap Http Config Request FileSystem Adaptor.

Definition POLLIN : Z := 1.
Definition POLLOUT : Z := 4.
Definition POLLERR : Z := 8.
Definition POLLHUP : Z := 16.
Definition POLLNVAL : Z := 32.

(** [revents & flag] *)
Definition has_flag (x f : Z) : bool := negb (Z.land x f =? 0)%Z.

Record pollfd := mkPfd { pfd : Z; events : Z; revents : Z }.

(** [#define BUFFSIZE 4096] *)
Definition BUFFSIZE : nat := 4096.

(** The result of [recv(fd, buff, BUFFSIZE, MSG_DONTWAIT)]. *)
Inductive RecvRes := RecvData (d : str) | RecvEOF | RecvErr.

Definition valid_recv (r : RecvRes) : Prop :=
  match r with RecvData d => 0 < length d <= BUFFSIZE | _ => True end.

Definition CL : str := lit "Content-Length".

Section PollState.
Context {A : Type}.

Record WS := mkWS {
  pfds : list pollfd;
  socketPortmap : StdMap.t (K:=Z) (V:=str);
  connectionsPortMap : StdMap.t (K:=Z) (V:=str);
  buffMap : StdMap.t (K:=Z) (V:=str);
  io : A;
  disk : FS;
  open_fds : list Z
}.

Definition with_pfds st x := mkWS x st.(socketPortmap) st.(connectionsPortMap) st.(buffMap) st.(io) st.(disk) st.(open_fds).
Definition with_buffMap st x := mkWS st.(pfds) st.(socketPortmap) st.(connectionsPortMap) x st.(io) st.(disk) st.(open_fds).

(** [_pfds.erase(_pfds.begin() + index)] *)
Definition removePfd (i : nat) (l : list pollfd) : list pollfd := take i l ++ drop (S i) l.

(** [_pfds[index].events = POLLOUT] *)
Definition set_events (i : nat) (ev : Z) (l : list pollfd) : list pollfd :=
  match l !! i with
  | Some p => <[i := mkPfd p.(pfd) ev p.(revents)]> l
  | None => l
  end.

(** What [poll(&_pfds[0], _pfds.size(), -1)] writes: the [revents] of
    each entry, in order; an entry past the kernel's answers keeps its
    own. *)
Fixpoint store_revents (l : list pollfd) (revs : list Z) : list pollfd :=
  match l, revs with
  | p :: l, r :: revs => mkPfd p.(pfd) p.(events) r :: store_revents l revs
  | _, _ => l
  end.

(** [WebServer::addPfd(fd)]: [pfd.events = POLLIN]; [pfd.revents] is
    left uninitialised, [rev] is what it holds. *)
Definition addPfd (fd rev : Z) (l : list pollfd) : list pollfd := l ++ [mkPfd fd POLLIN rev].

(** [WebServer::addPfds(fds)]: [addPfd] on each descriptor in order
    (no caller in [src/]); [rev] is the uninitialised [revents]. *)
Definition addPfds (fds : list Z) (rev : Z) (l : list pollfd) : list pollfd :=
  fold_left (fun l fd => addPfd fd rev l) fds l.

End PollState.

Arguments WS A : clear implicits.

(** The descriptors of the poll set under its updates. *)

Lemma fmap_removePfd i l : pfd <$> removePfd i l = delete i (pfd <$> l).
Proof. unfold removePfd. by rewrite <- delete_take_drop, list_fmap_delete. Qed.

Lemma set_events_lookup_ne l i ev j : j <> i -> set_events i ev l !! j = l !! j.
Proof. intros Hj. unfold set_events. case_match; [|done]. by rewrite list_lookup_insert_ne. Qed.

Lemma set_events_lookup_eq l i ev p :
  l !! i = Some p -> set_events i ev l !! i = Some (mkPfd p.(pfd) ev p.(revents)).
Proof.
  intros Hi. unfold set_events. rewrite Hi. apply list_lookup_insert_eq. by eapply lookup_lt_Some.
Qed.

Lemma removePfd_lookup_ge l i j : i <= j -> removePfd i l !! j = l !! S j.
Proof. intros Hj. unfold removePfd. rewrite <- delete_take_drop. by rewrite list_lookup_delete_ge. Qed.

Lemma fmap_store_revents l revs : pfd <$> store_revents l revs = pfd <$> l.
Proof. revert revs. induction l as [|p l IH]; intros [|r revs]; simpl; f_equal; auto. Qed.

Lemma events_store_revents l revs : events <$> store_revents l revs = events <$> l.
Proof. revert revs. induction l as [|p l IH]; intros [|r revs]; simpl; f_equal; auto. Qed.

Lemma lookup_store_revents l revs j :
  store_revents l revs !! j =
    (fun p => match revs !! j with Some r => mkPfd p.(pfd) p.(events) r | None => p end) <$> l !! j.
Proof.
  revert revs j. induction l as [|p l IH]; intros [|r revs] [|j]; simpl; auto.
  by destruct (l !! j).
Qed.

(** [addPfds] appends the descriptors in order, each waiting for [POLLIN]. *)
Lemma addPfds_app fds rev l : addPfds fds rev l = l ++ map (fun fd => mkPfd fd POLLIN rev) fds.
Proof.
  revert l. induction fds as [|fd fds IH]; intros l; simpl; [by rewrite app_nil_r|].
  rewrite IH. unfold addPfd. by rewrite <- app_assoc.
Qed.

Lemma fmap_set_events i ev l : pfd <$> set_events i ev l = pfd <$> l.
Proof.
  unfold set_events. destruct (l !! i) as [q|] eqn:E; [|done].
  rewrite list_fmap_insert. apply list_insert_id. by rewrite list_lookup_fmap, E.
Qed.
