(* ===== verification/HandleIO.v ===== *)
(** * HandleIO: the service of one connection ([WebServer::handleIO])

    The read path ([POLLIN]): whether the buffer still wants bytes
    ([wants_more]), the completion test ([framed]), and the dispatch of a
    complete message through the adaptor ([handle_read]); the write path
    ([POLLOUT]): a partial [send] and the close of a drained connection
    ([handle_write]).  The theorems here are about the completion test:
    once the head has arrived it is the spec's framing rule, when the head
    is split across reads it is not, a connection whose body is
    complete but that was not dispatched hangs, and a [Content-Length]
    that [stoi] reads as negative is never satisfied: every read
    ([reads]) only grows the buffer. *)

From S2P Require Import Prelude Utils StdMap Http Config Request FileSystem Adaptor PollState.

Section HandleIO.
Context {A : Type} `{IOAdaptor A}.
Variable servers : list ServerBlock.

(** Whether the message in the buffer is complete ([handleIO], the
    condition before [_pfds[index].events = POLLOUT]).  [cl0] is the
    [Content-Length] seen before the [recv], [info0] the parse before. *)
Definition framed (info0 : rInfo) (cl0 : option str) (buf1 : str) (bytes : Z) : bool :=
  let '(info1, cl1, isFirst) :=
    match cl0 with
    | None => let i1 := parseHeader buf1 in (i1, StdMap.find i1.(headers) CL, true)
    | Some _ => (info0, cl0, false)
    end in
  bool_decide (is_Some (find_sub crlf2 buf1)) &&
  match cl1 with
  | None => true
  | Some v => (to_int (Z.of_nat (length info1.(body))) + (if isFirst then 0 else bytes)
               =? stoi v (-1))%Z
  end.

(** [it == info.headers.end() || info.body.size() < (size_t)utils::stoi(it->second, -1)]:
    whether [handleIO] reads at all. *)
Definition wants_more (buf0 : str) : bool :=
  let info := parseHeader buf0 in
  match StdMap.find info.(headers) CL with
  | None => true
  | Some v => (Z.of_nat (length info.(body)) <? to_size_t (stoi v (-1)))%Z
  end.

(** The [POLLIN] branch of [handleIO]. *)
Definition handle_read (st : WS A) (i : nat) (fd : Z) (r : RecvRes) : option (WS A) :=
  let '(buf0, bm0) := StdMap.subscript [] st.(buffMap) fd in
  let info := parseHeader buf0 in
  let cl0 := StdMap.find info.(headers) CL in
  let st0 := with_buffMap st bm0 in
  if negb (wants_more buf0) then Some st0 else
  match r with
  | RecvErr => None        (* [append(buff, (size_t)-1)] throws [std::length_error] *)
  | RecvEOF => Some (with_pfds st0 (removePfd i st0.(pfds)))
  | RecvData d =>
      let buf1 := buf0 ++ d in
      let bm1 := StdMap.assign bm0 fd buf1 in
      if framed info cl0 buf1 (Z.of_nat (length d)) then
        let a1 := receiveMessage buf1 st.(io) in
        let '(port, cpm) := StdMap.subscript [] st.(connectionsPortMap) fd in
        match getMessageToSend servers port a1 st.(disk) with
        | (Some out, fs') =>
            Some (mkWS (set_events i POLLOUT st.(pfds)) st.(socketPortmap) cpm
                       (StdMap.assign bm1 fd out) a1 fs' st.(open_fds))
        | (None, _) => None
        end
      else Some (with_buffMap st bm1)
  end.

(** The [POLLOUT] branch of [handleIO]; [k] is what [send] returned. *)
Definition handle_write (st : WS A) (i : nat) (fd : Z) (k : Z) : option (WS A) :=
  let '(buf0, bm0) := StdMap.subscript [] st.(buffMap) fd in
  if decide (buf0 <> []) then
    (* [buffMap[fd].substr(byteSent)]: the [int] becomes a [size_t]; a
       position past the end throws [std::out_of_range] *)
    if (to_size_t k <=? Z.of_nat (length buf0))%Z
    then Some (with_buffMap st (StdMap.assign bm0 fd (drop (Z.to_nat k) buf0)))
    else None
  else
    match StdMap.find st.(connectionsPortMap) fd with
    | None => None         (* [erase(end())] *)
    | Some _ =>
        Some (mkWS (removePfd i st.(pfds)) st.(socketPortmap)
                   (StdMap.erase st.(connectionsPortMap) fd) (StdMap.erase bm0 fd)
                   (receiveMessage [] st.(io)) st.(disk)
                   (filter (fun x => x <> fd) st.(open_fds)))
    end.

(** [WebServer::handleIO(index, buffMap)] *)
Definition handleIO (st : WS A) (i : nat) (p : pollfd) (r : RecvRes) (k : Z) : option (WS A) :=
  if has_flag p.(revents) POLLIN then handle_read st i p.(pfd) r
  else if has_flag p.(revents) POLLOUT then handle_write st i p.(pfd) k
  else Some (with_buffMap st (StdMap.subscript [] st.(buffMap) p.(pfd)).2).
End HandleIO.

(** [substr(pos)] of a string of length [n], for [pos] the [int] that
    [send] returned: in range for [0 <= k <= n]; [-1] is [npos]. *)
Lemma substr_in_range k n : (0 <= k <= n)%Z -> (to_size_t k <=? n)%Z = true.
Proof.
  intros Hk. apply Z.leb_le. unfold to_size_t.
  pose proof (Z.mod_le k (2 ^ 64) ltac:(lia) ltac:(lia)). lia.
Qed.

Lemma substr_npos n : (n < 2 ^ 64 - 1)%Z -> (to_size_t (-1) <=? n)%Z = false.
Proof. intros Hn. apply Z.leb_gt. rewrite to_size_t_neg by lia. lia. Qed.

Lemma subscript_found (m : StdMap.t (K:=Z) (V:=str)) k v :
  StdMap.find m k = Some v -> StdMap.subscript [] m k = (v, m).
Proof. intros E. unfold StdMap.subscript. by rewrite E. Qed.

(** ** The completion test of the read path *)

Section ReadProps.
Context {A : Type} `{IOAdaptor A}.
Variable servers : list ServerBlock.

Implicit Types (st : WS A).

Lemma parseHeader_body_no_head b0 :
  find_sub crlf2 b0 = None -> (parseHeader b0).(body) = [].
Proof.
  intros H0. unfold parseHeader, splitPair. rewrite H0. simpl.
  destruct (split b0 crlf) eqn:E; [by apply split_cons in E | done].
Qed.

(** C10: framing once the head has arrived.  When the buffer already held
    the whole head (a CRLFCRLF) before the read, and the head declares a
    [Content-Length] [L], the read completes the message exactly when
    the body received so far, the new bytes included, is [L] bytes long:
    the rule of the spec, "body length equals the declared length". *)
Theorem framed_head_complete b0 d v j :
  find_sub crlf2 b0 = Some j ->
  StdMap.find (parseHeader b0).(headers) CL = Some v ->
  (Z.of_nat (length (b0 ++ d)) < 2 ^ 31)%Z ->
  framed (parseHeader b0) (Some v) (b0 ++ d) (Z.of_nat (length d)) =
    (Z.of_nat (length (parseHeader (b0 ++ d)).(body)) =? stoi v (-1))%Z.
Proof.
  intros Hj _ Hlen. cbv beta iota zeta delta [framed].
  rewrite (find_sub_app_l _ _ _ _ Hj). simpl.
  rewrite (parseHeader_app _ _ _ Hj). simpl. rewrite length_app.
  assert (Hb : length (parseHeader b0).(body) <= length b0).
  { unfold parseHeader, splitPair. rewrite Hj. simpl.
    destruct (split (take j b0) crlf); simpl; rewrite ?length_drop; lia. }
  rewrite length_app in Hlen. rewrite to_int_small by lia. f_equal. lia.
Qed.

(** C11: the completion test when the head is split across two reads.
    When the [Content-Length] line had arrived but the CRLFCRLF had not,
    the read that completes the head is judged by its whole length,
    head bytes included: the message counts as complete exactly when
    the chunk is [L] bytes long, whatever the body holds. *)
Theorem framed_split_head b0 d v :
  find_sub crlf2 b0 = None ->
  StdMap.find (parseHeader b0).(headers) CL = Some v ->
  framed (parseHeader b0) (Some v) (b0 ++ d) (Z.of_nat (length d)) =
    bool_decide (is_Some (find_sub crlf2 (b0 ++ d))) &&
    (Z.of_nat (length d) =? stoi v (-1))%Z.
Proof.
  intros H0 _. cbv beta iota zeta delta [framed].
  rewrite (parseHeader_body_no_head _ H0). reflexivity.
Qed.

Lemma with_buffMap_id st : with_buffMap st st.(buffMap) = st.
Proof. by destruct st. Qed.

(** C12: a connection whose received body has reached its declared
    [Content-Length] without having been dispatched is never read nor
    dispatched again: every read event leaves the whole server state
    unchanged (the connection hangs). *)
Theorem handle_read_idle st i fd b v r :
  StdMap.find st.(buffMap) fd = Some b ->
  StdMap.find (parseHeader b).(headers) CL = Some v ->
  (0 <= stoi v (-1) <= Z.of_nat (length (parseHeader b).(body)))%Z ->
  handle_read servers st i fd r = Some st.
Proof.
  intros Hb Hv Hl. unfold handle_read. rewrite (subscript_found _ _ _ Hb).
  unfold wants_more. rewrite Hv.
  rewrite to_size_t_nonneg
    by (destruct (stoi_range v (-1)%Z) as [E|E]; rewrite ?E in *; unfold int_max in *; lia).
  destruct (Z.ltb_spec (Z.of_nat (length (parseHeader b).(body))) (stoi v (-1))); [lia|].
  simpl. by rewrite with_buffMap_id.
Qed.

(** The reads of one connection, one [POLLIN] event per chunk. *)
Fixpoint reads st i fd (ds : list str) : option (WS A) :=
  match ds with
  | [] => Some st
  | d :: ds => match handle_read servers st i fd (RecvData d) with
               | Some st' => reads st' i fd ds
               | None => None
               end
  end.

Lemma with_buffMap_twice st m m' : with_buffMap (with_buffMap st m) m' = with_buffMap st m'.
Proof. by destruct st. Qed.

(** A [Content-Length] that [stoi] reads as negative (its fallback [-1]
    for a value that is not an [int], or a negative number): the read
    guard casts it to [size_t], so the server reads, and the completion
    test compares a length with a negative number, so it never holds. *)
Lemma handle_read_negative_length st i fd b j v d :
  StdMap.find st.(buffMap) fd = Some b ->
  find_sub crlf2 b = Some j ->
  StdMap.find (parseHeader b).(headers) CL = Some v ->
  (stoi v (-1) < 0)%Z ->
  (Z.of_nat (length (b ++ d)) < 2 ^ 31)%Z ->
  handle_read servers st i fd (RecvData d) =
    Some (with_buffMap st (StdMap.assign st.(buffMap) fd (b ++ d))).
Proof.
  intros Hb Hj Hv Hneg Hlen. rewrite length_app in Hlen.
  assert (Hbody : length (parseHeader b).(body) <= length b).
  { unfold parseHeader, splitPair. rewrite Hj. simpl.
    destruct (split (take j b) crlf); simpl; rewrite ?length_drop; lia. }
  pose proof (stoi_range v (-1)) as Hr. unfold int_min, int_max in Hr.
  unfold handle_read. rewrite (subscript_found _ _ _ Hb). unfold wants_more. rewrite Hv.
  rewrite to_size_t_neg by lia.
  destruct (Z.ltb_spec (Z.of_nat (length (parseHeader b).(body))) (stoi v (-1) + 2 ^ 64));
    [|lia].
  cbv beta iota zeta delta [framed negb]. rewrite to_int_small by lia.
  destruct (Z.eqb_spec (Z.of_nat (length (parseHeader b).(body)) + Z.of_nat (length d))
              (stoi v (-1))); [lia|].
  by rewrite andb_false_r.
Qed.

(** C13: a request whose head declares a [Content-Length] that [stoi]
    reads as negative (a value that is not a number, out of the range of
    [int], or negative) is never answered: once its head has arrived,
    every further read only appends the bytes to the connection's
    buffer, whatever they are, and leaves the rest of the server, the
    pollfd ([POLLIN]) and the adaptor included, unchanged; the buffer
    grows with each read until it reaches 2^31 bytes. *)
Theorem handle_read_bad_length st i fd b v ds :
  StdMap.sorted st.(buffMap) = true ->
  StdMap.find st.(buffMap) fd = Some b ->
  is_Some (find_sub crlf2 b) ->
  StdMap.find (parseHeader b).(headers) CL = Some v ->
  (stoi v (-1) < 0)%Z ->
  (Z.of_nat (length (b ++ concat ds)) < 2 ^ 31)%Z ->
  reads st i fd ds = Some (with_buffMap st (StdMap.assign st.(buffMap) fd (b ++ concat ds))).
Proof.
  revert st b. induction ds as [|d ds IH]; intros st b Hs Hb [j Hj] Hv Hneg Hlen; simpl.
  - by rewrite app_nil_r, StdMapFacts.assign_found, with_buffMap_id.
  - rewrite (handle_read_negative_length _ _ _ b j v d Hb Hj Hv Hneg)
      by (simpl in Hlen; rewrite !length_app in *; lia).
    rewrite IH with (b := b ++ d).
    + simpl. by rewrite with_buffMap_twice, StdMapFacts.assign_assign, <- app_assoc.
    + by apply StdMapFacts.sorted_assign.
    + simpl. rewrite StdMapFacts.find_assign. by rewrite decide_True.
    + exists j. by apply find_sub_app_l.
    + by rewrite (parseHeader_app _ _ _ Hj).
    + done.
    + by rewrite <- app_assoc.
Qed.
End ReadProps.

(** ** The theorems at a concrete server

    Descriptor 3 listens on port 8080, descriptor 5 is a connection. *)

Definition echo_io : IOAdaptor AdaptorState := Echo_IOAdaptor [] [] [].

Definition sample_ws (ev rev : Z) (buf : str) : WS AdaptorState :=
  mkWS [mkPfd 3 POLLIN 0; mkPfd 5 ev rev] [(3%Z, lit "8080")] [(5%Z, lit "8080")]
       [(5%Z, buf)] (mkAdaptor []) ∅ [3%Z; 5%Z].

(** The head split across two reads: the [Content-Length] line first,
    then the CRLF that ends the head and the three body bytes. *)
Definition split_chunk1 : str :=
  lit "POST /up HTTP/1.1" ++ crlf ++ lit "Content-Length: 3" ++ crlf.
Definition split_chunk2 : str := crlf ++ lit "abc".

Lemma framed_split_head_witness :
  framed (parseHeader split_chunk1) (Some (lit "3")) (split_chunk1 ++ split_chunk2)
    (Z.of_nat (length split_chunk2)) = false.
Proof.
  rewrite (framed_split_head split_chunk1 split_chunk2 (lit "3")); reflexivity.
Defined.

Lemma framed_head_complete_witness :
  framed (parseHeader (split_chunk1 ++ crlf ++ lit "a")) (Some (lit "3"))
    ((split_chunk1 ++ crlf ++ lit "a") ++ lit "bc") (Z.of_nat (length (lit "bc"))) = true.
Proof.
  erewrite (framed_head_complete (split_chunk1 ++ crlf ++ lit "a") (lit "bc") (lit "3"));
    [reflexivity | reflexivity | reflexivity | simpl; lia].
Defined.

(** After both reads the connection holds the whole request and hangs. *)
Lemma handle_read_idle_witness :
  handle_read (H := echo_io) [] (sample_ws POLLIN POLLIN (split_chunk1 ++ split_chunk2)) 1 5
    (RecvData (lit "more")) = Some (sample_ws POLLIN POLLIN (split_chunk1 ++ split_chunk2)).
Proof.
  apply (handle_read_idle (H := echo_io) [] _ 1 5 (split_chunk1 ++ split_chunk2) (lit "3"));
    try reflexivity. split; apply Z.leb_le; vm_compute; reflexivity.
Defined.

(** A head whose [Content-Length] is not a number. *)
Definition bad_length_head : str :=
  lit "POST /up HTTP/1.1" ++ crlf ++ lit "Content-Length: abc" ++ crlf2.

(** Two reads after that head are appended and nothing else happens. *)
Lemma handle_read_bad_length_witness :
  reads (H := echo_io) [] (sample_ws POLLIN POLLIN bad_length_head) 1 5 [lit "x"; lit "yz"] =
    Some (sample_ws POLLIN POLLIN (bad_length_head ++ lit "xyz")).
Proof.
  rewrite (handle_read_bad_length (H := echo_io) [] _ 1 5 bad_length_head (lit "abc"));
    [reflexivity | reflexivity | reflexivity | eexists; reflexivity | vm_compute; reflexivity
    | vm_compute; reflexivity | apply Z.ltb_lt; vm_compute; reflexivity].
Defined.
