(* ===== verification/Loop.v ===== *)
(** * Loop: the event loop ([WebServer::loop], [acceptConnection], [initSockets])

    A system call is not a function of the state: its result is an
    [Answer] chosen by the environment, and [valid_answer] says which
    results the kernel may give ([recv] returns at most 4096 bytes, [send]
    at most what it was given, [accept] a descriptor that is not open,
    [poll] only events that were asked for or are always reported).
    [step] is one action of [loop()]: a [poll], or the service of the
    descriptor at index [i] of the scan ([acceptConnection] or
    [handleIO]); [lstep] is the step relation.  The theorems: dispatch
    through the adaptor, peer close, a failed [recv] or [send], a partial
    [send], the close of a drained connection, a skipped descriptor after
    a close, and the uninitialised [revents] of an accepted connection.
    Each has a witness on a small server. *)

From S2P Require Import Prelude Utils StdMap Http Config Request FileSystem Adaptor InitSocket PollState HandleIO.

Section Loop.
Context {A : Type} `{IOAdaptor A}.
Variable servers : list ServerBlock.
(** [socket(2)]: see [InitSocket]. *)
Variable alloc : list Z -> Z.

(** [WebServer::acceptConnection(index, buffMap, port)] *)
Definition acceptConnection (st : WS A) (port : str) (r : option Z) (rev : Z) : WS A :=
  match r with
  | None => st
  | Some nfd =>
      mkWS (addPfd nfd rev st.(pfds)) st.(socketPortmap)
           (StdMap.insert st.(connectionsPortMap) nfd port)
           (StdMap.insert st.(buffMap) nfd []) st.(io) st.(disk) (nfd :: st.(open_fds))
  end.

(** One iteration of [WebServer::initSockets()]: a port that already has
    a listening socket is skipped; otherwise [initSocket(port)] runs on
    the open descriptors and either returns a listening descriptor, which
    is polled and recorded, or throws a [char const *] that is caught and
    logged; the descriptors it left open stay open.  The [revents] of the
    new pollfd is overwritten by the first [poll]. *)
Definition initSocket_step (env : str -> SockEnv) (st : WS A) (port : str) : WS A :=
  if bool_decide (port ∈ map snd st.(socketPortmap)) then st
  else match initSocket alloc (env port) st.(open_fds) with
       | (Ret fd, o) =>
           mkWS (addPfd fd 0 st.(pfds)) (StdMap.insert st.(socketPortmap) fd port)
                st.(connectionsPortMap) st.(buffMap) st.(io) st.(disk) o
       | (_, o) =>
           (* [catch (char const *e)]: every failure of [initSocket] is a
              [throw] of a message ([initSocket_spec]) *)
           mkWS st.(pfds) st.(socketPortmap) st.(connectionsPortMap) st.(buffMap) st.(io) st.(disk) o
       end.

(** [WebServer::initSockets()]: the ports of the servers, in order. *)
Definition initSockets (env : str -> SockEnv) (st : WS A) : WS A :=
  fold_left (initSocket_step env) (concat (map portsListeningOn servers)) st.

(** [WebServer::WebServer(filePath, io)]: [_serverBlocks] is what the
    configuration parser produced ([servers]), [_io] is the adaptor, the
    other members start empty, and [initSockets()] runs. *)
Definition WebServer_new (env : str -> SockEnv) (io0 : A) (fs : FS) : WS A :=
  initSockets env (mkWS [] [] [] [] io0 fs []).

(** [poll(&_pfds[0], _pfds.size(), -1)] stores the [revents]. *)
Definition set_revents (st : WS A) (revs : list Z) : WS A :=
  with_pfds st (store_revents st.(pfds) revs).

(** Where [loop()] is: about to [poll] ([None]) or at index [i] of the
    scan; [Stopped] after a [poll] error (the loop returns); [Crashed]
    when the process dies. *)
Inductive Loop := Running (st : WS A) (pc : option nat) | Stopped (st : WS A) | Crashed.

Inductive Answer :=
  | APoll (revs : list Z) | APollErr
  | AAccept (r : option Z) (rev : Z)
  | AIO (r : RecvRes) (k : Z)
  | ANone.

(** One action of [WebServer::loop()]. *)
Definition step (a : Answer) (l : Loop) : Loop :=
  match l with
  | Running st None =>
      match a with
      | APoll revs => Running (set_revents st revs) (Some 0)
      | APollErr => Stopped st
      | _ => l
      end
  | Running st (Some i) =>
      match st.(pfds) !! i with
      | None => Running st None
      | Some p =>
          if negb (has_flag p.(revents) POLLIN || has_flag p.(revents) POLLOUT)
          then Running st (Some (S i))
          else match StdMap.find st.(socketPortmap) p.(pfd) with
               | Some port =>
                   match a with
                   | AAccept r rev => Running (acceptConnection st port r rev) (Some (S i))
                   | _ => l
                   end
               | None =>
                   match a with
                   | AIO r k =>
                       match handleIO servers st i p r k with
                       | Some st' => Running st' (Some (S i))
                       | None => Crashed
                       end
                   | _ => l
                   end
               end
      end
  | _ => l
  end.

(** The results the kernel may give. *)
Definition poll_ok (p : pollfd) (r : Z) : Prop :=
  (0 <= r)%Z /\
  Z.land r (Z.lnot (Z.lor p.(events) (Z.lor POLLERR (Z.lor POLLHUP POLLNVAL)))) = 0%Z.

Definition valid_answer (l : Loop) (a : Answer) : Prop :=
  match l with
  | Running st None =>
      match a with
      | APoll revs => Forall2 poll_ok st.(pfds) revs /\ Exists (fun r => r <> 0%Z) revs
      | APollErr => True
      | _ => False
      end
  | Running st (Some i) =>
      match st.(pfds) !! i with
      | None => a = ANone
      | Some p =>
          if negb (has_flag p.(revents) POLLIN || has_flag p.(revents) POLLOUT) then a = ANone
          else match StdMap.find st.(socketPortmap) p.(pfd) with
               | Some _ =>
                   match a with
                   | AAccept None _ => True
                   | AAccept (Some nfd) _ => (0 <= nfd)%Z /\ nfd ∉ st.(open_fds)
                   | _ => False
                   end
               | None =>
                   match a with
                   | AIO r k =>
                       valid_recv r /\
                       (-1 <= k <= Z.of_nat (length (default [] (StdMap.find st.(buffMap) p.(pfd)))))%Z
                   | _ => False
                   end
               end
      end
  | _ => False
  end.

(** The step relation of the event loop. *)
Definition lstep (l l' : Loop) : Prop := exists a, valid_answer l a /\ step a l = l'.

(** [WebServer::~WebServer()]: [close(_pfds[i].fd)] for every polled
    descriptor; the result is the descriptors the process still holds. *)
Definition WebServer_delete (st : WS A) : list Z :=
  filter (fun x => x ∉ pfd <$> st.(pfds)) st.(open_fds).

(** [WebServer::WebServer(const WebServer &other) : _io(other._io)]:
    the copy refers to the same adaptor, and its [_serverBlocks],
    [_pfds] and maps are default-constructed (empty).  The result is the
    copy's [_serverBlocks] and its state; the kernel's descriptors and
    the disk are those of the process. *)
Definition WebServer_copy (st : WS A) : list ServerBlock * WS A :=
  ([], mkWS [] [] [] [] st.(io) st.(disk) st.(open_fds)).

(** [WebServer::operator=(other)]: [(void)other; return *this]. *)
Definition WebServer_assign (lhs rhs : WS A) : WS A := lhs.

(** [WebServer::getServers()]: a reference to [_serverBlocks], the
    servers the whole section runs with. *)
Definition getServers : list ServerBlock := servers.
End Loop.

Arguments Loop A : clear implicits.

(** ** Properties of the event loop

    The theorems hold for every adaptor (they are proved against the
    [IOAdaptor] class) and every configuration: the write path (a partial
    [send] keeps exactly the unsent suffix; a drained connection is closed
    and forgotten), the read path (the completion test of [handleIO]
    against the spec's framing rule), and the peer-close path. *)

Section Props.
Context {A : Type} `{IOAdaptor A}.
Variable servers : list ServerBlock.

Implicit Types (st : WS A) (p : pollfd).

(** The scan reaches a connection that is ready: [step] is [handleIO]. *)
Lemma step_io st i p r k :
  st.(pfds) !! i = Some p ->
  StdMap.find st.(socketPortmap) p.(pfd) = None ->
  (has_flag p.(revents) POLLIN || has_flag p.(revents) POLLOUT) = true ->
  step servers (AIO r k) (Running st (Some i)) =
    match handleIO servers st i p r k with
    | Some st' => Running st' (Some (S i))
    | None => Crashed
    end.
Proof. intros Hp Hs Hf. simpl. rewrite Hp, Hf, Hs. reflexivity. Qed.

(** A [send] of [k] of the pending bytes, computed. *)
Lemma step_send_eq st i p b r k :
  st.(pfds) !! i = Some p ->
  StdMap.find st.(socketPortmap) p.(pfd) = None ->
  has_flag p.(revents) POLLIN = false -> has_flag p.(revents) POLLOUT = true ->
  StdMap.find st.(buffMap) p.(pfd) = Some b -> b <> [] ->
  (0 <= k <= Z.of_nat (length b))%Z ->
  step servers (AIO r k) (Running st (Some i)) =
    Running (with_buffMap st (StdMap.assign st.(buffMap) p.(pfd) (drop (Z.to_nat k) b))) (Some (S i)).
Proof.
  intros Hp Hs Hin Hout Hb Hne Hk.
  rewrite (step_io st i p r k Hp Hs) by (by rewrite Hin, Hout).
  unfold handleIO. rewrite Hin, Hout. unfold handle_write.
  by rewrite (subscript_found _ _ _ Hb), decide_True, substr_in_range.
Qed.

(** C9: partial write.  When the transport accepts [k] of the [n] pending
    bytes of a connection ([0 <= k <= n]), the pending buffer becomes
    the suffix of the old one from offset [k], the connection stays in
    the poll set, and no descriptor is closed. *)
Theorem step_partial_send st i p b r k :
  st.(pfds) !! i = Some p ->
  StdMap.find st.(socketPortmap) p.(pfd) = None ->
  has_flag p.(revents) POLLIN = false -> has_flag p.(revents) POLLOUT = true ->
  StdMap.find st.(buffMap) p.(pfd) = Some b -> b <> [] ->
  (0 <= k <= Z.of_nat (length b))%Z ->
  exists st',
    step servers (AIO r k) (Running st (Some i)) = Running st' (Some (S i)) /\
    StdMap.find st'.(buffMap) p.(pfd) = Some (drop (Z.to_nat k) b) /\
    st'.(pfds) = st.(pfds) /\ st'.(open_fds) = st.(open_fds).
Proof.
  intros Hp Hs Hin Hout Hb Hne Hk. rewrite (step_send_eq st i p b r k) by done.
  eexists. split; [reflexivity|]. simpl.
  rewrite StdMapFacts.find_assign, decide_True by done. done.
Qed.

(** The closing step of a drained connection, computed. *)
Lemma step_close_eq st i p r k port :
  st.(pfds) !! i = Some p ->
  StdMap.find st.(socketPortmap) p.(pfd) = None ->
  has_flag p.(revents) POLLIN = false -> has_flag p.(revents) POLLOUT = true ->
  StdMap.find st.(buffMap) p.(pfd) = Some [] ->
  StdMap.find st.(connectionsPortMap) p.(pfd) = Some port ->
  step servers (AIO r k) (Running st (Some i)) =
    Running (mkWS (removePfd i st.(pfds)) st.(socketPortmap)
                  (StdMap.erase st.(connectionsPortMap) p.(pfd)) (StdMap.erase st.(buffMap) p.(pfd))
                  (receiveMessage [] st.(io)) st.(disk)
                  (filter (fun x => x <> p.(pfd)) st.(open_fds))) (Some (S i)).
Proof.
  intros Hp Hs Hin Hout Hb Hc.
  rewrite (step_io st i p r k Hp Hs) by (by rewrite Hin, Hout).
  unfold handleIO. rewrite Hin, Hout. unfold handle_write.
  rewrite (subscript_found _ _ _ Hb). rewrite decide_False by auto. by rewrite Hc.
Qed.

(** C14: a connection whose buffer is drained is closed on its next
    writable event: its descriptor leaves the poll set, the open
    descriptors, the buffer table and the port table. *)
Theorem step_drained_close st i p r k port :
  st.(pfds) !! i = Some p ->
  StdMap.find st.(socketPortmap) p.(pfd) = None ->
  has_flag p.(revents) POLLIN = false -> has_flag p.(revents) POLLOUT = true ->
  StdMap.find st.(buffMap) p.(pfd) = Some [] ->
  StdMap.find st.(connectionsPortMap) p.(pfd) = Some port ->
  StdMap.sorted st.(buffMap) = true -> StdMap.sorted st.(connectionsPortMap) = true ->
  exists st',
    step servers (AIO r k) (Running st (Some i)) = Running st' (Some (S i)) /\
    st'.(pfds) = removePfd i st.(pfds) /\
    (p.(pfd) ∉ st'.(open_fds)) /\
    StdMap.find st'.(buffMap) p.(pfd) = None /\
    StdMap.find st'.(connectionsPortMap) p.(pfd) = None.
Proof.
  intros Hp Hs Hin Hout Hb Hc Hsb Hsc.
  rewrite (step_close_eq st i p r k port) by done.
  eexists. split; [reflexivity|]. simpl.
  split; [done|]. split; [intros Hf%list_elem_of_filter; tauto|].
  rewrite !StdMapFacts.find_erase, !decide_True by done. done.
Qed.

(** C21: closing a connection skips the next descriptor of the scan:
    [removePfd(i)] moves the pollfd at [i + 1] to [i], and the scan goes
    on at [i + 1], so that pollfd is not examined in this round. *)
Theorem step_close_skips st i p q r k port :
  st.(pfds) !! i = Some p -> st.(pfds) !! S i = Some q ->
  StdMap.find st.(socketPortmap) p.(pfd) = None ->
  has_flag p.(revents) POLLIN = false -> has_flag p.(revents) POLLOUT = true ->
  StdMap.find st.(buffMap) p.(pfd) = Some [] ->
  StdMap.find st.(connectionsPortMap) p.(pfd) = Some port ->
  exists st',
    step servers (AIO r k) (Running st (Some i)) = Running st' (Some (S i)) /\
    st'.(pfds) !! i = Some q /\ st'.(pfds) !! S i = st.(pfds) !! S (S i).
Proof.
  intros Hp Hq Hs Hin Hout Hb Hc.
  rewrite (step_close_eq st i p r k port) by done.
  eexists. split; [reflexivity|]. simpl. unfold removePfd. rewrite <- delete_take_drop.
  rewrite !list_lookup_delete_ge by lia. done.
Qed.

(** C22: [addPfd] leaves [revents] of the new pollfd uninitialised, and
    the scan that accepted the connection goes on to it.  When the
    listening socket is the last polled descriptor and the garbage
    [revents] has [POLLOUT] without [POLLIN], the new connection, whose
    buffer is empty, is closed by the very next step before any byte
    is read: the poll set is back to what it was and the descriptor and
    its port entry are gone. *)
Theorem accept_garbage_close st i p port nfd rev r k :
  st.(pfds) !! i = Some p -> S i = length st.(pfds) ->
  StdMap.find st.(socketPortmap) p.(pfd) = Some port ->
  (has_flag p.(revents) POLLIN || has_flag p.(revents) POLLOUT) = true ->
  StdMap.find st.(socketPortmap) nfd = None ->
  StdMap.find st.(connectionsPortMap) nfd = None -> StdMap.find st.(buffMap) nfd = None ->
  StdMap.sorted st.(connectionsPortMap) = true ->
  has_flag rev POLLIN = false -> has_flag rev POLLOUT = true ->
  exists st2,
    step servers (AIO r k) (step servers (AAccept (Some nfd) rev) (Running st (Some i))) =
      Running st2 (Some (S (S i))) /\
    st2.(pfds) = st.(pfds) /\ (nfd ∉ st2.(open_fds)) /\
    StdMap.find st2.(connectionsPortMap) nfd = None.
Proof.
  intros Hp Hl Hs Hf Hsn Hcn Hbn Hsc Hin Hout.
  assert (E1 : step servers (AAccept (Some nfd) rev) (Running st (Some i)) =
                 Running (acceptConnection st port (Some nfd) rev) (Some (S i))).
  { simpl. rewrite Hp. simpl in Hf. rewrite Hf. simpl. by rewrite Hs. }
  rewrite E1.
  rewrite (step_close_eq _ (S i) (mkPfd nfd POLLIN rev) r k port); simpl; try done.
  - eexists. split; [reflexivity|]. simpl. split.
    + unfold removePfd, addPfd. rewrite Hl, take_app_length, drop_ge by (rewrite length_app; simpl; lia).
      apply app_nil_r.
    + split; [intros [? []]%list_elem_of_filter; done|].
      rewrite StdMapFacts.find_erase, decide_True; [done..|]. by apply StdMapFacts.sorted_insert.
  - unfold addPfd. rewrite lookup_app_r by lia. by replace (S i - length st.(pfds)) with 0 by lia.
  - by rewrite StdMapFacts.find_insert, decide_True, Hbn.
  - by rewrite StdMapFacts.find_insert, decide_True, Hcn.
Qed.

(** C23: a failed [recv] kills the server: [bytes] is [-1], and
    [buffMap[fd].append(buff, bytes)] is called with [(size_t)-1], which
    throws [std::length_error] that nothing catches.  With
    [MSG_DONTWAIT] this is what a readable event without data gives. *)
Theorem step_recv_error_crash st i p b k :
  st.(pfds) !! i = Some p ->
  StdMap.find st.(socketPortmap) p.(pfd) = None ->
  has_flag p.(revents) POLLIN = true ->
  StdMap.find st.(buffMap) p.(pfd) = Some b -> wants_more b = true ->
  step servers (AIO RecvErr k) (Running st (Some i)) = Crashed.
Proof.
  intros Hp Hs Hin Hb Hw.
  rewrite (step_io st i p RecvErr k Hp Hs) by (by rewrite Hin).
  unfold handleIO. rewrite Hin. unfold handle_read.
  by rewrite (subscript_found _ _ _ Hb), Hw.
Qed.

(** C24: a failed [send] kills the server: [byteSent] is [-1] and
    [substr(byteSent)] is called with [npos], which throws
    [std::out_of_range]. *)
Theorem step_send_error_crash st i p b r :
  st.(pfds) !! i = Some p ->
  StdMap.find st.(socketPortmap) p.(pfd) = None ->
  has_flag p.(revents) POLLIN = false -> has_flag p.(revents) POLLOUT = true ->
  StdMap.find st.(buffMap) p.(pfd) = Some b -> b <> [] -> (Z.of_nat (length b) < 2 ^ 64 - 1)%Z ->
  step servers (AIO r (-1)) (Running st (Some i)) = Crashed.
Proof.
  intros Hp Hs Hin Hout Hb Hne Hl.
  rewrite (step_io st i p r (-1) Hp Hs) by (by rewrite Hin, Hout).
  unfold handleIO. rewrite Hin, Hout. unfold handle_write.
  rewrite (subscript_found _ _ _ Hb). by rewrite decide_True, substr_npos.
Qed.

(** A read that completes the message, computed. *)
Lemma step_read_eq st i p b d k port out fs' :
  st.(pfds) !! i = Some p ->
  StdMap.find st.(socketPortmap) p.(pfd) = None ->
  has_flag p.(revents) POLLIN = true ->
  StdMap.find st.(buffMap) p.(pfd) = Some b -> wants_more b = true ->
  framed (parseHeader b) (StdMap.find (parseHeader b).(headers) CL) (b ++ d) (Z.of_nat (length d)) = true ->
  StdMap.find st.(connectionsPortMap) p.(pfd) = Some port ->
  getMessageToSend servers port (receiveMessage (b ++ d) st.(io)) st.(disk) = (Some out, fs') ->
  step servers (AIO (RecvData d) k) (Running st (Some i)) =
    Running (mkWS (set_events i POLLOUT st.(pfds)) st.(socketPortmap) st.(connectionsPortMap)
                  (StdMap.assign (StdMap.assign st.(buffMap) p.(pfd) (b ++ d)) p.(pfd) out)
                  (receiveMessage (b ++ d) st.(io)) fs' st.(open_fds)) (Some (S i)).
Proof.
  intros Hp Hs Hin Hb Hw Hf Hc Hg.
  rewrite (step_io st i p _ k Hp Hs) by (by rewrite Hin).
  unfold handleIO. rewrite Hin. unfold handle_read.
  rewrite (subscript_found _ _ _ Hb), Hw. simpl. by rewrite Hf, (subscript_found _ _ _ Hc), Hg.
Qed.

Section Dispatch.
Context `{!IOAdaptorLaws A}.

(** C8: dispatch.  When a read completes the message, the whole buffer
    is handed to the adaptor ([receiveMessage]), the answer of
    [getMessageToSend] for the connection's port replaces the buffer,
    the pollfd now waits for [POLLOUT], and the disk is the one the
    adaptor left.  Proved for every adaptor satisfying the interface. *)
Theorem step_dispatch st i p b d k port out fs' :
  st.(pfds) !! i = Some p ->
  StdMap.find st.(socketPortmap) p.(pfd) = None ->
  has_flag p.(revents) POLLIN = true ->
  StdMap.find st.(buffMap) p.(pfd) = Some b -> wants_more b = true ->
  framed (parseHeader b) (StdMap.find (parseHeader b).(headers) CL) (b ++ d) (Z.of_nat (length d)) = true ->
  StdMap.find st.(connectionsPortMap) p.(pfd) = Some port ->
  getMessageToSend servers port (receiveMessage (b ++ d) st.(io)) st.(disk) = (Some out, fs') ->
  exists st',
    step servers (AIO (RecvData d) k) (Running st (Some i)) = Running st' (Some (S i)) /\
    getRaw st'.(io) = b ++ d /\ StdMap.find st'.(buffMap) p.(pfd) = Some out /\
    st'.(pfds) !! i = Some (mkPfd p.(pfd) POLLOUT p.(revents)) /\ st'.(disk) = fs'.
Proof.
  intros Hp Hs Hin Hb Hw Hf Hc Hg. rewrite (step_read_eq st i p b d k port out fs') by done.
  eexists. split; [reflexivity|]. simpl.
  rewrite getRaw_receiveMessage, !StdMapFacts.find_assign, decide_True by done.
  unfold set_events. rewrite Hp. by rewrite list_lookup_insert_eq by (by eapply lookup_lt_Some).
Qed.
End Dispatch.

(** C15: a peer close (a zero-byte read) only removes the descriptor from
    the poll set: the descriptor stays open, and its buffer and its port
    entry stay in their tables.  Since it is no longer polled, the
    destructor does not close it either: it stays open for the life of
    the process. *)
Theorem step_peer_close st i p b k :
  st.(pfds) !! i = Some p -> NoDup (pfd <$> st.(pfds)) ->
  StdMap.find st.(socketPortmap) p.(pfd) = None ->
  has_flag p.(revents) POLLIN = true ->
  StdMap.find st.(buffMap) p.(pfd) = Some b -> wants_more b = true ->
  p.(pfd) ∈ st.(open_fds) ->
  exists st',
    step servers (AIO RecvEOF k) (Running st (Some i)) = Running st' (Some (S i)) /\
    st'.(pfds) = removePfd i st.(pfds) /\
    p.(pfd) ∈ st'.(open_fds) /\
    StdMap.find st'.(buffMap) p.(pfd) = Some b /\
    st'.(connectionsPortMap) = st.(connectionsPortMap) /\
    p.(pfd) ∈ WebServer_delete st'.
Proof.
  intros Hp Hn Hs Hin Hb Hw Ho.
  rewrite (step_io st i p RecvEOF k Hp Hs) by (by rewrite Hin).
  unfold handleIO. rewrite Hin. unfold handle_read.
  rewrite (subscript_found _ _ _ Hb), Hw. simpl.
  eexists. do 5 (split; [reflexivity || done|]).
  apply list_elem_of_filter. split; [|done]. simpl. rewrite fmap_removePfd.
  apply (NoDup_delete_not_elem _ _ _ Hn). by rewrite list_lookup_fmap, Hp.
Qed.
End Props.

(** ** Start-up: a socket that does not listen *)

(** C25: a port whose [listen] fails leaks its socket.  [initSocket]
    throws ["fail to listen"] without closing the descriptor it bound;
    [initSockets] catches the exception, so the descriptor is open but
    neither polled nor recorded for the port, and the destructor, which
    closes only polled descriptors, leaves it open. *)
Theorem initSocket_listen_leak {A} alloc env (st : WS A) port :
  (forall o, alloc o ∉ o) ->
  (forall x, x ∈ pfd <$> st.(pfds) -> x ∈ st.(open_fds)) ->
  port ∉ map snd st.(socketPortmap) ->
  (env port).(gai_ok) = true -> bind_end (env port).(addrs) = BBound ->
  (env port).(listen_ok) = false ->
  let st' := initSocket_step alloc env st port in
  st'.(pfds) = st.(pfds) /\ st'.(socketPortmap) = st.(socketPortmap) /\
  st'.(open_fds) = alloc st.(open_fds) :: st.(open_fds) /\
  alloc st.(open_fds) ∈ WebServer_delete st'.
Proof.
  intros Hf Hp Hin Hg Hb Hl. cbv zeta. unfold initSocket_step. rewrite bool_decide_eq_false_2 by done.
  rewrite (initSocket_spec alloc Hf), Hg, Hb, Hl. simpl. split_and!; try done.
  apply list_elem_of_filter. split; [|left]. intros Hx. by apply (Hf st.(open_fds)), Hp.
Qed.

(** ** The theorems at a concrete server *)

Lemma step_partial_send_witness :
  exists st',
    step (H := echo_io) [] (AIO RecvEOF 2) (Running (sample_ws POLLOUT POLLOUT (lit "hello")) (Some 1))
      = Running st' (Some 2) /\
    StdMap.find st'.(buffMap) 5%Z = Some (drop (Z.to_nat 2) (lit "hello")) /\
    st'.(pfds) = (sample_ws POLLOUT POLLOUT (lit "hello")).(pfds) /\
    st'.(open_fds) = (sample_ws POLLOUT POLLOUT (lit "hello")).(open_fds).
Proof.
  apply (step_partial_send (H := echo_io) [] _ 1 (mkPfd 5 POLLOUT POLLOUT) (lit "hello"));
    try reflexivity; try discriminate. simpl. lia.
Defined.

Lemma step_drained_close_witness :
  exists st',
    step (H := echo_io) [] (AIO RecvEOF 0) (Running (sample_ws POLLOUT POLLOUT []) (Some 1))
      = Running st' (Some 2) /\
    st'.(pfds) = removePfd 1 (sample_ws POLLOUT POLLOUT []).(pfds) /\
    (5%Z ∉ st'.(open_fds)) /\
    StdMap.find st'.(buffMap) 5%Z = None /\
    StdMap.find st'.(connectionsPortMap) 5%Z = None.
Proof.
  apply (step_drained_close (H := echo_io) [] _ 1 (mkPfd 5 POLLOUT POLLOUT) RecvEOF 0 (lit "8080"));
    reflexivity.
Defined.

Lemma step_recv_error_crash_witness :
  step (H := echo_io) [] (AIO RecvErr 0) (Running (sample_ws POLLIN POLLIN split_chunk1) (Some 1)) = Crashed.
Proof.
  apply (step_recv_error_crash (H := echo_io) [] _ 1 (mkPfd 5 POLLIN POLLIN) split_chunk1);
    reflexivity.
Defined.

Lemma step_send_error_crash_witness :
  step (H := echo_io) [] (AIO RecvEOF (-1)) (Running (sample_ws POLLOUT POLLOUT (lit "hello")) (Some 1))
    = Crashed.
Proof.
  apply (step_send_error_crash (H := echo_io) [] _ 1 (mkPfd 5 POLLOUT POLLOUT) (lit "hello"));
    try reflexivity; discriminate.
Defined.

Lemma step_peer_close_witness :
  exists st',
    step (H := echo_io) [] (AIO RecvEOF 0) (Running (sample_ws POLLIN POLLIN split_chunk1) (Some 1))
      = Running st' (Some 2) /\
    st'.(pfds) = removePfd 1 (sample_ws POLLIN POLLIN split_chunk1).(pfds) /\
    5%Z ∈ st'.(open_fds) /\
    StdMap.find st'.(buffMap) 5%Z = Some split_chunk1 /\
    st'.(connectionsPortMap) = (sample_ws POLLIN POLLIN split_chunk1).(connectionsPortMap) /\
    5%Z ∈ WebServer_delete st'.
Proof.
  apply (step_peer_close (H := echo_io) [] _ 1 (mkPfd 5 POLLIN POLLIN) split_chunk1 0);
    try reflexivity.
  - apply NoDup_ListNoDup. vm_compute. repeat constructor; simpl; lia.
  - right. left.
Defined.

(** Three descriptors: the listener 3, a drained connection 5 and a
    readable connection 7. *)
Definition three_ws : WS AdaptorState :=
  mkWS [mkPfd 3 POLLIN 0; mkPfd 5 POLLOUT POLLOUT; mkPfd 7 POLLIN POLLIN] [(3%Z, lit "8080")]
       [(5%Z, lit "8080"); (7%Z, lit "8080")] [(5%Z, []); (7%Z, [])] (mkAdaptor []) ∅ [3%Z; 5%Z; 7%Z].

Lemma step_close_skips_witness :
  exists st',
    step (H := echo_io) [] (AIO RecvEOF 0) (Running three_ws (Some 1)) = Running st' (Some 2) /\
    st'.(pfds) !! 1 = Some (mkPfd 7 POLLIN POLLIN) /\ st'.(pfds) !! 2 = three_ws.(pfds) !! 3.
Proof.
  apply (step_close_skips (H := echo_io) [] three_ws 1 (mkPfd 5 POLLOUT POLLOUT) _ _ _ (lit "8080"));
    reflexivity.
Defined.

(** Only the listener 3 is polled; it accepts descriptor 4. *)
Definition listen_ws : WS AdaptorState :=
  mkWS [mkPfd 3 POLLIN POLLIN] [(3%Z, lit "8080")] [] [] (mkAdaptor []) ∅ [3%Z].

Lemma accept_garbage_close_witness :
  exists st2,
    step (H := echo_io) [] (AIO RecvEOF 0)
      (step (H := echo_io) [] (AAccept (Some 4%Z) POLLOUT) (Running listen_ws (Some 0))) =
      Running st2 (Some 2) /\
    st2.(pfds) = listen_ws.(pfds) /\ (4%Z ∉ st2.(open_fds)) /\
    StdMap.find st2.(connectionsPortMap) 4%Z = None.
Proof.
  apply (accept_garbage_close (H := echo_io) [] listen_ws 0 (mkPfd 3 POLLIN POLLIN) (lit "8080"));
    reflexivity.
Defined.

Definition get_root : str := lit "GET / HTTP/1.1" ++ crlf2.

(** The echo adaptor answers a complete request read in one go. *)
Lemma step_dispatch_witness :
  exists st',
    step (H := echo_io) [] (AIO (RecvData get_root) 0) (Running (sample_ws POLLIN POLLIN []) (Some 1))
      = Running st' (Some 2) /\
    getRaw (IOAdaptor := echo_io) st'.(io) = [] ++ get_root /\
    StdMap.find st'.(buffMap) 5%Z =
      (echo_getMessageToSend [] [] [] [] (lit "8080") (mkAdaptor get_root) ∅).1 /\
    st'.(pfds) !! 1 = Some (mkPfd 5 POLLOUT POLLIN) /\ st'.(disk) = ∅.
Proof.
  apply (step_dispatch (H := echo_io) (IOAdaptorLaws0 := Echo_IOAdaptorLaws [] [] []) [] _ 1
           (mkPfd 5 POLLIN POLLIN) [] get_root 0 (lit "8080")); reflexivity.
Defined.

(** Port 9090 of [sample_env] binds but does not listen. *)
Lemma initSocket_listen_leak_witness :
  let st' := initSocket_step next_fd sample_env (mkWS [] [] [] [] (mkAdaptor []) ∅ []) (lit "9090") in
  st'.(pfds) = [] /\ st'.(socketPortmap) = [] /\ st'.(open_fds) = [next_fd []] /\
  next_fd [] ∈ WebServer_delete st'.
Proof.
  apply (initSocket_listen_leak next_fd sample_env (mkWS [] [] [] [] (mkAdaptor []) ∅ []) (lit "9090"));
    try reflexivity.
  - apply next_fd_fresh.
  - intros x Hx. inversion Hx.
  - apply not_elem_of_nil.
Defined.

(** A copy of a server polls nothing: the only answer the kernel may give
    to its first [poll] is an error, and its loop stops.  (With no
    descriptors, [poll(..., 0, -1)] blocks for ever.) *)
Lemma WebServer_copy_stuck {A} `{IOAdaptor A} (st : WS A) l :
  lstep (WebServer_copy st).1 (Running (WebServer_copy st).2 None) l ->
  l = Stopped (WebServer_copy st).2.
Proof.
  intros (a & Hv & <-). destruct a as [revs| | | |]; simpl in *; try done.
  destruct Hv as [Hp He]. apply Forall2_nil_inv_l in Hp as ->. by apply Exists_nil in He.
Qed.
