(* ===== verification/LoopInvariant.v ===== *)
(** * LoopInvariant: the well-formedness of the event loop's state

    [wf st]: the polled descriptors are distinct and open; every
    listening socket and every connection in the port tables is open;
    the three [std::map]s are sorted.  Every step of [loop()] preserves
    it, and [initSockets] establishes it with one socket per port. *)

From S2P Require Import Prelude Utils StdMap Http Config Request FileSystem Adaptor InitSocket PollState HandleIO Loop.

(** ** The invariant of the event loop

    [wf st]: the polled descriptors are distinct and open; every
    listening socket and every connection in the port tables is open;
    the three [std::map]s are sorted (the red-black tree invariant seen
    through the iteration order).  Every step of [loop()] preserves it. *)

Section Invariant.
Context {A : Type} `{IOAdaptor A}.
Variable servers : list ServerBlock.

Implicit Types (st : WS A) (p : pollfd).

Definition fds st : list Z := pfd <$> st.(pfds).

(** Every key of a [std::map] indexed by descriptors is in [o]. *)
Definition keys_in {V} (m : StdMap.t (K:=Z) (V:=V)) (o : list Z) : Prop :=
  forall k v, StdMap.find m k = Some v -> k ∈ o.

Record wf st : Prop := {
  wf_nodup : NoDup (fds st);
  wf_polled : forall x, x ∈ fds st -> x ∈ st.(open_fds);
  wf_sock : keys_in st.(socketPortmap) st.(open_fds);
  wf_conn : keys_in st.(connectionsPortMap) st.(open_fds);
  wf_buff : keys_in st.(buffMap) st.(open_fds);
  wf_sorted_sock : StdMap.sorted st.(socketPortmap) = true;
  wf_sorted_conn : StdMap.sorted st.(connectionsPortMap) = true;
  wf_sorted_buff : StdMap.sorted st.(buffMap) = true
}.

Definition wf_loop (l : Loop A) : Prop :=
  match l with Running st _ | Stopped st => wf st | Crashed => True end.

(** *** The poll set under its updates *)


(** *** Each operation preserves [wf] *)

Lemma wf_with_buffMap st bm :
  wf st -> keys_in bm st.(open_fds) -> StdMap.sorted bm = true -> wf (with_buffMap st bm).
Proof. intros [] ? ?. by split. Qed.

Lemma wf_removePfd st i : wf st -> wf (with_pfds st (removePfd i st.(pfds))).
Proof.
  intros [Hn Hp ? ? ? ? ? ?]. split; unfold fds in *; simpl; try done;
    rewrite fmap_removePfd.
  - by apply NoDup_delete'.
  - intros x Hx%list_elem_of_delete_inv. by apply Hp.
Qed.

(** A key found after [m[k]] was found before or is [k]. *)
Lemma find_subscript_inv {V} (d : V) (m : StdMap.t) (k k' : Z) v :
  StdMap.find (StdMap.subscript d m k).2 k' = Some v -> k' = k \/ StdMap.find m k' = Some v.
Proof.
  rewrite StdMapFacts.subscript_spec. simpl. rewrite StdMapFacts.find_insert.
  case_decide; auto.
Qed.

Lemma keys_in_subscript {V} (d : V) m o k :
  keys_in m o -> k ∈ o -> keys_in (StdMap.subscript d m k).2 o.
Proof. intros Hm Hk k' v [->|]%find_subscript_inv; eauto. Qed.

Lemma keys_in_assign {V} (m : StdMap.t (V:=V)) o k v :
  keys_in m o -> k ∈ o -> keys_in (StdMap.assign m k v) o.
Proof. intros Hm Hk k' v'. rewrite StdMapFacts.find_assign. case_decide; [by subst|eauto]. Qed.

Lemma keys_in_insert {V} (m : StdMap.t (V:=V)) o k v :
  keys_in m o -> keys_in (StdMap.insert m k v) (k :: o).
Proof.
  intros Hm k' v'. rewrite StdMapFacts.find_insert. case_decide; [subst; left|right; eauto].
Qed.

Lemma keys_in_cons {V} (m : StdMap.t (V:=V)) o k : keys_in m o -> keys_in m (k :: o).
Proof. intros Hm k' v Hk. right. eauto. Qed.

Lemma keys_in_erase {V} (m : StdMap.t (V:=V)) o k :
  StdMap.sorted m = true -> keys_in m o -> keys_in (StdMap.erase m k) (filter (fun x => x <> k) o).
Proof.
  intros Hs Hm k' v. rewrite StdMapFacts.find_erase by done. case_decide; [done|].
  intros Hk. apply list_elem_of_filter. eauto.
Qed.

Lemma keys_in_erase_same {V} (m : StdMap.t (V:=V)) o k :
  StdMap.sorted m = true -> keys_in m o -> keys_in (StdMap.erase m k) o.
Proof. intros Hs Hm k' v. rewrite StdMapFacts.find_erase by done. case_decide; [done|eauto]. Qed.

Lemma keys_in_filter {V} (m : StdMap.t (V:=V)) o k :
  keys_in m o -> StdMap.find m k = None -> keys_in m (filter (fun x => x <> k) o).
Proof. intros Hm Hn k' v Hk. apply list_elem_of_filter. split; [intros ->; congruence | eauto]. Qed.

Lemma sorted_subscript {V} (d : V) (m : StdMap.t (K:=Z)) k :
  StdMap.sorted m = true -> StdMap.sorted (StdMap.subscript d m k).2 = true.
Proof. rewrite StdMapFacts.subscript_spec. apply StdMapFacts.sorted_insert. Qed.

Lemma sorted_assign_Z {V} (m : StdMap.t (K:=Z) (V:=V)) k v :
  StdMap.sorted m = true -> StdMap.sorted (StdMap.assign m k v) = true.
Proof. apply StdMapFacts.sorted_assign. Qed.

Lemma sorted_erase_Z {V} (m : StdMap.t (K:=Z) (V:=V)) k :
  StdMap.sorted m = true -> StdMap.sorted (StdMap.erase m k) = true.
Proof. apply StdMapFacts.sorted_erase. Qed.

#[local] Hint Resolve sorted_subscript sorted_assign_Z sorted_erase_Z wf_with_buffMap wf_removePfd
  keys_in_subscript keys_in_assign keys_in_insert keys_in_cons keys_in_erase keys_in_erase_same : webserv.

Lemma handle_read_wf st i fd r st' :
  wf st -> fd ∈ st.(open_fds) -> handle_read servers st i fd r = Some st' -> wf st'.
Proof.
  intros Hw Ho. pose proof Hw as [Hn Hp Hs Hc Hb Hss Hsc Hsb]. unfold handle_read.
  pose proof (sorted_subscript [] st.(buffMap) fd Hsb) as Hb0.
  pose proof (keys_in_subscript [] st.(buffMap) _ fd Hb Ho) as Hk0.
  destruct (StdMap.subscript [] st.(buffMap) fd) as [buf0 bm0]; simpl in Hb0, Hk0.
  case_match; [intros [= <-]; eauto with webserv|].
  destruct r as [d| |]; [|intros [= <-]; apply (wf_removePfd (with_buffMap st bm0) i); auto with webserv|done].
  case_match; [|intros [= <-]; eauto with webserv].
  pose proof (sorted_subscript [] st.(connectionsPortMap) fd Hsc) as Hc0.
  pose proof (keys_in_subscript [] st.(connectionsPortMap) _ fd Hc Ho) as Hkc.
  destruct (StdMap.subscript [] st.(connectionsPortMap) fd) as [port cpm]; simpl in *.
  destruct (getMessageToSend _ _ _ _) as [[out|] fs']; [intros [= <-]|done].
  split; unfold fds in *; simpl; rewrite ?fmap_set_events; eauto with webserv.
Qed.

Lemma handle_write_wf st i fd k st' :
  wf st -> fds st !! i = Some fd -> StdMap.find st.(socketPortmap) fd = None ->
  handle_write st i fd k = Some st' -> wf st'.
Proof.
  intros Hw Hi Hsn. pose proof Hw as [Hn Hp Hs Hc Hb Hss Hsc Hsb]. unfold handle_write.
  assert (Ho : fd ∈ st.(open_fds)) by (apply Hp, list_elem_of_lookup; eauto).
  pose proof (sorted_subscript [] st.(buffMap) fd Hsb) as Hb0.
  pose proof (keys_in_subscript [] st.(buffMap) _ fd Hb Ho) as Hk0.
  destruct (StdMap.subscript [] st.(buffMap) fd) as [buf0 bm0]; simpl in Hb0, Hk0.
  case_decide; [case_match; [intros [= <-]; eauto with webserv|done]|].
  case_match; [intros [= <-]|done].
  split; unfold fds in *; simpl; rewrite ?fmap_removePfd; eauto using keys_in_filter with webserv.
  - by apply NoDup_delete'.
  - intros x Hx. apply list_elem_of_filter. split.
    + intros ->. by eapply NoDup_delete_not_elem.
    + by apply Hp, (list_elem_of_delete_inv _ i).
Qed.

Lemma sorted_insert_Z {V} (m : StdMap.t (K:=Z) (V:=V)) k v :
  StdMap.sorted m = true -> StdMap.sorted (StdMap.insert m k v) = true.
Proof. apply StdMapFacts.sorted_insert. Qed.
#[local] Hint Resolve sorted_insert_Z : webserv.

(** Polling one more, fresh descriptor keeps the poll set distinct and
    open. *)
Lemma fds_add_fresh (l : list Z) (o : list Z) fd :
  NoDup l -> (forall x, x ∈ l -> x ∈ o) -> fd ∉ o ->
  NoDup (l ++ [fd]) /\ forall x, x ∈ l ++ [fd] -> x ∈ fd :: o.
Proof.
  intros Hn Hp Hf. split.
  - apply NoDup_app. split; [done|]. split; [|by apply NoDup_singleton].
    intros x Hx ->%list_elem_of_singleton. by apply Hf, Hp.
  - intros x [Hx | ->%list_elem_of_singleton]%elem_of_app; [right; auto | left].
Qed.

Lemma acceptConnection_wf st port r rev :
  wf st -> (forall nfd, r = Some nfd -> nfd ∉ st.(open_fds)) ->
  wf (acceptConnection st port r rev).
Proof.
  intros Hw Hfresh. destruct r as [nfd|]; [|done]. specialize (Hfresh nfd eq_refl).
  destruct Hw as [Hn Hp Hs Hc Hb Hss Hsc Hsb].
  destruct (fds_add_fresh _ _ _ Hn Hp Hfresh) as [Hn' Hp'].
  split; unfold fds in *; simpl; unfold addPfd; rewrite ?fmap_app; simpl; auto with webserv.
Qed.

Lemma set_revents_wf st revs : wf st -> wf (set_revents st revs).
Proof.
  intros []. unfold set_revents, with_pfds.
  split; unfold fds in *; simpl; rewrite ?fmap_store_revents; done.
Qed.

Lemma handleIO_wf st i p r k st' :
  wf st -> st.(pfds) !! i = Some p -> StdMap.find st.(socketPortmap) p.(pfd) = None ->
  handleIO servers st i p r k = Some st' -> wf st'.
Proof.
  intros Hw Hi Hs. assert (Hf : fds st !! i = Some p.(pfd)) by (unfold fds; by rewrite list_lookup_fmap, Hi).
  assert (Ho : p.(pfd) ∈ st.(open_fds)) by (apply (wf_polled _ Hw), list_elem_of_lookup; eauto).
  unfold handleIO. repeat case_match.
  - by apply handle_read_wf.
  - by apply handle_write_wf.
  - intros [= <-]. apply wf_with_buffMap; [done| |apply sorted_subscript, Hw].
    apply keys_in_subscript; [apply Hw|done].
Qed.

(** Every step of the loop the environment may take preserves [wf]. *)
Lemma step_wf l a : wf_loop l -> valid_answer l a -> wf_loop (step servers a l).
Proof.
  destruct l as [st [i|]| st|]; simpl; try done; intros Hw Hv.
  - destruct (st.(pfds) !! i) as [p|] eqn:Hi; [|done].
    case_match; [done|]. destruct (StdMap.find st.(socketPortmap) p.(pfd)) eqn:Hs.
    + destruct a as [| |r rev| |]; try done. apply acceptConnection_wf; [done|].
      intros nfd ->. apply Hv.
    + destruct a as [| | |r k|]; try done.
      destruct (handleIO servers st i p r k) eqn:Eh; [|done]. simpl. by eapply handleIO_wf.
  - destruct a; try done. by apply set_revents_wf.
Qed.

(** C1: the invariant holds in every state the loop can reach from a
    well-formed one, whatever the kernel answers: descriptors in the poll
    set are distinct and open, every listening socket and connection of
    the port tables is open, and the tables stay sorted. *)
Theorem reachable_wf l l' :
  wf_loop l -> rtc (lstep servers) l l' -> wf_loop l'.
Proof.
  intros Hw Hr. induction Hr as [|l1 l2 l3 [a [Hv <-]] _ IH]; [done|].
  apply IH, step_wf; done.
Qed.

(** *** Start-up: [initSockets] *)

Section InitSockets.
(** [socket(2)] hands out descriptors that are not open, and [env]
    gives the kernel's answers for each port. *)
Variable alloc : list Z -> Z.
Hypothesis alloc_fresh : forall o, alloc o ∉ o.
Variable env : str -> SockEnv.

(** A state whose open descriptors grew. *)
Lemma wf_open_mono st o :
  wf st -> (forall x, x ∈ st.(open_fds) -> x ∈ o) ->
  wf (mkWS st.(pfds) st.(socketPortmap) st.(connectionsPortMap) st.(buffMap) st.(io) st.(disk) o).
Proof.
  intros [Hn Hp Hs Hc Hb ? ? ?] Ho. split; unfold fds, keys_in in *; simpl; eauto.
Qed.

(** One iteration for a port without a socket: the descriptor
    [initSocket] returns is polled and recorded; on a [throw] the state
    only keeps the descriptors [initSocket] left open. *)
Lemma initSocket_step_cases st port :
  port ∉ map snd st.(socketPortmap) ->
  (initSocket_ok (env port) = true /\
   initSocket_step alloc env st port =
     mkWS (addPfd (alloc st.(open_fds)) 0 st.(pfds))
          (StdMap.insert st.(socketPortmap) (alloc st.(open_fds)) port)
          st.(connectionsPortMap) st.(buffMap) st.(io) st.(disk) (alloc st.(open_fds) :: st.(open_fds))) \/
  (initSocket_ok (env port) = false /\
   exists o, (o = st.(open_fds) \/ o = alloc st.(open_fds) :: st.(open_fds)) /\
   initSocket_step alloc env st port =
     mkWS st.(pfds) st.(socketPortmap) st.(connectionsPortMap) st.(buffMap) st.(io) st.(disk) o).
Proof.
  intros Hin. unfold initSocket_step. rewrite bool_decide_eq_false_2 by done.
  rewrite (initSocket_spec alloc alloc_fresh). unfold initSocket_ok.
  destruct (gai_ok (env port)), (bind_end (addrs (env port))), (listen_ok (env port)); simpl;
    first [left; split; [done|reflexivity]
          |right; split; [done|eexists; split; [|reflexivity]; first [by left|by right]]].
Qed.

(** What holds along the loop of [initSockets]: [wf] and one listening
    socket per port. *)
Definition init_inv st : Prop := wf st /\ NoDup (map snd st.(socketPortmap)).

Lemma initSocket_step_inv st port :
  init_inv st -> init_inv (initSocket_step alloc env st port).
Proof.
  intros [Hw Hnd]. destruct (decide (port ∈ map snd st.(socketPortmap))) as [Hin|Hin].
  { unfold initSocket_step. by rewrite bool_decide_eq_true_2. }
  destruct (initSocket_step_cases st port Hin) as [[_ ->]|[_ (o & Ho & ->)]].
  - pose proof (alloc_fresh st.(open_fds)) as Hfo. set (fd := alloc st.(open_fds)) in *.
    assert (Hfs : StdMap.find st.(socketPortmap) fd = None).
    { destruct (StdMap.find _ fd) eqn:E; [|done]. exfalso. eapply Hfo, wf_sock; eauto. }
    assert (Hperm : map snd (StdMap.insert st.(socketPortmap) fd port) ≡ₚ port :: map snd st.(socketPortmap)).
    { unfold StdMap.insert. rewrite Hfs. apply (Permutation_map snd (StdMapFacts.assign_fresh_perm _ _ _ Hfs)). }
    destruct Hw as [Hn Hp Hs Hc Hbf Hss Hsc Hsb].
    destruct (fds_add_fresh _ _ _ Hn Hp Hfo) as [Hn' Hp'].
    split; simpl; rewrite ?Hperm; [|by constructor].
    split; unfold fds in *; simpl; unfold addPfd; rewrite ?fmap_app; simpl; auto with webserv.
  - split; [|done]. apply wf_open_mono; [done|]. intros x Hx. destruct Ho as [->| ->]; [done|by right].
Qed.

Lemma initSocket_step_mono st port (pt : str) :
  pt ∈ map snd st.(socketPortmap) -> pt ∈ map snd (initSocket_step alloc env st port).(socketPortmap).
Proof.
  unfold initSocket_step. case_decide; [done|]. repeat case_match; simpl; try done.
  unfold StdMap.insert. destruct (StdMap.find _ _) eqn:E; [done|].
  intros Hp. rewrite (Permutation_map snd (StdMapFacts.assign_fresh_perm _ _ _ E)). by right.
Qed.

Lemma initSocket_step_bound st port :
  init_inv st -> initSocket_ok (env port) = true ->
  port ∈ map snd (initSocket_step alloc env st port).(socketPortmap).
Proof.
  intros [Hw _] Hok. destruct (decide (port ∈ map snd st.(socketPortmap))) as [Hin|Hin].
  { unfold initSocket_step. by rewrite bool_decide_eq_true_2. }
  destruct (initSocket_step_cases st port Hin) as [[_ ->]|[? _]]; [|congruence]. simpl.
  pose proof (alloc_fresh st.(open_fds)) as Hfo.
  assert (E : StdMap.find st.(socketPortmap) (alloc st.(open_fds)) = None).
  { destruct (StdMap.find _ _) eqn:E; [|done]. exfalso. eapply Hfo, wf_sock; eauto. }
  unfold StdMap.insert. rewrite E, (Permutation_map snd (StdMapFacts.assign_fresh_perm _ _ _ E)). left.
Qed.

Lemma initSockets_fold_mono ports st (pt : str) :
  pt ∈ map snd st.(socketPortmap) ->
  pt ∈ map snd (fold_left (initSocket_step alloc env) ports st).(socketPortmap).
Proof.
  revert st. induction ports; intros st Hp; simpl; [done|]. by apply IHports, initSocket_step_mono.
Qed.

Lemma initSockets_fold ports st :
  init_inv st ->
  init_inv (fold_left (initSocket_step alloc env) ports st) /\
  forall pt : str, pt ∈ ports -> initSocket_ok (env pt) = true ->
    pt ∈ map snd (fold_left (initSocket_step alloc env) ports st).(socketPortmap).
Proof.
  revert st. induction ports as [|port ports IH]; intros st Hi; simpl; [split; [done|set_solver]|].
  destruct (IH _ (initSocket_step_inv st port Hi)) as [Hi' Hm]. split; [done|].
  intros pt [-> | Hp]%elem_of_cons Hb; [|by apply Hm].
  by apply initSockets_fold_mono, initSocket_step_bound.
Qed.

(** C2: start-up and the life of the server.  With a kernel whose
    [socket] returns descriptors that are not open, the server the
    constructor builds has at most one listening socket per port and one
    for every configured port whose [initSocket] succeeds, and every
    state the event loop reaches from it is well-formed. *)
Theorem WebServer_new_ok io0 fs :
  let st := WebServer_new servers alloc env io0 fs in
  NoDup (map snd st.(socketPortmap)) /\
  (forall pt, pt ∈ concat (map portsListeningOn servers) -> initSocket_ok (env pt) = true ->
     pt ∈ map snd st.(socketPortmap)) /\
  forall l', rtc (lstep servers) (Running st None) l' -> wf_loop l'.
Proof.
  cbv zeta. unfold WebServer_new, initSockets.
  destruct (initSockets_fold (concat (map portsListeningOn servers)) (mkWS [] [] [] [] io0 fs []))
    as [[Hw Hn] Hm].
  - split; [|constructor].
    split; [constructor | intros x Hx; inversion Hx | intros k v [=] | intros k v [=] | intros k v [=] | done..].
  - split; [done|]. split; [done|]. intros l' Hr.
    remember (Running _ None) as l0 eqn:E. assert (Hw0 : wf_loop l0) by (by subst). clear E.
    induction Hr as [|l1 l2 l3 [a [Hv <-]] _ IH]; [done|]. by apply IH, step_wf.
Qed.
End InitSockets.

(** *** Termination of the scan

    The [for] over [_pfds] inside one [poll] round ends: every step of
    the scan moves [i] forward, a close shortens the array, and only an
    [accept] makes it longer, once per listening socket ahead of [i]
    (the accepted descriptor is fresh, so it is not a listening socket:
    this is where [wf] is needed). *)

(** The listening sockets among [l]. *)
Definition listeners (m : StdMap.t (K:=Z) (V:=str)) (l : list Z) : nat :=
  length (filter (fun fd => is_Some (StdMap.find m fd)) l).

Definition scan_measure st (i : nat) : nat :=
  (length (fds st) - i) + listeners st.(socketPortmap) (drop i (fds st)).

Definition in_scan (l : Loop A) : Prop :=
  match l with Running _ (Some _) => True | _ => False end.

(** A step of [loop()] that stays inside the scan. *)
Definition scan_lstep (l l' : Loop A) : Prop := lstep servers l l' /\ in_scan l'.

Lemma listeners_app m l1 l2 : listeners m (l1 ++ l2) = listeners m l1 + listeners m l2.
Proof. unfold listeners. by rewrite filter_app, length_app. Qed.

Lemma listeners_fresh m x : StdMap.find m x = None -> listeners m [x] = 0.
Proof. intros E. unfold listeners. rewrite filter_cons_False; [done|]. rewrite E. apply is_Some_None. Qed.

Lemma listeners_le m l : listeners m l <= length l.
Proof. apply length_filter. Qed.

Lemma listeners_drop_S m l i : listeners m (drop (S i) l) <= listeners m (drop i l).
Proof.
  destruct (l !! i) as [x|] eqn:E.
  - rewrite (drop_S _ _ _ E). unfold listeners. rewrite filter_cons. case_decide; simpl; lia.
  - apply lookup_ge_None in E. rewrite (drop_ge l (S i)) by lia. unfold listeners; simpl; lia.
Qed.

Lemma listeners_drop_hit m l i x :
  l !! i = Some x -> is_Some (StdMap.find m x) ->
  listeners m (drop i l) = S (listeners m (drop (S i) l)).
Proof. intros E Hx. rewrite (drop_S _ _ _ E). unfold listeners. by rewrite filter_cons_True. Qed.

Lemma drop_S_delete (l : list Z) i :
  i < length l -> drop (S i) (delete i l) = drop (S (S i)) l.
Proof.
  intros Hi. rewrite delete_take_drop, drop_app_ge by (rewrite length_take; lia).
  rewrite length_take, drop_drop. f_equal. lia.
Qed.

(** [handleIO] keeps the listening sockets and either keeps the polled
    descriptors or removes the one at [i]. *)
Lemma handleIO_shape st i p r k st' :
  handleIO servers st i p r k = Some st' ->
  st'.(socketPortmap) = st.(socketPortmap) /\ (fds st' = fds st \/ fds st' = delete i (fds st)).
Proof.
  unfold handleIO, handle_read, handle_write, fds.
  repeat case_match; intros E; simplify_eq/=; rewrite ?fmap_set_events, ?fmap_removePfd; auto.
Qed.

Lemma scan_measure_advance st i :
  i < length (fds st) -> scan_measure st (S i) < scan_measure st i.
Proof. intros Hi. unfold scan_measure. pose proof (listeners_drop_S st.(socketPortmap) (fds st) i). lia. Qed.

(** Every step of the scan that stays in it lowers [scan_measure]. *)
Lemma scan_step_decreases st i a st' j :
  wf st -> valid_answer (Running st (Some i)) a ->
  step servers a (Running st (Some i)) = Running st' (Some j) ->
  scan_measure st' j < scan_measure st i.
Proof.
  intros Hw Hv. simpl in *. destruct (st.(pfds) !! i) as [p|] eqn:Hi; [|done].
  assert (Hf : fds st !! i = Some p.(pfd)) by (unfold fds; by rewrite list_lookup_fmap, Hi).
  assert (Hlt : i < length (fds st)) by (by eapply lookup_lt_Some).
  case_match; [subst a; intros [= <- <-]; by apply scan_measure_advance|].
  destruct (StdMap.find st.(socketPortmap) p.(pfd)) as [port|] eqn:Hs.
  - destruct a as [| |[nfd|] rev| |]; try done; intros [= <- <-]; [|by apply scan_measure_advance].
    destruct Hv as [_ Hn].
    assert (Hnl : StdMap.find st.(socketPortmap) nfd = None).
    { destruct (StdMap.find _ nfd) eqn:E; [|done]. exfalso. eapply Hn, wf_sock; eauto. }
    unfold scan_measure, fds in *. simpl. unfold addPfd. rewrite fmap_app, length_app.
    rewrite drop_app_le by lia. rewrite listeners_app.
    rewrite (listeners_drop_hit _ _ _ _ Hf) by (rewrite Hs; eauto).
    change (pfd <$> [mkPfd nfd POLLIN rev]) with [nfd]. rewrite (listeners_fresh _ _ Hnl). simpl. lia.
  - destruct a as [| | |r k|]; try done.
    destruct (handleIO servers st i p r k) as [st''|] eqn:Eh; intros [= <- <-].
    destruct (handleIO_shape _ _ _ _ _ _ Eh) as [Hm [Hfd|Hfd]]; unfold scan_measure; rewrite Hm, Hfd.
    + pose proof (listeners_drop_S st.(socketPortmap) (fds st) i). lia.
    + rewrite length_delete by done. rewrite drop_S_delete by done.
      pose proof (listeners_drop_S st.(socketPortmap) (fds st) (S i)).
      pose proof (listeners_drop_S st.(socketPortmap) (fds st) i). lia.
Qed.

Lemma scan_measure_bound st i : scan_measure st i <= 2 * length st.(pfds).
Proof.
  unfold scan_measure. pose proof (listeners_le st.(socketPortmap) (drop i (fds st))).
  rewrite length_drop in *. unfold fds in *. rewrite length_fmap in *. lia.
Qed.

Lemma scan_nsteps n st i l' :
  wf st -> nsteps scan_lstep n (Running st (Some i)) l' -> n <= scan_measure st i.
Proof.
  revert st i. induction n as [|n IH]; intros st i Hw Hs; [lia|].
  inversion Hs as [|? ? y ? Hy Hrest]; subst. destruct Hy as [[a [Hv Ha]] Hin].
  destruct y as [st' [j|]| |]; try done.
  pose proof (scan_step_decreases _ _ _ _ _ Hw Hv Ha).
  assert (Hw' : wf st') by (pose proof (step_wf (Running st (Some i)) a Hw Hv) as Hw'; by rewrite Ha in Hw').
  specialize (IH _ _ Hw' Hrest). lia.
Qed.

(** At every index of the scan the kernel has an answer the step takes. *)
Lemma scan_has_answer st i : exists a, valid_answer (Running st (Some i)) a.
Proof.
  simpl. destruct (st.(pfds) !! i) as [p|]; [|by exists ANone].
  case_match; [by exists ANone|]. case_match.
  - by exists (AAccept None 0).
  - exists (AIO RecvEOF 0). split; [done|]. lia.
Qed.

(** C4: termination of the scan.  In a well-formed state, the scan of
    [_pfds] after a [poll] always has a step the kernel can answer, and
    it returns to [poll] (or stops or crashes) within [2 * n] steps,
    where [n] is the number of polled descriptors: a run of [n'] steps
    that all stay in the scan has [n' <= 2 * n]. *)
Theorem scan_terminates st i :
  wf st ->
  (exists a, valid_answer (Running st (Some i)) a) /\
  forall n l', nsteps scan_lstep n (Running st (Some i)) l' -> n <= 2 * length st.(pfds).
Proof.
  intros Hw. split; [apply scan_has_answer|].
  intros n l' Hs. pose proof (scan_nsteps _ _ _ _ Hw Hs). pose proof (scan_measure_bound st i). lia.
Qed.

End Invariant.

(** ** The theorems at a concrete server *)

Lemma sample_ws_wf ev rev buf : wf (sample_ws ev rev buf).
Proof.
  split; simpl; try reflexivity.
  - unfold fds. simpl. by apply (bool_decide_unpack _); vm_compute.
  - by intros x Hx.
  - intros k v. simpl. case_decide as Hk; [intros _; subst; set_solver | done].
  - intros k v. simpl. case_decide as Hk; [intros _; subst; set_solver | done].
  - intros k v. simpl. case_decide as Hk; [intros _; subst; set_solver | done].
Qed.

(** One [poll] round from the sample server: fd 5 became readable. *)
Lemma reachable_wf_witness :
  wf_loop (step (H := echo_io) [] (APoll [0%Z; POLLIN]) (Running (sample_ws POLLIN 0 []) None)).
Proof.
  apply (reachable_wf (H := echo_io) [] (Running (sample_ws POLLIN 0 []) None)).
  - apply sample_ws_wf.
  - apply rtc_once. exists (APoll [0%Z; POLLIN]). split; [|reflexivity].
    split.
    + repeat constructor; vm_compute; discriminate.
    + apply Exists_cons_tl, Exists_cons_hd. discriminate.
Defined.

(** Two servers sharing port 8080; the second also listens on 9090. *)
Definition two_servers : list ServerBlock :=
  [sample_server; mkServer sample_root [lit "8080"; lit "9090"] [lit "example"] []].

Lemma WebServer_new_ok_witness :
  let st := WebServer_new two_servers next_fd sample_env IOAdaptor_new ∅ in
  NoDup (map snd st.(socketPortmap)) /\
  (forall pt, pt ∈ concat (map portsListeningOn two_servers) -> initSocket_ok (sample_env pt) = true ->
     pt ∈ map snd st.(socketPortmap)) /\
  forall l', rtc (lstep (H := echo_io) two_servers) (Running st None) l' -> wf_loop l'.
Proof. apply (WebServer_new_ok (H := echo_io) two_servers next_fd next_fd_fresh). Defined.

(** The scan from index 0 of the sample server: descriptor 3 has no
    event and is skipped. *)
Lemma scan_terminates_witness :
  (exists a, valid_answer (Running (sample_ws POLLIN 0 []) (Some 0)) a) /\
  forall n l', nsteps (scan_lstep (H := echo_io) []) n (Running (sample_ws POLLIN 0 []) (Some 0)) l' ->
    n <= 2 * length (sample_ws POLLIN 0 []).(pfds).
Proof. apply (scan_terminates (H := echo_io) []). apply sample_ws_wf. Defined.
