(* ===== verification/Serve.v ===== *)
(** * Serve: one connection through the event loop, end to end

    The theorems of [Loop] are about one action of [loop()]; here they
    are composed along whole rounds of [poll] and scan.  When [poll]
    reports a single descriptor ready, the scan skips every other pollfd
    ([scan_skip]) and one round of the loop is the service of that
    descriptor ([one_round]).  Three rounds serve a connection whose
    request arrives in one read and whose answer is accepted by one
    [send] ([serve_connection]): the request is answered through the
    adaptor, the disk is the one the adaptor left, and the descriptor is
    closed and leaves the poll set. *)

From S2P Require Import Prelude Utils StdMap Http Config Request FileSystem Adaptor.
From S2P Require Import PollState HandleIO Loop LoopInvariant.

(** What [poll] reports when only [fd] is ready, with [flag]. *)
Definition only (fd flag : Z) (l : list pollfd) : list Z :=
  map (fun q => if decide (q.(pfd) = fd) then flag else 0%Z) l.

Section Serve.
Context {A : Type} `{IOAdaptor A}.
Variable servers : list ServerBlock.
Implicit Types (st : WS A) (p q : pollfd).

(** The scan passes over the pollfds that got no event. *)
Lemma scan_skip st j k :
  j <= k <= length st.(pfds) ->
  (forall n q, j <= n < k -> st.(pfds) !! n = Some q -> q.(revents) = 0%Z) ->
  rtc (lstep servers) (Running st (Some j)) (Running st (Some k)).
Proof.
  intros [Hjk Hk] Hz. revert Hk Hz. induction Hjk as [|k Hjk IH]; intros Hk Hz; [done|].
  transitivity (Running st (Some k)).
  { apply IH; [lia|]. intros n q ? ?. apply (Hz n); [lia|done]. }
  apply rtc_once.
  destruct (lookup_lt_is_Some_2 st.(pfds) k) as [q Hq]; [lia|].
  assert (Hr : q.(revents) = 0%Z) by (apply (Hz k); [lia|done]).
  exists ANone. simpl. rewrite Hq, Hr. split; reflexivity.
Qed.

(** Past the last pollfd the loop polls again. *)
Lemma scan_end st k :
  length st.(pfds) <= k -> lstep servers (Running st (Some k)) (Running st None).
Proof.
  intros Hk. exists ANone. simpl. rewrite (proj2 (lookup_ge_None _ _) Hk). split; reflexivity.
Qed.

Lemma only_poll_ok l fd flag :
  Forall (fun q => q.(pfd) = fd -> poll_ok q flag) l -> Forall2 poll_ok l (only fd flag l).
Proof.
  induction 1 as [|q l Hq Hl IH]; simpl; constructor; [|done].
  case_decide; [by apply Hq|]. split; [lia|]. by rewrite Z.land_0_l.
Qed.

Lemma lookup_set_revents_only st fd flag n :
  (set_revents st (only fd flag st.(pfds))).(pfds) !! n =
    (fun q => mkPfd q.(pfd) q.(events) (if decide (q.(pfd) = fd) then flag else 0%Z)) <$> st.(pfds) !! n.
Proof.
  unfold set_revents, with_pfds. simpl. rewrite lookup_store_revents. unfold only.
  rewrite list_lookup_fmap. by destruct (st.(pfds) !! n).
Qed.

(** Distinct descriptors: the entry of a descriptor is at one index. *)
Lemma pfd_index st i j p q :
  NoDup (pfd <$> st.(pfds)) -> st.(pfds) !! i = Some p -> st.(pfds) !! j = Some q ->
  q.(pfd) = p.(pfd) -> j = i.
Proof.
  intros Hn Hi Hj E. apply (NoDup_lookup _ j i p.(pfd) Hn); rewrite list_lookup_fmap.
  - by rewrite Hj, <- E.
  - by rewrite Hi.
Qed.

(** [poll] reports [flag] on [p] alone. *)
Lemma poll_only st i p flag :
  NoDup (pfd <$> st.(pfds)) -> st.(pfds) !! i = Some p -> poll_ok p flag -> flag <> 0%Z ->
  lstep servers (Running st None) (Running (set_revents st (only p.(pfd) flag st.(pfds))) (Some 0)).
Proof.
  intros Hn Hi Hp Hf. exists (APoll (only p.(pfd) flag st.(pfds))). split; [|done]. simpl. split.
  - apply only_poll_ok, Forall_lookup. intros j q Hj E.
    rewrite (pfd_index st i j p q Hn Hi Hj E) in Hj. by simplify_eq.
  - apply Exists_exists. exists flag. split; [|done]. apply list_elem_of_lookup. exists i.
    unfold only. by rewrite list_lookup_fmap, Hi; simpl; rewrite decide_True.
Qed.

(** One round of the loop in which only [p] is ready: the scan skips to
    it, serves it, and skips the rest. *)
Lemma one_round st i p flag a st' :
  NoDup (pfd <$> st.(pfds)) -> st.(pfds) !! i = Some p -> poll_ok p flag -> flag <> 0%Z ->
  valid_answer (Running (set_revents st (only p.(pfd) flag st.(pfds))) (Some i)) a ->
  step servers a (Running (set_revents st (only p.(pfd) flag st.(pfds))) (Some i)) = Running st' (Some (S i)) ->
  (forall n q, S i <= n -> st'.(pfds) !! n = Some q -> q.(revents) = 0%Z) ->
  rtc (lstep servers) (Running st None) (Running st' None).
Proof.
  intros Hn Hi Hp Hf Hv Hs Hz. set (st0 := set_revents st _) in *.
  assert (Hl : length st0.(pfds) = length st.(pfds)).
  { rewrite <- (length_fmap pfd st0.(pfds)), <- (length_fmap pfd st.(pfds)).
    unfold st0, set_revents, with_pfds. simpl. by rewrite fmap_store_revents. }
  eapply rtc_l; [by apply (poll_only st i p flag)|].
  transitivity (Running st0 (Some i)).
  { apply scan_skip; [apply lookup_lt_Some in Hi; lia|].
    intros n q Hni Hq. unfold st0 in Hq. rewrite lookup_set_revents_only in Hq.
    destruct (st.(pfds) !! n) as [q0|] eqn:Hq0; simplify_eq/=. rewrite decide_False; [done|].
    intros E. pose proof (pfd_index st i n p q0 Hn Hi Hq0 E). lia. }
  eapply rtc_l; [by exists a|].
  destruct (decide (S i <= length st'.(pfds))).
  - etrans; [apply (scan_skip _ _ (length st'.(pfds))); [lia|intros n ? ? ?; apply (Hz n); [lia|done]]|].
    apply rtc_once, scan_end. done.
  - apply rtc_once, scan_end. lia.
Qed.

(** After [poll] reported [flag] on [p] alone: [p] carries [flag], and
    every other pollfd nothing. *)
Lemma only_at l i p flag :
  l !! i = Some p -> store_revents l (only p.(pfd) flag l) !! i = Some (mkPfd p.(pfd) p.(events) flag).
Proof.
  intros Hi. rewrite lookup_store_revents. unfold only. rewrite list_lookup_fmap, Hi. simpl.
  by rewrite decide_True.
Qed.

Lemma only_zero l i p flag n q :
  NoDup (pfd <$> l) -> l !! i = Some p -> n <> i ->
  store_revents l (only p.(pfd) flag l) !! n = Some q -> q.(revents) = 0%Z.
Proof.
  intros Hn Hi Hni. rewrite lookup_store_revents. unfold only. rewrite list_lookup_fmap.
  destruct (l !! n) as [q0|] eqn:Hq0; intros; simplify_eq/=. rewrite decide_False; [done|].
  intros E. apply Hni. apply (NoDup_lookup _ n i p.(pfd) Hn); rewrite list_lookup_fmap.
  - by rewrite Hq0, <- E.
  - by rewrite Hi.
Qed.

(** [poll] may report the events a pollfd waits for. *)
Lemma poll_ok_events p : (0 <= p.(events))%Z -> poll_ok p p.(events).
Proof.
  intros He. split; [done|]. apply Z.bits_inj'. intros n Hn.
  rewrite Z.land_spec, Z.lnot_spec, Z.lor_spec, Z.bits_0 by done. by destruct (Z.testbit (events p) n).
Qed.

(** A connection waiting for [POLLOUT] with a drained buffer is closed in
    one round. *)
Lemma close_round st i p port :
  NoDup (pfd <$> st.(pfds)) -> st.(pfds) !! i = Some p -> p.(events) = POLLOUT ->
  StdMap.find st.(socketPortmap) p.(pfd) = None ->
  StdMap.find st.(buffMap) p.(pfd) = Some [] ->
  StdMap.find st.(connectionsPortMap) p.(pfd) = Some port ->
  exists st', rtc (lstep servers) (Running st None) (Running st' None) /\
    (p.(pfd) ∉ st'.(open_fds)) /\ (p.(pfd) ∉ pfd <$> st'.(pfds)) /\ st'.(disk) = st.(disk).
Proof.
  intros Hn Hi He Hs Hb Hc.
  set (st0 := set_revents st (only p.(pfd) POLLOUT st.(pfds))).
  assert (Hi0 : st0.(pfds) !! i = Some (mkPfd p.(pfd) POLLOUT POLLOUT)).
  { pose proof (only_at st.(pfds) i p POLLOUT Hi) as X. rewrite He in X. exact X. }
  pose proof (step_close_eq servers st0 i _ RecvEOF 0 port Hi0 Hs eq_refl eq_refl Hb Hc) as Hst.
  eexists. split; [|split; [|split]].
  - eapply (one_round st i p POLLOUT); [done|done|rewrite <- He; apply poll_ok_events; rewrite He; done|done| |exact Hst|].
    + unfold valid_answer. fold st0. rewrite Hi0. cbn -[StdMap.find]. rewrite Hs, Hb. split; [done|simpl; lia].
    + intros n q Hni. simpl. rewrite removePfd_lookup_ge by lia. apply (only_zero _ i p); [done|done|lia].
  - intros [Hx _]%list_elem_of_filter. by apply Hx.
  - simpl. rewrite fmap_removePfd. apply NoDup_delete_not_elem.
    + unfold st0, set_revents, with_pfds. simpl. by rewrite fmap_store_revents.
    + by rewrite list_lookup_fmap, (only_at _ i p POLLOUT Hi).
  - done.
Qed.

(** A connection waiting for [POLLOUT] whose answer the kernel takes in
    one [send] is drained and closed in at most two rounds. *)
Lemma drain_round st i p b port :
  NoDup (pfd <$> st.(pfds)) -> st.(pfds) !! i = Some p -> p.(events) = POLLOUT ->
  StdMap.find st.(socketPortmap) p.(pfd) = None ->
  StdMap.find st.(buffMap) p.(pfd) = Some b ->
  StdMap.find st.(connectionsPortMap) p.(pfd) = Some port ->
  exists st', rtc (lstep servers) (Running st None) (Running st' None) /\
    (p.(pfd) ∉ st'.(open_fds)) /\ (p.(pfd) ∉ pfd <$> st'.(pfds)) /\ st'.(disk) = st.(disk).
Proof.
  intros Hn Hi He Hs Hb Hc. destruct (decide (b = [])) as [->|Hne]; [by eapply close_round|].
  set (st0 := set_revents st (only p.(pfd) POLLOUT st.(pfds))).
  assert (Hi0 : st0.(pfds) !! i = Some (mkPfd p.(pfd) POLLOUT POLLOUT)).
  { pose proof (only_at st.(pfds) i p POLLOUT Hi) as X. rewrite He in X. exact X. }
  pose proof (step_send_eq servers st0 i _ b RecvEOF (Z.of_nat (length b)) Hi0 Hs eq_refl eq_refl Hb Hne
                ltac:(lia)) as Hst.
  rewrite Nat2Z.id, drop_all in Hst.
  destruct (close_round (with_buffMap st0 (StdMap.assign st0.(buffMap) p.(pfd) [])) i
              (mkPfd p.(pfd) POLLOUT POLLOUT) port) as (st' & Hr & H1 & H2 & H3); simpl.
  { unfold st0, set_revents, with_pfds. simpl. by rewrite fmap_store_revents. }
  { done. }
  { done. }
  { done. }
  { by rewrite StdMapFacts.find_assign, decide_True. }
  { done. }
  exists st'. split; [|done]. etrans; [|exact Hr].
  eapply (one_round st i p POLLOUT); [done|done|rewrite <- He; apply poll_ok_events; rewrite He; done|done| |exact Hst|].
  - unfold valid_answer. fold st0. rewrite Hi0. cbn -[StdMap.find]. rewrite Hs, Hb. split; [done|simpl; lia].
  - intros n q Hni. simpl. apply (only_zero _ i p); [done|done|lia].
Qed.

(** C5: liveness of one connection.  A connection that waits for
    [POLLIN] with an empty buffer, whose whole request arrives in one
    read, is served in one round of the loop and closed at most two
    rounds later, when the kernel reports it ready and takes the answer
    in one [send]: after the first round its buffer holds exactly the
    answer of [getMessageToSend] to the request for its port, and at the
    end its descriptor is closed, it is no longer polled, and the disk
    is the one [getMessageToSend] left. *)
Theorem serve_connection st i p port req out fs' :
  wf st -> st.(pfds) !! i = Some p -> p.(events) = POLLIN ->
  StdMap.find st.(socketPortmap) p.(pfd) = None ->
  StdMap.find st.(buffMap) p.(pfd) = Some [] ->
  StdMap.find st.(connectionsPortMap) p.(pfd) = Some port ->
  0 < length req <= BUFFSIZE ->
  framed (parseHeader []) None req (Z.of_nat (length req)) = true ->
  getMessageToSend servers port (receiveMessage req st.(io)) st.(disk) = (Some out, fs') ->
  exists st1 st',
    rtc (lstep servers) (Running st None) (Running st1 None) /\
    StdMap.find st1.(buffMap) p.(pfd) = Some out /\
    rtc (lstep servers) (Running st1 None) (Running st' None) /\
    (p.(pfd) ∉ st'.(open_fds)) /\ (p.(pfd) ∉ pfd <$> st'.(pfds)) /\ st'.(disk) = fs'.
Proof.
  intros Hw Hi He Hs Hb Hc Hl Hf Hg. pose proof (wf_nodup _ Hw) as Hn. unfold fds in Hn.
  set (st0 := set_revents st (only p.(pfd) POLLIN st.(pfds))).
  assert (Hi0 : st0.(pfds) !! i = Some (mkPfd p.(pfd) POLLIN POLLIN)).
  { pose proof (only_at st.(pfds) i p POLLIN Hi) as X. rewrite He in X. exact X. }
  pose proof (step_read_eq servers st0 i _ [] req 0 port out fs' Hi0 Hs eq_refl Hb eq_refl Hf Hc Hg) as Hst.
  destruct (drain_round (mkWS (set_events i POLLOUT st0.(pfds)) st0.(socketPortmap) st0.(connectionsPortMap)
                          (StdMap.assign (StdMap.assign st0.(buffMap) p.(pfd) ([] ++ req)) p.(pfd) out)
                          (receiveMessage ([] ++ req) st0.(io)) fs' st0.(open_fds))
              i (mkPfd p.(pfd) POLLOUT POLLIN) out port) as (st' & Hr & H1 & H2 & H3); simpl.
  { rewrite fmap_set_events. unfold st0, set_revents, with_pfds. simpl. by rewrite fmap_store_revents. }
  { apply (set_events_lookup_eq _ _ _ (mkPfd p.(pfd) POLLIN POLLIN)). exact Hi0. }
  { done. }
  { done. }
  { by rewrite StdMapFacts.find_assign, decide_True. }
  { done. }
  eexists _, st'. split; [|split; [|split; [exact Hr|done]]].
  - eapply (one_round st i p POLLIN); [done|done|rewrite <- He; apply poll_ok_events; rewrite He; done|done| |exact Hst|].
    + unfold valid_answer. fold st0. rewrite Hi0. cbn -[StdMap.find]. rewrite Hs, Hb. simpl.
      split; [unfold BUFFSIZE in *; lia|lia].
    + intros n q Hni. simpl. rewrite set_events_lookup_ne by lia. apply (only_zero _ i p); [done|done|lia].
  - simpl. by rewrite StdMapFacts.find_assign, decide_True.
Qed.
End Serve.

(** The echo adaptor serves [GET /] on the sample server's connection 5. *)
Definition echo_root : str :=
  lit "Received message:" ++ [LF] ++ get_root ++ [LF] ++ lit "Sending back: Hello, world!" ++ [LF].

Lemma serve_connection_witness :
  exists st1 st',
    rtc (lstep (H := echo_io) []) (Running (sample_ws POLLIN 0 []) None) (Running st1 None) /\
    StdMap.find st1.(buffMap) 5%Z = Some echo_root /\
    rtc (lstep (H := echo_io) []) (Running st1 None) (Running st' None) /\
    (5%Z ∉ st'.(open_fds)) /\ (5%Z ∉ pfd <$> st'.(pfds)) /\ st'.(disk) = ∅.
Proof.
  apply (serve_connection (H := echo_io) [] (sample_ws POLLIN 0 []) 1 (mkPfd 5 POLLIN 0) (lit "8080")
           get_root echo_root ∅);
    [apply sample_ws_wf|reflexivity..|vm_compute; lia|vm_compute; reflexivity|reflexivity].
Defined.
