(* ===== verification/Connection.v ===== *)
(** * Connection: the life of one connection against the spec

    Section 4.1 of the spec describes a [PendingConnection]: it is created
    on accept with an empty receive buffer, grows that buffer by the bytes
    of each read until the message is framed, then holds the response in
    a send buffer from which each send removes the bytes the transport
    accepted, and is destroyed on peer close or once the send buffer is
    drained.  [conn_step] is one transition of that life cycle, as an
    abstract transition system over [Conn]; [conn_of st fd] reads the
    connection [fd] off the [WebServer] state (its registration in
    [_pfds] and its [buffMap] entry).  The refinement theorem
    [conn_refines] is a stuttering simulation: in every run of the event
    loop, each step moves each connection by one [conn_step] or not at
    all, so reads append, the response replaces the request, sends drop
    a prefix, a sending connection never reads again
    ([conn_step_writing]), and the connection leaves the poll set only
    by a peer close or after its send buffer is empty.  Its proof carries an
    invariant of the scan ([scan_ok]): a pollfd not yet examined in the
    current round has [revents] that [poll] could have returned for its
    [events], except for a connection accepted in this round, whose
    uninitialised [revents] is harmless because its buffer is empty. *)

From S2P Require Import Prelude Utils StdMap Http Config Request FileSystem Adaptor.
From S2P Require Import PollState HandleIO Loop LoopInvariant.

(** The spec's [PendingConnection], as the multiplexer holds it. *)
Inductive Conn := Reading (rbuf : str) | Writing (sbuf : str) | Gone.

(** The transitions the spec allows one connection. *)
Inductive conn_step : Conn -> Conn -> Prop :=
  | cs_stay c : conn_step c c
  | cs_accept : conn_step Gone (Reading [])
  | cs_recv b d : conn_step (Reading b) (Reading (b ++ d))
  | cs_respond b out : conn_step (Reading b) (Writing out)
  | cs_drop b : conn_step (Reading b) Gone
  | cs_send o k : conn_step (Writing o) (Writing (drop k o))
  | cs_close : conn_step (Writing []) Gone.

(** A connection that is sending only loses a prefix of its send buffer,
    or leaves once the buffer is empty: it never reads again. *)
Lemma conn_step_writing o c :
  conn_step (Writing o) c -> (exists k, c = Writing (drop k o)) \/ (o = [] /\ c = Gone).
Proof.
  inversion 1; subst; [left; exists 0; by rewrite drop_0 | left; eauto | by right].
Qed.

(** A connection that is not registered appears only with an empty
    buffer. *)
Lemma conn_step_gone c : conn_step Gone c -> c = Gone \/ c = Reading [].
Proof. inversion 1; auto. Qed.

(** The [events] of the pollfd of [fd] in [_pfds]. *)
Fixpoint ev_of (l : list pollfd) (fd : Z) : option Z :=
  match l with
  | [] => None
  | p :: l => if decide (p.(pfd) = fd) then Some p.(events) else ev_of l fd
  end.

(** The connection [fd] in the state [st]: registered for [POLLOUT] it
    is sending its buffer, registered otherwise it is reading into it. *)
Definition conn_of {A} (st : WS A) (fd : Z) : Conn :=
  let b := default [] (StdMap.find st.(buffMap) fd) in
  match ev_of st.(pfds) fd with
  | Some ev => if decide (ev = POLLOUT) then Writing b else Reading b
  | None => Gone
  end.

(** ** [ev_of] under the updates of [_pfds] *)

Section EvOf.
Implicit Types (l : list pollfd) (p q : pollfd).

Lemma ev_of_not_elem l fd : fd ∉ pfd <$> l -> ev_of l fd = None.
Proof.
  induction l as [|q l IH]; simpl; [done|]. intros Hn.
  rewrite decide_False by (intros E; subst; apply Hn; left). apply IH. intros ?; apply Hn; by right.
Qed.

Lemma ev_of_app l q fd :
  ev_of (l ++ [q]) fd =
    match ev_of l fd with Some e => Some e | None => if decide (q.(pfd) = fd) then Some q.(events) else None end.
Proof. induction l as [|q' l IH]; simpl; [done|]. destruct (decide (q'.(pfd) = fd)); [done|apply IH]. Qed.

Lemma ev_of_lookup l i p :
  NoDup (pfd <$> l) -> l !! i = Some p -> ev_of l p.(pfd) = Some p.(events).
Proof.
  revert i. induction l as [|q l IH]; intros [|i] Hn Hi; simplify_eq/=; [by rewrite decide_True|].
  apply NoDup_cons in Hn as [Hq Hn]. rewrite decide_False; [by eapply IH|].
  intros E. apply Hq. rewrite E. apply list_elem_of_fmap. exists p. split; [done|].
  by eapply list_elem_of_lookup_2.
Qed.

Lemma ev_of_delete l i p fd :
  NoDup (pfd <$> l) -> l !! i = Some p ->
  ev_of (delete i l) fd = if decide (fd = p.(pfd)) then None else ev_of l fd.
Proof.
  revert i. induction l as [|q l IH]; intros [|i] Hn Hi; simplify_eq/=.
  - apply NoDup_cons in Hn as [Hq _]. case_decide as E; [subst|by rewrite decide_False].
    by apply ev_of_not_elem.
  - apply NoDup_cons in Hn as [Hq Hn]. rewrite (IH i Hn Hi).
    case_decide as E; case_decide as E'; subst; try done.
    exfalso. apply Hq. rewrite E'. apply list_elem_of_fmap. exists p. split; [done|].
    by eapply list_elem_of_lookup_2.
Qed.

Lemma ev_of_removePfd l i p fd :
  NoDup (pfd <$> l) -> l !! i = Some p ->
  ev_of (removePfd i l) fd = if decide (fd = p.(pfd)) then None else ev_of l fd.
Proof. unfold removePfd. rewrite <- delete_take_drop. apply ev_of_delete. Qed.

Lemma ev_of_set_events l i p ev fd :
  NoDup (pfd <$> l) -> l !! i = Some p ->
  ev_of (set_events i ev l) fd = if decide (fd = p.(pfd)) then Some ev else ev_of l fd.
Proof.
  intros Hn Hi. unfold set_events. rewrite Hi. revert i Hn Hi.
  induction l as [|q l IH]; intros [|i] Hn Hi; simplify_eq/=.
  - repeat case_decide; subst; done.
  - apply NoDup_cons in Hn as [Hq Hn]. rewrite (IH i Hn Hi).
    case_decide as E; case_decide as E'; subst; try done.
    exfalso. apply Hq. rewrite E'. apply list_elem_of_fmap. exists p. split; [done|].
    by eapply list_elem_of_lookup_2.
Qed.

Lemma ev_of_store_revents l revs fd : ev_of (store_revents l revs) fd = ev_of l fd.
Proof. revert revs. induction l as [|q l IH]; intros [|r revs]; simpl; by rewrite ?IH. Qed.
End EvOf.

(** ** The invariant of the scan *)

Section Refinement.
Context {A : Type} `{IOAdaptor A}.
Variable servers : list ServerBlock.
Implicit Types (st : WS A) (p q : pollfd).

(** Every pollfd waits for [POLLIN] or for [POLLOUT]. *)
Definition events_ok st : Prop :=
  Forall (fun p => p.(events) = POLLIN \/ p.(events) = POLLOUT) st.(pfds).

(** The pollfds the scan has not reached: a connection that waits for
    [POLLOUT] did not get [POLLIN], and one that waits for [POLLIN] but
    got [POLLOUT] alone (only the uninitialised [revents] of a
    connection accepted in this round can) has an empty buffer. *)
Definition scan_ok st (i : nat) : Prop :=
  forall j p, i <= j -> st.(pfds) !! j = Some p ->
    (p.(events) = POLLOUT -> has_flag p.(revents) POLLIN = false) /\
    (p.(events) <> POLLOUT -> has_flag p.(revents) POLLIN = false ->
       has_flag p.(revents) POLLOUT = true -> StdMap.find st.(buffMap) p.(pfd) = Some []).

Definition conn_inv (l : Loop A) : Prop :=
  match l with
  | Running st (Some i) => wf st /\ events_ok st /\ scan_ok st i
  | Running st None | Stopped st => wf st /\ events_ok st
  | Crashed => True
  end.

(** A flag outside [events] and the always-reported conditions is not
    in what [poll] returns. *)
Lemma poll_ok_flag p r f :
  poll_ok p r -> Z.land f (Z.lor p.(events) (Z.lor POLLERR (Z.lor POLLHUP POLLNVAL))) = 0%Z ->
  has_flag r f = false.
Proof.
  intros [_ Hm] Hf. unfold has_flag. apply negb_false_iff, Z.eqb_eq.
  set (X := Z.lor p.(events) _) in *.
  assert (Hx : Z.land (Z.lnot X) f = f).
  { apply Z.bits_inj'. intros n Hn. rewrite Z.land_spec, Z.lnot_spec by lia.
    pose proof (f_equal (fun z => Z.testbit z n) Hf) as Hb. simpl in Hb.
    rewrite Z.land_spec, Z.bits_0 in Hb. by destruct (Z.testbit f n), (Z.testbit X n). }
  by rewrite <- Hx, Z.land_assoc, Hm, Z.land_0_l.
Qed.

Lemma poll_scan_ok st revs :
  events_ok st -> Forall2 poll_ok st.(pfds) revs -> scan_ok (set_revents st revs) 0.
Proof.
  intros He Hp j p' _. simpl. rewrite lookup_store_revents.
  destruct (st.(pfds) !! j) as [p|] eqn:Ej; [|done]. simpl.
  destruct (revs !! j) as [r|] eqn:Er;
    [|by apply lookup_lt_Some in Ej; rewrite (Forall2_length _ _ _ Hp) in Ej; apply lookup_ge_None in Er; lia].
  intros [= <-]. simpl.
  pose proof (Forall2_lookup_lr _ _ _ _ _ _ Hp Ej Er) as Hpr.
  destruct (proj1 (Forall_lookup _ _) He _ _ Ej) as [Ev|Ev]; simpl; rewrite Ev; split.
  - intros E. unfold POLLIN, POLLOUT in E. lia.
  - intros _ _ Hout. exfalso.
    assert (has_flag r POLLOUT = false) by (apply (poll_ok_flag p); [done|]; by rewrite Ev).
    congruence.
  - intros _. apply (poll_ok_flag p); [done|]. by rewrite Ev.
  - by intros [].
Qed.

(** [handleIO] touches the pollfd at [i] and the buffer of its
    descriptor only. *)
Lemma handleIO_frame st i p r k st' :
  wf st -> handleIO servers st i p r k = Some st' ->
  (st'.(pfds) = st.(pfds) \/ st'.(pfds) = set_events i POLLOUT st.(pfds) \/
   st'.(pfds) = removePfd i st.(pfds)) /\
  forall fd, fd <> p.(pfd) -> StdMap.find st'.(buffMap) fd = StdMap.find st.(buffMap) fd.
Proof.
  intros Hw. unfold handleIO, handle_read, handle_write. rewrite !StdMapFacts.subscript_spec. simpl.
  repeat case_match; intros E; simplify_eq/=; (split; [tauto|]); intros fd Hfd;
    rewrite ?StdMapFacts.find_assign, ?StdMapFacts.find_erase, ?StdMapFacts.find_insert;
    rewrite ?decide_False by done; try done; apply StdMapFacts.sorted_insert, Hw.
Qed.
(** The pollfds after [i] keep what [scan_ok] says of them when they
    come from after [i] and only the buffer of the descriptor at [i]
    changed. *)
Lemma scan_ok_transfer st st' i p :
  NoDup (fds st) -> st.(pfds) !! i = Some p -> scan_ok st i ->
  (forall j q, S i <= j -> st'.(pfds) !! j = Some q -> exists j', i < j' /\ st.(pfds) !! j' = Some q) ->
  (forall fd, fd <> p.(pfd) -> StdMap.find st'.(buffMap) fd = StdMap.find st.(buffMap) fd) ->
  scan_ok st' (S i).
Proof.
  intros Hn Hi Hs Hl Hb j q Hj Hq. destruct (Hl j q Hj Hq) as (j' & Hj' & Hq').
  destruct (Hs j' q ltac:(lia) Hq') as [H1 H2]. split; [done|]. intros ? ? ?.
  rewrite Hb; [by apply H2|]. intros E.
  assert (j' = i); [|lia]. apply (NoDup_lookup _ _ _ p.(pfd) Hn); unfold fds; rewrite list_lookup_fmap.
  - by rewrite Hq', <- E.
  - by rewrite Hi.
Qed.

Lemma handleIO_scan_ok st i p r k st' :
  wf st -> st.(pfds) !! i = Some p -> scan_ok st i ->
  handleIO servers st i p r k = Some st' -> scan_ok st' (S i).
Proof.
  intros Hw Hi Hs Eh. destruct (handleIO_frame _ _ _ _ _ _ Hw Eh) as [Hp Hb].
  apply (scan_ok_transfer st st' i p (wf_nodup _ Hw) Hi Hs); [|done].
  intros j q Hj Hq. destruct Hp as [E|[E|E]]; rewrite E in Hq.
  - exists j. split; [lia|done].
  - rewrite set_events_lookup_ne in Hq by lia. exists j. split; [lia|done].
  - rewrite removePfd_lookup_ge in Hq by lia. exists (S j). split; [lia|done].
Qed.

Lemma handleIO_events_ok st i p r k st' :
  wf st -> events_ok st -> handleIO servers st i p r k = Some st' -> events_ok st'.
Proof.
  intros Hw He Eh. destruct (handleIO_frame _ _ _ _ _ _ Hw Eh) as [[E|[E|E]] _];
    unfold events_ok; rewrite E; [done| |].
  - unfold set_events. case_match; [|done]. apply Forall_insert; [done|]. by right.
  - unfold removePfd. apply Forall_app. split; [by apply Forall_take|by apply Forall_drop].
Qed.

Lemma accept_inv st port nfd rev i :
  wf st -> events_ok st -> scan_ok st i -> nfd ∉ st.(open_fds) ->
  events_ok (acceptConnection st port (Some nfd) rev) /\
  scan_ok (acceptConnection st port (Some nfd) rev) (S i).
Proof.
  intros Hw He Hs Hn.
  assert (Hb : StdMap.find st.(buffMap) nfd = None).
  { destruct (StdMap.find _ nfd) eqn:E; [|done]. exfalso. eapply Hn, wf_buff; eauto. }
  split.
  { unfold events_ok. simpl. unfold addPfd. apply Forall_app. split; [done|]. repeat constructor. }
  intros j q Hj. simpl. unfold addPfd. destruct (decide (j < length st.(pfds))).
  - rewrite lookup_app_l by done. intros Hq. destruct (Hs j q ltac:(lia) Hq) as [H1 H2].
    split; [done|]. intros ? ? ?. rewrite StdMapFacts.find_insert, decide_False; [by apply H2|].
    intros E. apply Hn. rewrite <- E. apply (wf_polled _ Hw). unfold fds. apply list_elem_of_fmap.
    exists q. split; [done|]. by eapply list_elem_of_lookup_2.
  - rewrite lookup_app_r by lia. intros Hq.
    destruct (j - length st.(pfds)) as [|m] eqn:Em; simplify_eq/=.
    split; [intros E; unfold POLLIN, POLLOUT in E; lia|].
    intros. by rewrite StdMapFacts.find_insert, decide_True, Hb.
Qed.
(** ** Each step moves each connection as the spec allows *)

Lemma conn_of_eq st st' fd :
  ev_of st'.(pfds) fd = ev_of st.(pfds) fd ->
  StdMap.find st'.(buffMap) fd = StdMap.find st.(buffMap) fd ->
  conn_of st' fd = conn_of st fd.
Proof. intros E1 E2. unfold conn_of. by rewrite E1, E2. Qed.

Lemma handleIO_conn_other st i p r k st' fd :
  wf st -> st.(pfds) !! i = Some p -> handleIO servers st i p r k = Some st' ->
  fd <> p.(pfd) -> conn_of st' fd = conn_of st fd.
Proof.
  intros Hw Hi Eh Hfd. destruct (handleIO_frame _ _ _ _ _ _ Hw Eh) as [Hp Hb].
  apply conn_of_eq; [|by apply Hb]. pose proof (wf_nodup _ Hw) as Hn. unfold fds in Hn.
  destruct Hp as [E|[E|E]]; rewrite E; [done|rewrite (ev_of_set_events _ _ _ _ _ Hn Hi)
    |rewrite (ev_of_removePfd _ _ _ _ Hn Hi)]; by rewrite decide_False.
Qed.

(** The connection served by [handleIO]: every branch of the read and
    write paths is a transition of the spec. *)
Lemma handleIO_conn_self st i p r k st' :
  wf st -> st.(pfds) !! i = Some p -> scan_ok st i ->
  handleIO servers st i p r k = Some st' -> conn_step (conn_of st p.(pfd)) (conn_of st' p.(pfd)).
Proof.
  intros Hw Hi Hs. pose proof (wf_nodup _ Hw) as Hn. unfold fds in Hn.
  destruct (Hs i p ltac:(lia) Hi) as [H1 H2].
  assert (Ec : conn_of st p.(pfd) = if decide (p.(events) = POLLOUT)
             then Writing (default [] (StdMap.find st.(buffMap) p.(pfd)))
             else Reading (default [] (StdMap.find st.(buffMap) p.(pfd)))).
  { unfold conn_of. by rewrite (ev_of_lookup _ _ _ Hn Hi). }
  rewrite Ec. clear Ec.
  unfold handleIO, handle_read, handle_write. rewrite !StdMapFacts.subscript_spec. cbn -[conn_of].
  repeat case_match; intros E; simplify_eq; unfold conn_of; cbn [pfds buffMap with_buffMap with_pfds];
    rewrite ?(ev_of_set_events _ _ _ _ _ Hn Hi), ?(ev_of_removePfd _ _ _ _ Hn Hi), ?(ev_of_lookup _ _ _ Hn Hi);
    rewrite ?StdMapFacts.find_assign, ?StdMapFacts.find_insert; cbn; repeat case_decide; try congruence.
  all: try by constructor.
  all: try (exfalso; match goal with He : events _ = POLLOUT |- _ => pose proof (H1 He); congruence end).
  all: try (match goal with Hb : ¬ (?x ≠ []) |- _ =>
              assert (x = []) as -> by (destruct x; [done|by exfalso; apply Hb]); by constructor end).
  all: exfalso; match goal with Hne : ?x ≠ [] |- _ => apply Hne end; by rewrite H2.
Qed.
(** An accepted connection appears reading an empty buffer; the others
    stay as they were. *)
Lemma accept_conn st port nfd rev fd :
  wf st -> nfd ∉ st.(open_fds) ->
  conn_step (conn_of st fd) (conn_of (acceptConnection st port (Some nfd) rev) fd).
Proof.
  intros Hw Hn.
  assert (Hb : StdMap.find st.(buffMap) nfd = None).
  { destruct (StdMap.find _ nfd) eqn:E; [|done]. exfalso. eapply Hn, wf_buff; eauto. }
  assert (He : ev_of st.(pfds) nfd = None).
  { apply ev_of_not_elem. intros Hin. by apply Hn, (wf_polled _ Hw). }
  unfold conn_of. simpl. unfold addPfd. rewrite ev_of_app, StdMapFacts.find_insert. simpl.
  destruct (decide (fd = nfd)) as [->|Hne].
  - rewrite He, Hb, !decide_True by done. constructor.
  - rewrite !decide_False by congruence. destruct (ev_of st.(pfds) fd); constructor.
Qed.

Lemma events_ok_store_revents st revs :
  events_ok st -> events_ok (set_revents st revs).
Proof.
  unfold events_ok, set_revents. simpl. intros He. apply Forall_lookup. intros j q.
  rewrite lookup_store_revents. destruct (pfds st !! j) as [p|] eqn:Ej; intros; simplify_eq/=.
  pose proof (proj1 (Forall_lookup _ _) He _ _ Ej). by destruct (revs !! j); simplify_eq/=.
Qed.

Lemma scan_ok_S st i : scan_ok st i -> scan_ok st (S i).
Proof. intros Hs j p Hj. apply Hs. lia. Qed.

(** Every step of the loop the kernel may answer keeps [conn_inv]. *)
Lemma step_conn_inv l a : conn_inv l -> valid_answer l a -> conn_inv (step servers a l).
Proof.
  destruct l as [st [i|]| st|]; simpl; try done; intros Hc Hv.
  - destruct Hc as (Hw & He & Hs). destruct (st.(pfds) !! i) as [p|] eqn:Hi; [|done].
    case_match; [by split; [|split; [|apply scan_ok_S]]|].
    destruct (StdMap.find st.(socketPortmap) p.(pfd)) as [port|] eqn:Hsk.
    + destruct a as [| |[nfd|] rev| |]; try done; [|by split; [|split; [|apply scan_ok_S]]].
      destruct (accept_inv st port nfd rev i Hw He Hs (proj2 Hv)). split; [|done].
      apply acceptConnection_wf; [done|]. intros ? [= <-]. apply Hv.
    + destruct a as [| | |r k|]; try done.
      destruct (handleIO servers st i p r k) eqn:Eh; [|done].
      split; [by eapply handleIO_wf|]. split; [by eapply handleIO_events_ok|].
      by eapply handleIO_scan_ok.
  - destruct Hc as [Hw He]. destruct a; try done. split; [|split].
    + by apply set_revents_wf.
    + by apply events_ok_store_revents.
    + apply poll_scan_ok; [done|apply Hv].
Qed.
(** The state a configuration of the loop holds, if the process lives. *)
Definition state_of (l : Loop A) : option (WS A) :=
  match l with Running st _ | Stopped st => Some st | Crashed => None end.

(** One step of the loop moves each connection by one transition of the
    spec (or none), and leaves the listening sockets alone. *)
Lemma step_conn l a st st' fd :
  conn_inv l -> valid_answer l a -> state_of l = Some st -> state_of (step servers a l) = Some st' ->
  StdMap.find st.(socketPortmap) fd = None ->
  conn_step (conn_of st fd) (conn_of st' fd) /\ st'.(socketPortmap) = st.(socketPortmap).
Proof.
  destruct l as [st0 [i|]| st0|]; simpl; try done; intros Hc Hv [= <-] Hst Hfd.
  - destruct Hc as (Hw & He & Hs).
    destruct (st0.(pfds) !! i) as [p|] eqn:Hi; [|simplify_eq/=; split; [constructor|done]].
    case_match; [simplify_eq/=; split; [constructor|done]|].
    destruct (StdMap.find st0.(socketPortmap) p.(pfd)) as [port|] eqn:Hsk.
    + destruct a as [| |[nfd|] rev| |]; try done; simplify_eq/=; (split; [|done]); [|constructor].
      apply accept_conn; [done|apply Hv].
    + destruct a as [| | |r k|]; try done.
      destruct (handleIO servers st0 i p r k) as [st1|] eqn:Eh; simplify_eq/=.
      split; [|by destruct (handleIO_shape servers _ _ _ _ _ _ Eh)].
      destruct (decide (fd = p.(pfd))) as [->|Hne]; [by eapply handleIO_conn_self|].
      rewrite (handleIO_conn_other st0 i p r k _ fd Hw Hi Eh Hne). constructor.
  - destruct a; try done; simplify_eq/=; (split; [|done]).
    + unfold conn_of, set_revents, with_pfds. cbn [pfds buffMap].
      rewrite ev_of_store_revents. apply cs_stay.
    + apply cs_stay.
Qed.

(** Along a run from a well-formed state, the invariant of the scan
    holds and [fd] never becomes a listening socket. *)
Lemma reach_conn_inv l0 l fd :
  rtc (lstep servers) l0 l -> conn_inv l0 ->
  (forall st, state_of l0 = Some st -> StdMap.find st.(socketPortmap) fd = None) ->
  conn_inv l /\ (forall st, state_of l = Some st -> StdMap.find st.(socketPortmap) fd = None).
Proof.
  induction 1 as [l0|l0 l1 l2 [a [Hv <-]] _ IH]; intros Hc Hfd; [done|].
  apply IH; [by apply step_conn_inv|]. intros st1 Hs1.
  destruct (state_of l0) as [st0|] eqn:Hs0; [|by destruct l0].
  destruct (step_conn _ _ _ _ fd Hc Hv Hs0 Hs1 (Hfd st0 eq_refl)) as [_ ->]. by apply Hfd.
Qed.

(** C3: refinement of the connection life cycle of the spec, as a
    stuttering simulation.  In every run of the event loop from a
    well-formed state polled for reading or writing, each step of the
    loop moves each connection (every descriptor that is not a listening
    socket) by exactly one transition of the spec's [PendingConnection]
    or leaves it as it is: a connection appears only on accept and with
    an empty buffer, its receive buffer only grows by appended bytes, it
    switches from reading to sending a response, each send removes a
    prefix of the send buffer, it never goes back from sending to
    reading, and it leaves the poll set only on a peer close while
    reading or once its send buffer is empty. *)
Theorem conn_refines st0 l l' fd :
  wf st0 -> events_ok st0 -> StdMap.find st0.(socketPortmap) fd = None ->
  rtc (lstep servers) (Running st0 None) l -> lstep servers l l' ->
  forall st st', state_of l = Some st -> state_of l' = Some st' ->
  conn_step (conn_of st fd) (conn_of st' fd).
Proof.
  intros Hw He Hfd Hr [a [Hv <-]] st st' Hs Hs'.
  destruct (reach_conn_inv _ _ fd Hr ltac:(done) ltac:(by intros ? [= <-])) as [Hc Hfd'].
  by destruct (step_conn _ _ _ _ fd Hc Hv Hs Hs' (Hfd' st Hs)).
Qed.
End Refinement.

(** ** The refinement at a concrete server

    One [poll] round of the sample server of [HandleIO]: connection 5
    became readable. *)
Lemma conn_refines_witness :
  conn_step (conn_of (sample_ws POLLIN 0 []) 5)
    (conn_of (set_revents (sample_ws POLLIN 0 []) [0%Z; POLLIN]) 5).
Proof.
  apply (conn_refines (H := echo_io) [] (sample_ws POLLIN 0 []) (Running (sample_ws POLLIN 0 []) None)
           (step (H := echo_io) [] (APoll [0%Z; POLLIN]) (Running (sample_ws POLLIN 0 []) None))).
  - apply sample_ws_wf.
  - repeat constructor; by left.
  - reflexivity.
  - apply rtc_refl.
  - exists (APoll [0%Z; POLLIN]). split; [|reflexivity]. split.
    + repeat constructor; vm_compute; discriminate.
    + apply Exists_cons_tl, Exists_cons_hd. discriminate.
  - reflexivity.
  - reflexivity.
Defined.
