(* ===== verification/Console.v ===== *)
(** * Console: what the server writes to [std::cout] and [std::cerr]

    The server logs as it works; nothing it writes is read back, so the
    log is a function of the inputs of the operation that writes it.  A
    line is the stream and the text before its [std::endl].  The colour
    escapes of [colors.h] (outside [src/]) are parameters, as is
    [inet_ntop] (libc).  Modelled: [get_in_addr] and the line
    [acceptConnection] writes, the lines of [initSocket] and
    [initSockets], the [poll error] of [loop], the lines of [handleIO],
    the two lines of the [catch] of [getMessageToSend], and
    [printServerBlocksInfo] over [ServerBlock]'s [operator<<] (outside
    [src/]), and the rest of the writes: the constructor's, [addPfds]',
    and the lines of [readFile] and [postMethod].  [initSocket_log_reports]
    ties the log of [initSocket] to its outcome: the last line is on
    [std::cerr] exactly when [initSocket] throws. *)

From S2P Require Import Prelude Utils StdMap Http Config Request FileSystem Handlers InitSocket PollState HandleIO Loop.

Inductive stream := Cout | Cerr.
#[export] Instance stream_eq_dec : EqDecision stream.
Proof. solve_decision. Defined.

Abbreviation line := (stream * str)%type.

(** [AF_INET] on Linux. *)
Definition AF_INET : Z := 2.

(** [struct sockaddr_storage]: the family and the bytes of the structure. *)
Record sockaddr_storage := mkSockaddr { ss_family : Z; ss_bytes : list Z }.

(** [get_in_addr(sa)]: the address field, [sin_addr] (4 bytes at offset 4
    of a [sockaddr_in]) or [sin6_addr] (16 bytes at offset 8 of a
    [sockaddr_in6]), as the bytes [inet_ntop] reads through the pointer. *)
Definition get_in_addr (sa : sockaddr_storage) : list Z :=
  if (sa.(ss_family) =? AF_INET)%Z then take 4 (drop 4 sa.(ss_bytes))
  else take 16 (drop 8 sa.(ss_bytes)).

Section Console.
(** [GREEN], [HGREEN], [HWHITE], [BRED] and [RESET] of [colors.h]. *)
Variables GREEN HGREEN HWHITE BRED RESET : str.
(** [inet_ntop(family, src, s, sizeof(s))]: the text it leaves in [s]. *)
Variable inet_ntop : Z -> list Z -> str.

(** The lines of the [for] over [servInfo] in [initSocket]. *)
Fixpoint bind_log (l : list Attempt) : list line :=
  match l with
  | [] => []
  | a :: l =>
      if negb a.(a_socket) then (Cerr, lit "socket error") :: bind_log l
      else if negb a.(a_sockopt) then [(Cerr, lit "Error setting socket options")]
      else if negb a.(a_bind) then (Cerr, lit "bind error") :: bind_log l
      else []
  end.

(** The lines [initSocket(port)] writes. *)
Definition initSocket_log (e : SockEnv) (port : str) : list line :=
  (Cout, lit "port: " ++ port) ::
  if negb e.(gai_ok) then [(Cerr, lit "getaddrinfo error")]
  else bind_log e.(addrs) ++
       match bind_end e.(addrs) with
       | BOptErr => []
       | BNone => [(Cerr, lit "failed to bind")]
       | BBound =>
           if e.(listen_ok)
           then [(Cout, HWHITE ++ lit "Server: waiting for connections..." ++ RESET); (Cout, [])]
           else [(Cerr, lit "listen error")]
       end.

(** The lines of one iteration of [initSockets]: nothing for a port that
    has a socket; otherwise [initSocket]'s lines, then ["fd: "] and the
    descriptor, or the caught message on [std::cerr]. *)
Definition initSocket_step_log (alloc : list Z -> Z) (env : str -> SockEnv) {A} (st : WS A)
    (port : str) : list line :=
  if bool_decide (port ∈ map snd st.(socketPortmap)) then []
  else initSocket_log (env port) port ++
       match (initSocket alloc (env port) st.(open_fds)).1 with
       | Ret fd => [(Cout, lit "fd: " ++ int_to_str fd)]
       | Throw msg => [(Cerr, lit msg)]
       | Abort _ => []
       end.

(** [WebServer::initSockets()]: the lines of each iteration, on the state
    the iterations before it left. *)
Fixpoint initSockets_log_go (alloc : list Z -> Z) (env : str -> SockEnv) {A} (st : WS A)
    (ports : list str) : list line :=
  match ports with
  | [] => []
  | port :: ports =>
      initSocket_step_log alloc env st port ++
      initSockets_log_go alloc env (initSocket_step alloc env st port) ports
  end.

Definition initSockets_log (servers : list ServerBlock) (alloc : list Z -> Z) (env : str -> SockEnv)
    {A} (st : WS A) : list line :=
  initSockets_log_go alloc env st (concat (map portsListeningOn servers)).

(** [WebServer::WebServer(filePath, io)]: [GREEN "Server blocks created"
    RESET] and an empty line, then the lines of [initSockets()]. *)
Definition WebServer_new_log (servers : list ServerBlock) (alloc : list Z -> Z) (env : str -> SockEnv)
    {A} (io0 : A) (fs : FS) :
    list line :=
  [(Cout, GREEN ++ lit "Server blocks created" ++ RESET); (Cout, [])] ++
  initSockets_log servers alloc env (mkWS [] [] [] [] io0 fs []).

(** [WebServer::addPfds(fds)]: ["fd: "] and each descriptor. *)
Definition addPfds_log (fds : list Z) : list line :=
  map (fun fd => (Cout, lit "fd: " ++ int_to_str fd)) fds.

(** [loop()]: [poll] returned [-1]. *)
Definition poll_error_log : list line := [(Cerr, lit "poll error")].

(** [acceptConnection]: [accept] returned [-1], or the peer's address. *)
Definition accept_log (theiraddr : sockaddr_storage) (r : option Z) : list line :=
  match r with
  | None => [(Cerr, lit "accept error")]
  | Some _ =>
      [(Cout, HGREEN ++ lit "Server: got connection from: " ++ RESET ++
              inet_ntop theiraddr.(ss_family) (get_in_addr theiraddr))]
  end.

(** The [POLLIN] branch of [handleIO]: the count [recv] returned, then
    ["recv error"], ["connection closed"], or the progress line when
    the head declares a [Content-Length]. *)
Definition handle_read_log (buf0 : str) (r : RecvRes) : list line :=
  if negb (wants_more buf0) then [] else
  let info := parseHeader buf0 in
  let cl0 := StdMap.find info.(headers) CL in
  match r with
  | RecvErr => [(Cout, int_to_str (-1)); (Cerr, lit "recv error")]
  | RecvEOF => [(Cout, int_to_str 0); (Cerr, BRED ++ lit "connection closed" ++ RESET)]
  | RecvData d =>
      let bytes := Z.of_nat (length d) in
      let '(info1, cl1) :=
        match cl0 with
        | None => let i1 := parseHeader (buf0 ++ d) in (i1, StdMap.find i1.(headers) CL)
        | Some _ => (info, cl0)
        end in
      (Cout, int_to_str bytes) ::
      match cl1 with
      | Some v =>
          [(Cout, lit "read: " ++ int_to_str bytes ++ lit ", found: " ++
                  to_string (N.of_nat (length info1.(body))) ++ lit ", total: " ++
                  int_to_str (stoi v (-1)))]
      | None => []
      end
  end.

(** The [POLLOUT] branch of [handleIO]: ["byteSent: "] and what [send]
    returned, when there was something to send. *)
Definition handle_write_log (buf0 : str) (k : Z) : list line :=
  if decide (buf0 <> []) then [(Cout, lit "byteSent: " ++ int_to_str k)] else [].

(** The [catch] of [getMessageToSend]: the message and the code with its
    reason phrase ([errCodeMessages.find(code)->second]). *)
Definition on_error_log (e : RequestException) : option (list line) :=
  match StdMap.find errCodeMessages e.(exc_code) with
  | None => None
  | Some m =>
      Some [(Cerr, BRED ++ lit "Error: " ++ e.(exc_msg));
            (Cerr, lit "Error Code: " ++ int_to_str e.(exc_code) ++ [SP] ++ m ++ RESET)]
  end.

(** The lines [readFile] writes: the address of the [LocationBlock] in
    [blockPair] ([ablock], [addr]) as itself and through
    [dynamic_cast<LocationBlock *>], then [dynamic_cast<ServerBlock *>],
    a null pointer, printed [0]; then ["path: "] and the path when the
    request names a file under its location. *)
Definition readFile_log (addr : str) (r : rInfo) (block : ServerBlock) : list line :=
  let qp := r.(queryPath) in
  let '(pfx, loc) := getLocationBlockPair block qp in
  [(Cout, lit "a:" ++ addr); (Cout, lit "a:" ++ addr); (Cout, lit "a:0")] ++
  match r.(request) !! 0 with
  | None => []
  | Some m =>
      if negb (vfind loc.(allowedMethods) m) then []
      else if decide (loc.(redirection).1 <> 0%Z) then []
      else match last qp with
           | None => []
           | Some c =>
               if decide (c = "/"%char /\ 1 < length qp) then []
               else if decide (qp <> pfx) then [(Cout, lit "path: " ++ target_path loc qp pfx)]
               else []
           end
  end.

(** The loop of [postMethod] before it runs a script: ["head: "] and each
    header of the request, in the order of the [std::map]. *)
Definition post_head_log (r : rInfo) : list line :=
  map (fun kv => (Cout, lit "head: " ++ kv.1 ++ lit ": " ++ kv.2)) r.(headers).

(** [WebServer::printServerBlocksInfo()]: [std::cout << *it << std::endl]
    for each server, with [show] the text of [ServerBlock]'s
    [operator<<]. *)
Definition printServerBlocksInfo (show : ServerBlock -> str) (servers : list ServerBlock) : list line :=
  map (fun s => (Cout, show s)) servers.
End Console.

(** ** The log of [initSocket] and its outcome *)

Lemma last_fst_cons (x : line) l s :
  x.1 = s -> (l = [] \/ fst <$> last l = Some s) -> fst <$> last (x :: l) = Some s.
Proof.
  intros Hx Hl. rewrite last_cons. destruct Hl as [->|Hl]; [simpl; by rewrite Hx|].
  destruct (last l); simpl in *; congruence.
Qed.

Lemma bind_log_last l :
  match bind_end l with
  | BOptErr => fst <$> last (bind_log l) = Some Cerr
  | _ => Forall (fun x => x.1 = Cerr) (bind_log l)
  end.
Proof.
  induction l as [|a l IH]; simpl; [constructor|]. revert IH.
  destruct a as [[] [] []]; simpl; destruct (bind_end l); intros IH;
    first [by constructor | by apply last_fst_cons; auto | done].
Qed.

Lemma last_fst_cons_r (x : line) l s : fst <$> last l = Some s -> fst <$> last (x :: l) = Some s.
Proof. rewrite last_cons. destruct (last l); simpl; congruence. Qed.

(** The last line [initSocket] writes is on [std::cerr] exactly when it
    throws, whatever the port and the colours. *)
Lemma initSocket_log_last W R e port :
  fst <$> last (initSocket_log W R e port) = Some (if initSocket_ok e then Cout else Cerr).
Proof.
  unfold initSocket_log, initSocket_ok. apply last_fst_cons_r.
  destruct (gai_ok e); simpl; [|done].
  pose proof (bind_log_last (addrs e)) as Hl.
  destruct (bind_end (addrs e)); rewrite ?bool_decide_eq_true_2, ?bool_decide_eq_false_2 by done; simpl.
  - destruct (listen_ok e); by rewrite last_app_cons.
  - by rewrite last_app_cons.
  - by rewrite app_nil_r.
Qed.

Section Reports.
Variable alloc : list Z -> Z.
Hypothesis alloc_fresh : forall o, alloc o ∉ o.

(** C40: [initSocket] reports its failures: with a kernel whose
    [socket()] returns a descriptor that is not open, the last line
    [initSocket(port)] writes is on [std::cerr] exactly when it throws
    (and [initSockets] then prints the caught message, again on
    [std::cerr]), whatever the kernel answers, the port, the open
    descriptors and the colours. *)
Theorem initSocket_log_reports W R e port o :
  fst <$> last (initSocket_log W R e port) = Some Cerr <->
  exists msg, (initSocket alloc e o).1 = Throw msg.
Proof.
  rewrite initSocket_log_last, (initSocket_spec alloc alloc_fresh e o).
  unfold initSocket_ok. destruct (gai_ok e); simpl; [|split; eauto].
  destruct (bind_end (addrs e)), (listen_ok e); simpl; split;
    first [by eauto | by intros [? ?] | by intros [=]].
Qed.
End Reports.

(** [listen] fails on port 9090 of the sample kernel. *)
Lemma initSocket_log_reports_witness :
  fst <$> last (initSocket_log [] [] (sample_env (lit "9090")) (lit "9090")) = Some Cerr /\
  (initSocket next_fd (sample_env (lit "9090")) []).1 = Throw "fail to listen".
Proof.
  split; [|reflexivity].
  apply (initSocket_log_reports next_fd next_fd_fresh [] [] (sample_env (lit "9090")) (lit "9090") []).
  exists "fail to listen"%string. reflexivity.
Defined.
